(** * Verification of the chat engine of the RAG application

    Shallow embedding of [backend/app/chat/engine.py]: the construction of
    the chat history, the storage-context cache, the build-or-load step of
    the per-document indices, the per-document query engines and the
    assembly of the agent; of the settings of
    [backend/app/core/config.py]; and of [copy_to_s3] of
    [backend/scripts/seed_db.py].

    Conventions.
    - A Python [str] whose characters matter (message content) is a list
      of Unicode code points; identifiers, locations and prompts are
      [string]s.
    - A [datetime] is an integer number of microseconds; the monotonic
      clock of the cache counts nanoseconds.
    - Code that can raise returns a [Res]; code that touches the blob
      store, the cache or the models threads a [World]. *)

From Stdlib Require Import ZArith Lia List Ascii String.
From Stdlib Require Import Sorting.Sorted Sorting.Permutation.
From stdpp Require Import base option list strings pretty gmap.

Open Scope Z_scope.

(* ===================================================================== *)
(** * 1. Python values, exceptions and the state-and-error monad          *)
(* ===================================================================== *)

Module Py.

(** The exceptions that can cross the functions at hand.  The class
    hierarchy is Python's: [json.JSONDecodeError] derives from
    [ValueError]; [FileNotFoundError] and [ConnectionError] derive from
    [OSError]. *)
Inductive PyExc :=
| FileNotFoundError
    (* a blob that does not exist is opened *)
| IndexNotFound (index_id : string)
    (* ValueError("Failed to load index with ID ...") *)
| JSONDecodeError
    (* persisted state that does not deserialize *)
| KeyError (k : string)
| ConnectionError.
    (* transient failure of the storage backend *)

#[global] Instance PyExc_eq_dec : EqDecision PyExc.
Proof. solve_decision. Defined.

(** [isinstance(e, ValueError)]. *)
Definition is_ValueError (e : PyExc) : bool :=
  match e with
  | IndexNotFound _ | JSONDecodeError => true
  | _ => false
  end.

(** [isinstance(e, FileNotFoundError)]. *)
Definition is_FileNotFoundError (e : PyExc) : bool :=
  match e with
  | FileNotFoundError => true
  | _ => false
  end.

(** The failure classes of the error taxonomy: something is missing (a
    blob, an index id), or something else went wrong. *)
Definition is_not_found (e : PyExc) : bool :=
  match e with
  | FileNotFoundError | IndexNotFound _ => true
  | _ => false
  end.

Inductive Res (A : Type) :=
| Ok (a : A)
| Raise (e : PyExc).
Arguments Ok {A} a.
Arguments Raise {A} e.

(** A computation over a state [W] that returns or raises; what it did to
    the state before raising stays done. *)
Definition M (W A : Type) : Type := W -> Res A * W.

Definition ret {W A} (a : A) : M W A := fun w => (Ok a, w).

Definition raise {W A} (e : PyExc) : M W A := fun w => (Raise e, w).

Definition bind {W A B} (c : M W A) (k : A -> M W B) : M W B :=
  fun w =>
    match c w with
    | (Ok a, w') => k a w'
    | (Raise e, w') => (Raise e, w')
    end.

(** [try: c  except <class>: h]: the handler runs for the exceptions of
    the class, the others pass through. *)
Definition try_except {W A} (c : M W A) (class : PyExc -> bool)
    (h : M W A) : M W A :=
  fun w =>
    match c w with
    | (Ok a, w') => (Ok a, w')
    | (Raise e, w') => if class e then h w' else (Raise e, w')
    end.

Definition is_Ok {A} (r : Res A) : bool :=
  match r with Ok _ => true | Raise _ => false end.

Definition lift {W A} (r : Res A) : M W A := fun w => (r, w).

Definition gets {W A} (f : W -> A) : M W A := fun w => (Ok (f w), w).

Definition modify {W} (f : W -> W) : M W unit := fun w => (Ok tt, f w).

(** A [for] loop that threads an accumulator. *)
Fixpoint for_each {W A S} (l : list A) (body : A -> S -> M W S) (s : S)
  : M W S :=
  match l with
  | [] => ret s
  | x :: l' => bind (body x s) (for_each l' body)
  end.

(** A [dict] with string keys: insertion order is kept, setting a key that
    is present replaces its value in place. *)
Fixpoint dict_set {V} (k : string) (v : V) (d : list (string * V))
  : list (string * V) :=
  match d with
  | [] => [(k, v)]
  | (k', v') :: d' =>
      if bool_decide (k = k') then (k, v) :: d' else (k', v') :: dict_set k v d'
  end.

Fixpoint dict_get {V} (k : string) (d : list (string * V)) : option V :=
  match d with
  | [] => None
  | (k', v') :: d' => if bool_decide (k = k') then Some v' else dict_get k d'
  end.

(** [dict(pairs)]. *)
Definition dict_of {V} (pairs : list (string * V)) : list (string * V) :=
  fold_left (fun d kv => dict_set (fst kv) (snd kv) d) pairs [].

(** [zip]: stops with the shorter list. *)
Fixpoint zip {A B} (l : list A) (l' : list B) : list (A * B) :=
  match l, l' with
  | x :: l, y :: l' => (x, y) :: zip l l'
  | _, _ => []
  end.

(** Python's [sorted(xs, key=k)] is stable; a stable sort has one possible
    result, which insertion from the right computes: [x] is put before the
    first element whose key is not smaller, hence before its equals, which
    all came after it. *)
Section Sorted_by.
Context {A : Type} (key : A -> Z).

Fixpoint insert_by (x : A) (l : list A) : list A :=
  match l with
  | [] => [x]
  | y :: l' => if key x <=? key y then x :: l else y :: insert_by x l'
  end.

Fixpoint sorted_by (l : list A) : list A :=
  match l with
  | [] => []
  | x :: l' => insert_by x (sorted_by l')
  end.
End Sorted_by.

End Py.

Notation "x <- c ;; k" := (Py.bind c (fun x => k))
  (at level 100, c at next level, right associativity,
   format "'[v' x  <-  c  ;;  '/' k ']'").
Notation "c ;;; k" := (Py.bind c (fun _ => k))
  (at level 100, right associativity).

(* ===================================================================== *)
(** * 2. Messages and chat history                                        *)
(* ===================================================================== *)

Module History.
Import Py.

(** A Python [str] as its sequence of code points. *)
Definition pystr := list N.

(** [str.isspace] on one code point: the code points CPython treats as
    white space. *)
Definition is_whitespace (c : N) : bool :=
  ((9 <=? c) && (c <=? 13))%N
  || ((28 <=? c) && (c <=? 32))%N
  || (c =? 133)%N || (c =? 160)%N || (c =? 5760)%N
  || ((8192 <=? c) && (c <=? 8202))%N
  || (c =? 8232)%N || (c =? 8233)%N || (c =? 8239)%N
  || (c =? 8287)%N || (c =? 12288)%N.

(** [str.lstrip()]. *)
Fixpoint lstrip (s : pystr) : pystr :=
  match s with
  | [] => []
  | c :: s' => if is_whitespace c then lstrip s' else s
  end.

(** [str.rstrip()]. *)
Definition rstrip (s : pystr) : pystr := rev (lstrip (rev s)).

(** [str.strip()]. *)
Definition strip (s : pystr) : pystr := rstrip (lstrip s).

(** Truth value of a [str]: non-empty. *)
Definition truthy (s : pystr) : bool :=
  match s with [] => false | _ :: _ => true end.

(** Modelled from the spec: [app.models.db.MessageStatusEnum] is declared
    outside the files at hand; a message succeeded, failed or is pending. *)
Inductive MessageStatusEnum := PENDING | SUCCESS | ERROR.

(** Modelled from the spec: [app.models.db.MessageRoleEnum] is declared
    outside the files at hand; a stored message has a role, of which the
    code singles out [assistant].  [other_role] stands for any further
    member (system, ...). *)
Inductive MessageRoleEnum := user | assistant | other_role (name : string).

(** [llama_index.llms.base.MessageRole]. *)
Inductive MessageRole := SYSTEM | USER | ASSISTANT | FUNCTION | TOOL.

#[global] Instance MessageStatusEnum_eq_dec : EqDecision MessageStatusEnum.
Proof. solve_decision. Defined.
#[global] Instance MessageRoleEnum_eq_dec : EqDecision MessageRoleEnum.
Proof. solve_decision. Defined.
#[global] Instance MessageRole_eq_dec : EqDecision MessageRole.
Proof. solve_decision. Defined.

(** Modelled from the spec: [app.schema.Message], declared outside the
    files at hand; the fields that the engine reads. *)
Record MessageSchema := mkMessage {
  content : pystr;
  role : MessageRoleEnum;
  status : MessageStatusEnum;
  created_at : Z;
}.

(** [llama_index.llms.ChatMessage]. *)
Record ChatMessage := mkChat {
  chat_content : pystr;
  chat_role : MessageRole;
}.

(** The condition of the list comprehension:
    [m.content.strip() and m.status == MessageStatusEnum.SUCCESS]. *)
Definition keep (m : MessageSchema) : bool :=
  truthy (strip (content m)) && bool_decide (status m = SUCCESS).

(** The role given to a message of the history. *)
Definition history_role (m : MessageSchema) : MessageRole :=
  if bool_decide (role m = assistant) then ASSISTANT else USER.

Definition to_chat_message (m : MessageSchema) : ChatMessage :=
  mkChat (content m) (history_role m).

(** [get_chat_history]. *)
Definition get_chat_history (chat_messages : list MessageSchema)
  : list ChatMessage :=
  let chat_messages := filter (fun m => keep m = true) chat_messages in
  let chat_messages := sorted_by created_at chat_messages in
  map to_chat_message chat_messages.

End History.

(* ===================================================================== *)
(** * 3. Documents, storage contexts and the world                        *)
(* ===================================================================== *)

Module Storage.
Import Py.

(** Handle of a vector store. *)
Definition VectorStore := string.

(** [Optional[AsyncFileSystem]]: [None] is the local file system. *)
Definition FileSystem := option string.

(** Modelled from the spec: [app.schema.ClinicalGuidelineMetadata],
    declared outside the files at hand; the fields that are read. *)
Record ClinicalGuidelineMetadata := mkClinical {
  title : string;
  issuing_organization : string;
  publication_date : option N;     (* the year of the date, if any *)
}.

(** Modelled from the spec: [app.schema.Document], declared outside the
    files at hand.  [id_] is [str(document.id)], [metadata_map] holds the
    clinical-guideline block when the document has one. *)
Record DocumentSchema := mkDocument {
  id_ : string;
  url : string;
  metadata_map : option ClinicalGuidelineMetadata;
}.

(** A value of the metadata handed to the chunker. *)
Inductive MetaArg :=
| MetaStr (s : string)
| MetaClinical (c : ClinicalGuidelineMetadata).

(** A node of the chunker: text and metadata. *)
Record Chunk := mkChunk {
  chunk_text : string;
  chunk_metadata : gmap string string;
}.

(** [llama_index.Document]; [extra_info] is its [metadata]. *)
Record LlamaDoc := mkLlamaDoc {
  text : string;
  doc_id : string;
  metadata : gmap string string;
}.

(** The index structure stored under an index id. *)
Record IndexStruct := mkIndexStruct {
  index_id : string;
  nodes : list LlamaDoc;
}.

(** An entry of a persisted index store: a structure, or bytes that do not
    deserialize into one. *)
Inductive IndexEntry :=
| Entry (s : IndexStruct)
| Garbled.

(** [llama_index.ServiceContext]: the callback handlers are what the
    engine passes on. *)
Record ServiceContext := mkServiceContext {
  llm_temperature_tenths : Z;
  callback_manager : list string;
}.

(** [llama_index.StorageContext]: document store, index store and the
    vector store handle. *)
Record StorageContext := mkStorageContext {
  docstore : gmap string LlamaDoc;
  index_store : gmap string IndexEntry;
  vector_store : VectorStore;
}.

(** [llama_index.VectorStoreIndex]: an index structure bound to a service
    context and to the vector store of its storage context. *)
Record VectorStoreIndex := mkVectorStoreIndex {
  index_struct : IndexStruct;
  service_context : ServiceContext;
  index_vector_store : VectorStore;
}.

(** What [StorageContext.persist] writes at a location. *)
Record Persisted := mkPersisted {
  p_docstore : gmap string LlamaDoc;
  p_index_store : gmap string IndexEntry;
}.

(** What is found at a location of the blob store that is not empty:
    persisted state, or something that fails to be read with [e]. *)
Inductive Blob :=
| Stored (p : Persisted)
| Unreadable (e : PyExc).

(** An entry of the TTL cache: key, value and the time it expires. *)
Record Link := mkLink {
  lk_key : string;
  lk_value : StorageContext;
  lk_expires : Z;
}.

(** The state the engine runs in. *)
Record World := mkWorld {
  now : Z;                                   (* time.monotonic(), in ns *)
  blobs : gmap (FileSystem * string) Blob;   (* persisted storage contexts *)
  assets : gmap string string;               (* the asset bucket *)
  cache : list Link;                         (* the cache of
                                                get_storage_context, least
                                                recently used first *)
  vector_store_singleton : VectorStore;
  vector_rows : list (VectorStore * LlamaDoc); (* embedded nodes *)
  chunk_calls : nat;                         (* runs of the chunker *)
  embed_calls : nat;                         (* nodes sent for embedding *)
  utcnow : string;                           (* today, as %Y-%m-%d *)
}.

Definition set_now (f : Z -> Z) (w : World) : World :=
  mkWorld (f (now w)) (blobs w) (assets w) (cache w)
    (vector_store_singleton w) (vector_rows w) (chunk_calls w)
    (embed_calls w) (utcnow w).

Definition set_blobs (f : gmap (FileSystem * string) Blob ->
                          gmap (FileSystem * string) Blob) (w : World)
  : World :=
  mkWorld (now w) (f (blobs w)) (assets w) (cache w)
    (vector_store_singleton w) (vector_rows w) (chunk_calls w)
    (embed_calls w) (utcnow w).

Definition set_cache (f : list Link -> list Link) (w : World) : World :=
  mkWorld (now w) (blobs w) (assets w) (f (cache w))
    (vector_store_singleton w) (vector_rows w) (chunk_calls w)
    (embed_calls w) (utcnow w).

Definition add_chunk_call (w : World) : World :=
  mkWorld (now w) (blobs w) (assets w) (cache w)
    (vector_store_singleton w) (vector_rows w) (S (chunk_calls w))
    (embed_calls w) (utcnow w).

Definition add_embeddings (vs : VectorStore) (docs : list LlamaDoc)
    (w : World) : World :=
  mkWorld (now w) (blobs w) (assets w) (cache w)
    (vector_store_singleton w)
    (vector_rows w ++ map (fun d => (vs, d)) docs) (chunk_calls w)
    (embed_calls w + length docs)%nat (utcnow w).

(** Time passes between two calls. *)
Definition elapse (d : Z) (w : World) : World := set_now (fun t => t + d) w.

(** [StorageContext.from_defaults(vector_store=vs, fs=fs)]: a new, empty
    storage context. *)
Definition empty_storage_context (vs : VectorStore) : StorageContext :=
  mkStorageContext ∅ ∅ vs.

(** [StorageContext.from_defaults(persist_dir=..., vector_store=vs,
    fs=fs)]: with a location the stores are read from it, and a missing
    blob raises [FileNotFoundError]; without one the context is new. *)
Definition from_defaults (persist_dir : option string) (vs : VectorStore)
    (fs : FileSystem) : M World StorageContext :=
  match persist_dir with
  | None => ret (empty_storage_context vs)
  | Some dir =>
      blob <- gets (fun w => blobs w !! (fs, dir)) ;;
      match blob with
      | None => raise FileNotFoundError
      | Some (Unreadable e) => raise e
      | Some (Stored p) =>
          ret (mkStorageContext (p_docstore p) (p_index_store p) vs)
      end
  end.

(** [storage_context.persist(persist_dir=..., fs=fs)]. *)
Definition persist (ctx : StorageContext) (persist_dir : string)
    (fs : FileSystem) : M World unit :=
  modify (set_blobs
    <[(fs, persist_dir) := Stored (mkPersisted (docstore ctx) (index_store ctx))]>).

(** [load_indices_from_storage(storage_context, index_ids=...,
    service_context=...)]: the structures are fetched in the order of the
    ids; an id that is not in the index store raises the [ValueError]
    "Failed to load index with ID ...", an entry that does not deserialize
    raises from the JSON decoder. *)
Fixpoint get_index_structs (ctx : StorageContext) (index_ids : list string)
  : Res (list IndexStruct) :=
  match index_ids with
  | [] => Ok []
  | i :: ids =>
      match index_store ctx !! i with
      | None => Raise (IndexNotFound i)
      | Some Garbled => Raise JSONDecodeError
      | Some (Entry s) =>
          match get_index_structs ctx ids with
          | Ok ss => Ok (s :: ss)
          | Raise e => Raise e
          end
      end
  end.

Definition load_indices_from_storage (ctx : StorageContext)
    (index_ids : list string) (sc : ServiceContext)
  : Res (list VectorStoreIndex) :=
  match get_index_structs ctx index_ids with
  | Ok ss => Ok (map (fun s => mkVectorStoreIndex s sc (vector_store ctx)) ss)
  | Raise e => Raise e
  end.

(** [docstore.add_documents(docs)]: documents are stored under their
    [doc_id], a later one replaces an earlier one. *)
Definition add_documents (docs : list LlamaDoc)
    (store : gmap string LlamaDoc) : gmap string LlamaDoc :=
  fold_left (fun s d => <[doc_id d := d]> s) docs store.

(** [VectorStoreIndex.from_documents(docs, storage_context=ctx,
    service_context=sc)] followed by [index.set_index_id(i)]: every node
    is embedded and written to the vector store of the context, and the
    structure ends up in the index store under [i]. *)
Definition from_documents_with_id (docs : list LlamaDoc)
    (ctx : StorageContext) (sc : ServiceContext) (i : string)
  : M World (VectorStoreIndex * StorageContext) :=
  modify (add_embeddings (vector_store ctx) docs) ;;;
  let s := mkIndexStruct i docs in
  ret (mkVectorStoreIndex s sc (vector_store ctx),
       mkStorageContext (docstore ctx) (<[i := Entry s]> (index_store ctx))
         (vector_store ctx)).

End Storage.

(* ===================================================================== *)
(** * 4. The cache of storage contexts                                    *)
(* ===================================================================== *)

Module Cachetools.
Import Py Storage.

(** [TTLCache(maxsize=10, ttl=timedelta(minutes=5).total_seconds())]. *)
Definition maxsize : nat := 10.
Definition ttl : Z := 5 * 60 * 1000000000.

(** A link is live at [time] when [time < link.expires]. *)
Definition live (time : Z) (l : Link) : bool := time <? lk_expires l.

Definition has_key (k : string) (l : Link) : bool :=
  bool_decide (lk_key l = k).

Definition find_link (k : string) (links : list Link) : option Link :=
  find (has_key k) links.

Definition remove_key (k : string) (links : list Link) : list Link :=
  List.filter (fun l => negb (has_key k l)) links.

(** [TTLCache.expire(time)]: the links that are no longer live are
    dropped.  (The cache walks its links from the oldest and stops at the
    first live one; with one [ttl] and a clock that never goes back the
    oldest expire first, so these are all of them.) *)
Definition expire (time : Z) (links : list Link) : list Link :=
  List.filter (live time) links.

(** [cache[key]]: the link is looked up, which makes it the most recently
    used one; an absent or expired link is a miss.  Nothing is removed and
    no expiry time changes. *)
Definition getitem (time : Z) (k : string) (links : list Link)
  : option StorageContext * list Link :=
  match find_link k links with
  | None => (None, links)
  | Some l =>
      (if live time l then Some (lk_value l) else None,
       remove_key k links ++ [l])
  end.

(** [cache[key] = value]: expired links go first; if the key is new and
    the cache is full, the least recently used links are popped until
    there is room; the link of the key becomes the most recently used
    one and expires [ttl] after now. *)
Definition setitem (time : Z) (k : string) (v : StorageContext)
    (links : list Link) : list Link :=
  let links := expire time links in
  let links :=
    match find_link k links with
    | Some _ => links
    | None => drop (length links + 1 - maxsize) links
    end in
  remove_key k links ++ [mkLink k v (time + ttl)].

(** The decorator [cached(cache, key=key)] around a function [func] of
    the world: a hit returns the cached value and does not run [func]; on
    a miss [func] runs, and its value is stored if it returns one. *)
Definition cached (k : string) (func : M World StorageContext)
  : M World StorageContext :=
  fun w =>
    match getitem (now w) k (cache w) with
    | (Some v, links) => (Ok v, set_cache (fun _ => links) w)
    | (None, links) =>
        match func (set_cache (fun _ => links) w) with
        | (Ok v, w') => (Ok v, set_cache (setitem (now w') k v) w')
        | (Raise e, w') => (Raise e, w')
        end
    end.

(** The key function of the decorator,
    [lambda *args, **kwargs: f"storage_context_{args[0]}"], at the
    arguments of [get_storage_context(persist_dir, vector_store, fs=fs)]:
    only the first positional argument is read. *)
Definition cache_key (persist_dir : string) (vs : VectorStore)
    (fs : FileSystem) : string :=
  "storage_context_" +:+ persist_dir.

(** [get_storage_context]. *)
Definition get_storage_context (persist_dir : string) (vs : VectorStore)
    (fs : FileSystem) : M World StorageContext :=
  cached (cache_key persist_dir vs fs)
    (from_defaults (Some persist_dir) vs fs).

End Cachetools.

(* ===================================================================== *)
(** * 5. The engine                                                       *)
(* ===================================================================== *)

Module Engine.
Import Py Storage Cachetools.

(** [ExactMatchFilter(key=..., value=...)]. *)
Record ExactMatchFilter := mkExactMatchFilter {
  key : string;
  value : string;
}.

(** [VectorIndexRetriever(index=..., similarity_top_k=...,
    vector_store_kwargs={"filter": MetadataFilters(filters=...)})]. *)
Record VectorIndexRetriever := mkRetriever {
  retriever_index : VectorStoreIndex;
  similarity_top_k : nat;
  filters : list ExactMatchFilter;
}.

(** The response synthesizer of [get_clinical_response_synth]: the
    documents it was configured with. *)
Record ResponseSynth := mkSynth {
  synth_service_context : ServiceContext;
  synth_documents : list DocumentSchema;
}.

Record RetrieverQueryEngine := mkRetrieverQueryEngine {
  retriever : VectorIndexRetriever;
  response_synthesizer : ResponseSynth;
  engine_callback_manager : list string;
}.

Record ToolMetadata := mkToolMetadata {
  name : string;
  description : string;
}.

(** A [QueryEngineTool] around the query engine of one document. *)
Record DocumentTool := mkDocumentTool {
  query_engine : RetrieverQueryEngine;
  tool_metadata : ToolMetadata;
}.

(** [SubQuestionQueryEngine.from_defaults(query_engine_tools=..., ...)]:
    the router over the tools of the documents. *)
Record SubQuestionQueryEngine := mkSubQuestion {
  query_engine_tools : list DocumentTool;
  router_synthesizer : ResponseSynth;
  use_async : bool;
}.

(** The [QueryEngineTool] around the router, the one tool of the agent. *)
Record RouterTool := mkRouterTool {
  router : SubQuestionQueryEngine;
  router_metadata : ToolMetadata;
}.

(** [OpenAIAgent.from_tools(...)], the arguments it is built from. *)
Record OpenAIAgent := mkAgent {
  tools : list RouterTool;
  llm : string;
  chat_history : list History.ChatMessage;
  system_prompt : string;
  agent_callback_manager : list string;
  max_function_calls : nat;
}.

(** Modelled from the spec: [app.schema.Conversation], declared outside
    the files at hand: the documents and the messages. *)
Record ConversationSchema := mkConversation {
  documents : list DocumentSchema;
  messages : list History.MessageSchema;
}.

(** A format string, parsed: literal text and replacement fields. *)
Inductive Segment :=
| Lit (s : string)
| Field (f : string).

(** [template.format] with keyword arguments: a field is replaced by its argument, a
    field without argument raises [KeyError]; arguments that no field
    names are ignored. *)
Fixpoint format (template : list Segment) (kwargs : list (string * string))
  : Res string :=
  match template with
  | [] => Ok ""
  | Lit s :: t =>
      match format t kwargs with
      | Ok r => Ok (s +:+ r)
      | Raise e => Raise e
      end
  | Field f :: t =>
      match dict_get f kwargs with
      | None => Raise (KeyError f)
      | Some v =>
          match format t kwargs with
          | Ok r => Ok (v +:+ r)
          | Raise e => Raise e
          end
      end
  end.

(** [sep.join(parts)]. *)
Fixpoint join (sep : string) (parts : list string) : string :=
  match parts with
  | [] => ""
  | [p] => p
  | p :: ps => p +:+ sep +:+ join sep ps
  end.

Definition newline : string := String (Ascii.ascii_of_nat 10) "".

(** [s.split('/')[-1]]: what follows the last slash. *)
Fixpoint last_segment (s : string) : string :=
  match s with
  | EmptyString => ""
  | String c s' =>
      if bool_decide (c = "/"%char)
      then last_segment s'
      else
        (* [c] starts the last segment unless a slash follows *)
        if existsb (fun c' => bool_decide (c' = "/"%char))
             (list_ascii_of_string s')
        then last_segment s'
        else s
  end.

Definition OPENAI_CHAT_LLM_NAME : string := "gpt-4-1106-preview".

(** The description of the agent's one tool. *)
Definition clinical_guidelines_description : string :=
  "A query engine specialized for analyzing clinical practice guidelines. Use this for:"
  +:+ newline +:+
  "- Understanding clinical recommendations and their evidence levels"
  +:+ newline +:+
  "- Finding specific treatment protocols and procedures"
  +:+ newline +:+
  "- Identifying patient care guidelines and best practices"
  +:+ newline +:+
  "- Analyzing clinical outcomes and quality measures".

(** [build_description_for_document]. *)
Definition build_description_for_document (document : DocumentSchema)
  : string :=
  match metadata_map document with
  | Some clinical_metadata =>
      "Clinical practice guidelines titled '" +:+ title clinical_metadata
      +:+ "' from " +:+ issuing_organization clinical_metadata
      +:+ ", published "
      +:+ match publication_date clinical_metadata with
          | Some year => pretty year
          | None => "date not specified"
          end
      +:+ "."
  | None =>
      "A document containing useful information that the user pre-selected to discuss with the assistant."
  end.

(** [get_tool_service_context]. *)
Definition get_tool_service_context (callback_handlers : list string)
  : ServiceContext :=
  mkServiceContext 1 callback_handlers.

(** Modelled from the spec: [get_clinical_response_synth] lives outside
    the files at hand; the synthesizer is configured from a service
    context and the documents it is for. *)
Definition get_clinical_response_synth (sc : ServiceContext)
    (docs : list DocumentSchema) : ResponseSynth :=
  mkSynth sc docs.

Section Pipeline.

(** Settings and constants that are declared outside the files at
    hand. *)
Variable S3_BUCKET_NAME : string.
Variable S3_ASSET_BUCKET_NAME : string.
Variable S3_ENDPOINT_URL : string.
Variable DB_DOC_ID_KEY : string.
Variable CLINICAL_GUIDELINE : string.
Variable CLINICAL_SYSTEM_MESSAGE : list Segment.

(** [GuidelineProcessor().process_document(path, metadata=...)], the
    chunker: from the bytes of the file and the metadata it is given to
    the nodes, or a failure. *)
Variable process_document :
  string -> list (string * MetaArg) -> Res (list Chunk).

(** [app.chat.utils.build_title_for_document]. *)
Variable build_title_for_document : DocumentSchema -> string.

(** [get_s3_fs]: the file system of the configured endpoint. *)
Definition get_s3_fs : FileSystem := Some S3_ENDPOINT_URL.

(** [fetch_and_read_document]: the file is downloaded from the asset
    bucket, chunked, and every node becomes a document that carries the
    id of the document it comes from. *)
Definition fetch_and_read_document (document : DocumentSchema)
  : M World (list LlamaDoc) :=
  let s3_path :=
    S3_ASSET_BUCKET_NAME +:+ "/" +:+ last_segment (url document) in
  file <- gets (fun w => assets w !! s3_path) ;;
  match file with
  | None => raise FileNotFoundError
  | Some bytes =>
      match metadata_map document with
      | None => raise (KeyError CLINICAL_GUIDELINE)
      | Some clinical =>
          modify add_chunk_call ;;;
          nodes <- lift (process_document bytes
                     [(DB_DOC_ID_KEY, MetaStr (id_ document));
                      (CLINICAL_GUIDELINE, MetaClinical clinical)]) ;;
          ret (map (fun node =>
                      mkLlamaDoc (chunk_text node) (id_ document)
                        (chunk_metadata node))
                   nodes)
      end
  end.

(** The body of the [try] of [build_doc_id_to_index_map], first half:
    the storage context comes from [get_storage_context]; when that
    finds nothing at the location, a new one is made and persisted. *)
Definition obtain_storage_context (persist_dir : string)
    (vs : VectorStore) (fs : FileSystem) : M World StorageContext :=
  try_except (get_storage_context persist_dir vs fs)
    is_FileNotFoundError
    (let storage_context := empty_storage_context vs in
     persist storage_context persist_dir fs ;;;
     ret storage_context).

(** Second half: the indices of the documents are loaded in one go and
    paired with their ids. *)
Definition load_existing_indices (sc : ServiceContext)
    (documents : list DocumentSchema) (storage_context : StorageContext)
  : M World (list (string * VectorStoreIndex)) :=
  let index_ids := map id_ documents in
  indices <- lift (load_indices_from_storage storage_context index_ids sc) ;;
  ret (dict_of (zip index_ids indices)).

(** The body of the loop of the [except ValueError] branch: one document
    is fetched and chunked, its nodes are tagged and registered, its
    index is built and the storage context is persisted. *)
Definition build_one (sc : ServiceContext) (persist_dir : string)
    (fs : FileSystem) (doc : DocumentSchema)
    (acc : StorageContext * list (string * VectorStoreIndex))
  : M World (StorageContext * list (string * VectorStoreIndex)) :=
  let '(storage_context, doc_id_to_index) := acc in
  llama_index_docs <- fetch_and_read_document doc ;;
  let llama_index_docs :=
    map (fun node =>
           mkLlamaDoc (text node) (doc_id node)
             (<["doc_id" := id_ doc]> (metadata node)))
        llama_index_docs in
  let storage_context :=
    mkStorageContext
      (add_documents llama_index_docs (docstore storage_context))
      (index_store storage_context) (vector_store storage_context) in
  built <- from_documents_with_id llama_index_docs storage_context sc
             (id_ doc) ;;
  let '(index, storage_context) := built in
  persist storage_context persist_dir fs ;;;
  ret (storage_context, dict_set (id_ doc) index doc_id_to_index).

(** The [except ValueError] branch. *)
Definition rebuild_indices (sc : ServiceContext) (persist_dir : string)
    (vs : VectorStore) (fs : FileSystem) (documents : list DocumentSchema)
  : M World (list (string * VectorStoreIndex)) :=
  storage_context <- from_defaults (Some persist_dir) vs fs ;;
  final <- for_each documents (build_one sc persist_dir fs)
             (storage_context, []) ;;
  ret (snd final).

(** The body of the outer [try] of [build_doc_id_to_index_map]. *)
Definition load_phase (sc : ServiceContext)
    (documents : list DocumentSchema) (fs : FileSystem)
    (persist_dir : string) (vs : VectorStore)
  : M World (list (string * VectorStoreIndex)) :=
  storage_context <- obtain_storage_context persist_dir vs fs ;;
  load_existing_indices sc documents storage_context.

(** [build_doc_id_to_index_map]. *)
Definition build_doc_id_to_index_map (sc : ServiceContext)
    (documents : list DocumentSchema) (fs : FileSystem)
  : M World (list (string * VectorStoreIndex)) :=
  let persist_dir := S3_BUCKET_NAME in
  vs <- gets vector_store_singleton ;;
  try_except
    (load_phase sc documents fs persist_dir vs)
    is_ValueError
    (rebuild_indices sc persist_dir vs fs documents).

(** [index_to_query_engine]. *)
Definition index_to_query_engine (doc_id : string)
    (index : VectorStoreIndex) (documents : list DocumentSchema)
  : RetrieverQueryEngine :=
  let retriever :=
    mkRetriever index 3 [mkExactMatchFilter DB_DOC_ID_KEY doc_id] in
  let response_synthesizer :=
    get_clinical_response_synth (service_context index)
      (List.filter (fun doc => bool_decide (id_ doc = doc_id)) documents) in
  mkRetrieverQueryEngine retriever response_synthesizer
    (callback_manager (service_context index)).

(** [get_chat_engine]. *)
Definition get_chat_engine (callback_handler : string)
    (conversation : ConversationSchema) : M World OpenAIAgent :=
  let service_context := get_tool_service_context [callback_handler] in
  let s3_fs := get_s3_fs in
  doc_id_to_index <-
    build_doc_id_to_index_map service_context (documents conversation)
      s3_fs ;;
  let id_to_doc :=
    dict_of (map (fun doc => (id_ doc, doc)) (documents conversation)) in
  vector_query_engine_tools <-
    for_each doc_id_to_index
      (fun '(doc_id, index) acc =>
         match dict_get doc_id id_to_doc with
         | None => raise (KeyError doc_id)
         | Some doc =>
             ret (acc ++
               [mkDocumentTool
                  (index_to_query_engine doc_id index
                     (documents conversation))
                  (mkToolMetadata doc_id
                     (build_description_for_document doc))])
         end)
      [] ;;
  let response_synth :=
    get_clinical_response_synth service_context (documents conversation) in
  let clinical_query_engine :=
    mkSubQuestion vector_query_engine_tools response_synth true in
  let top_level_tools :=
    [mkRouterTool clinical_query_engine
       (mkToolMetadata "clinical_guidelines"
          clinical_guidelines_description)] in
  let chat_history := History.get_chat_history (messages conversation) in
  let doc_titles :=
    match documents conversation with
    | _ :: _ =>
        join newline
          (map (fun doc => "- " +:+ build_title_for_document doc)
             (documents conversation))
    | [] => "No clinical guidelines selected."
    end in
  curr_date <- gets utcnow ;;
  prompt <- lift (format CLINICAL_SYSTEM_MESSAGE
               [("doc_titles", doc_titles); ("curr_date", curr_date)]) ;;
  ret (mkAgent top_level_tools OPENAI_CHAT_LLM_NAME chat_history prompt
         (callback_manager service_context) 3).

End Pipeline.

End Engine.

(* ===================================================================== *)
(** * 6. Retrieval and the turn of the agent                              *)
(* ===================================================================== *)

Module Retrieval.
Import Py Storage Engine.

Section Query.

(** The similarity of a query to a node, as the embedding model and the
    vector store compute it. *)
Variable similarity : string -> LlamaDoc -> Z.

(** A node passes the filters when its metadata has, under the key of
    each filter, exactly the value of the filter. *)
Definition passes (fs : list ExactMatchFilter) (node : LlamaDoc) : bool :=
  forallb
    (fun f => bool_decide (metadata node !! key f = Some (value f))) fs.

(** The nodes a vector store holds. *)
Definition rows_of (vs : VectorStore) (w : World) : list LlamaDoc :=
  map snd (List.filter (fun r => bool_decide (fst r = vs)) (vector_rows w)).

(** Modelled from the spec: the query that a retriever sends to the
    vector store of its index ([app.chat.pg_vector] is outside the files
    at hand).  The nodes of the store that pass the filters are ranked
    by similarity to the query, most similar first, and the first
    [similarity_top_k] are returned. *)
Definition retrieve (r : VectorIndexRetriever) (query : string)
    (w : World) : list LlamaDoc :=
  take (similarity_top_k r)
    (sorted_by (fun node => - similarity query node)
       (List.filter (passes (filters r))
          (rows_of (index_vector_store (retriever_index r)) w))).

End Query.

End Retrieval.

Module Agent.
Import Py Engine.

Inductive Phase := idle | awaiting_model | tool_dispatch | responding.

(** What the reasoning step asks for: a call of the tool, or the reply. *)
Inductive Decision :=
| CallTool (query : string)
| Reply (answer : string).

(** The final message: the reply of the model, or one assembled from the
    tool results at hand when the budget ran out. *)
Inductive Response :=
| Final (answer : string)
| FromResults (partial : list string).

(** The live turn: phase, tool calls dispatched so far, their results, the
    call that is being dispatched, and the response once there is one. *)
Record Turn := mkTurn {
  phase : Phase;
  tool_calls : nat;
  results : list string;
  pending : option string;
  response : option Response;
}.

Section Loop.

(** The reasoning step of the model, given the tool results so far, and
    the tool. *)
Variable reason : list string -> Decision.
Variable run_tool : string -> string.

(** Modelled from the spec: the turn loop of the agent, which runs
    inside the agent class of llama_index, outside the files at hand;
    the files fix its budget, [max_function_calls].  A turn waits for
    the model; a requested tool call is dispatched while the budget
    lasts and its result goes back to the model; a reply, or a request
    beyond the budget, ends the turn in [responding]. *)
Definition step (agent : OpenAIAgent) (t : Turn) : Turn :=
  match phase t with
  | idle => t
  | awaiting_model =>
      match reason (results t) with
      | Reply a =>
          mkTurn responding (tool_calls t) (results t) None
            (Some (Final a))
      | CallTool q =>
          if (tool_calls t <? max_function_calls agent)%nat
          then mkTurn tool_dispatch (tool_calls t) (results t) (Some q) None
          else mkTurn responding (tool_calls t) (results t) None
                 (Some (FromResults (results t)))
      end
  | tool_dispatch =>
      match pending t with
      | Some q =>
          mkTurn awaiting_model (S (tool_calls t))
            (results t ++ [run_tool q]) None None
      | None =>
          mkTurn responding (tool_calls t) (results t) None
            (Some (FromResults (results t)))
      end
  | responding => mkTurn idle (tool_calls t) (results t) None (response t)
  end.

(** A user message arrives. *)
Definition start : Turn := mkTurn awaiting_model 0 [] None None.

Fixpoint run (agent : OpenAIAgent) (n : nat) (t : Turn) : Turn :=
  match n with
  | O => t
  | S n' => run agent n' (step agent t)
  end.

End Loop.

(** The tool has been called at most as often as the budget allows, there
    is one result per call, and a call that is being dispatched is within
    the budget. *)
Definition within_budget (agent : OpenAIAgent) (t : Turn) : Prop :=
  (tool_calls t <= max_function_calls agent)%nat
  /\ length (results t) = tool_calls t
  /\ (phase t = tool_dispatch -> (tool_calls t < max_function_calls agent)%nat).

End Agent.

Module Scenario.
Import Py Storage Cachetools.

(** Calls of [get_storage_context] for one location, each after some time
    has passed and with its own vector store and file system; the call
    results are collected. *)
Fixpoint read_many (persist_dir : string)
    (reads : list (Z * VectorStore * FileSystem)) (w : World)
  : list (Res StorageContext) * World :=
  match reads with
  | [] => ([], w)
  | (d, vs, fs) :: reads' =>
      let '(r, w1) := get_storage_context persist_dir vs fs (elapse d w) in
      let '(rs, w2) := read_many persist_dir reads' w1 in
      (r :: rs, w2)
  end.

(** The cache holds, under key [k], the value [ctx], to expire at [E]. *)
Definition cached_entry (k : string) (ctx : StorageContext) (E : Z)
    (w : World) : Prop :=
  exists l : Link,
    find_link k (cache w) = Some l /\ lk_value l = ctx /\ lk_expires l = E.

(** The location holds a persisted storage context with an index
    structure under the id. *)
Definition index_persisted (fs : FileSystem) (persist_dir : string)
    (index_id : string) (w : World) : bool :=
  match blobs w !! (fs, persist_dir) with
  | Some (Stored p) =>
      match p_index_store p !! index_id with
      | Some (Entry _) => true
      | _ => false
      end
  | _ => false
  end.

(** No chunker run, no embedding and no write to a vector store happened
    between two worlds. *)
Definition no_index_work (w w' : World) : Prop :=
  chunk_calls w' = chunk_calls w
  /\ embed_calls w' = embed_calls w
  /\ vector_rows w' = vector_rows w.

(** The time the calls take in all. *)
Definition total_delay (reads : list (Z * VectorStore * FileSystem)) : Z :=
  fold_right (fun r acc => fst (fst r) + acc) 0 reads.

End Scenario.

Module Demo.
Import Py History Storage Cachetools Engine.

(** A small deployment to run the engine on: one bucket for the persisted
    storage context, an asset bucket with two guidelines, a chunker that
    makes one node of a file. *)
Definition bucket : string := "guidelines-index".
Definition asset_bucket : string := "guidelines-assets".
Definition endpoint : string := "http://localstack:4566".
Definition doc_id_key : string := "db_document_id".
Definition clinical_key : string := "clinical_guideline".

Definition one_node (bytes : string) (meta : list (string * MetaArg))
  : Res (list Chunk) :=
  Ok [mkChunk bytes
        match dict_get doc_id_key meta with
        | Some (MetaStr i) => <[doc_id_key := i]> ∅
        | _ => ∅
        end].

Definition title_of (doc : DocumentSchema) : string :=
  match metadata_map doc with
  | Some c => title c
  | None => "Untitled"
  end.

Definition template : list Segment :=
  [Lit "You answer questions about these guidelines:"; Field "doc_titles";
   Lit " Today is "; Field "curr_date"; Lit "."].

Definition doc_a : DocumentSchema :=
  mkDocument "doc-a" "http://localstack:4566/guidelines-assets/a.pdf"
    (Some (mkClinical "Stroke" "ESO" (Some 2021%N))).

Definition doc_b : DocumentSchema :=
  mkDocument "doc-b" "http://localstack:4566/guidelines-assets/b.pdf"
    (Some (mkClinical "Cirrhosis" "BSG" None)).

Definition the_assets : gmap string string :=
  <["guidelines-assets/a.pdf" := "stroke text"]>
    (<["guidelines-assets/b.pdf" := "cirrhosis text"]> ∅).

Definition s3 : FileSystem := Some endpoint.

(** Nothing is persisted yet. *)
Definition w_fresh : World :=
  mkWorld 0 ∅ the_assets [] "pg" [] 0 0 "2024-05-01".

(** An empty storage context is persisted. *)
Definition w_empty : World :=
  mkWorld 0 (<[(s3, bucket) := Stored (mkPersisted ∅ ∅)]> ∅) the_assets []
    "pg" [] 0 0 "2024-05-01".

Definition sc : ServiceContext := get_tool_service_context ["handler"].

Definition build (docs : list DocumentSchema) : M World _ :=
  build_doc_id_to_index_map bucket asset_bucket doc_id_key clinical_key
    one_node sc docs s3.

Definition chat_engine (conversation : ConversationSchema) : M World _ :=
  get_chat_engine bucket asset_bucket endpoint doc_id_key clinical_key
    template one_node title_of "handler" conversation.

(** The index of [doc_a] is persisted (by a first build), nothing is
    cached. *)
Definition w_a_persisted : World :=
  set_cache (fun _ => []) (snd (build [doc_a] w_fresh)).

(** The storage backend cannot be reached. *)
Definition w_unreachable : World :=
  mkWorld 0 (<[(s3, bucket) := Unreadable ConnectionError]> ∅) the_assets []
    "pg" [] 0 0 "2024-05-01".

(** The persisted entry of [doc_a] does not deserialize. *)
Definition w_a_garbled : World :=
  mkWorld 0
    (<[(s3, bucket) := Stored (mkPersisted ∅ (<["doc-a" := Garbled]> ∅))]> ∅)
    the_assets [] "pg" [] 0 0 "2024-05-01".

End Demo.

(* ===================================================================== *)
(** * 6a. The settings, workloads of the cache, and the seed script       *)
(* ===================================================================== *)

Module Config.
Import History.

(** The code points of a literal. *)
Definition lit (s : string) : pystr :=
  map N_of_ascii (list_ascii_of_string s).

(** [str.startswith(prefix)]. *)
Fixpoint startswith (s prefix : pystr) : bool :=
  match prefix, s with
  | [], _ => true
  | p :: prefix', c :: s' => (c =? p)%N && startswith s' prefix'
  | _ :: _, [] => false
  end.

(** [str.replace(old, new)] for an [old] that is not empty: the
    occurrences of [old] are found from the left and do not overlap;
    [skip] counts the code points of a replaced occurrence that are still
    to be passed over. *)
Fixpoint replace_from (old new : pystr) (skip : nat) (s : pystr) : pystr :=
  match s with
  | [] => []
  | c :: s' =>
      match skip with
      | S n => replace_from old new n s'
      | O =>
          if startswith s old
          then new ++ replace_from old new (length old - 1) s'
          else c :: replace_from old new 0 s'
      end
  end.

Definition replace (old new s : pystr) : pystr := replace_from old new 0 s.

(** [str.split(sep)] for a separator of one code point: there is one part
    more than there are separators. *)
Fixpoint split (sep : N) (s : pystr) : list pystr :=
  match s with
  | [] => [[]]
  | c :: s' =>
      if (c =? sep)%N then [] :: split sep s'
      else
        match split sep s' with
        | p :: ps => (c :: p) :: ps
        | [] => [[c]]
        end
  end.

(** [sep.join(parts)] on code points. *)
Fixpoint join (sep : N) (parts : list pystr) : pystr :=
  match parts with
  | [] => []
  | p :: ps =>
      match ps with
      | [] => p
      | _ :: _ => p ++ sep :: join sep ps
      end
  end.

Definition comma : N := 44.

(** [AppEnvironment]. *)
Inductive AppEnvironment := LOCAL | PREVIEW | PRODUCTION.

#[global] Instance AppEnvironment_eq_dec : EqDecision AppEnvironment.
Proof. solve_decision. Defined.

(** The fields of [Settings] that its properties read. *)
Record Settings := mkSettings {
  LOG_LEVEL : pystr;
  IS_PULL_REQUEST : bool;
  RENDER : bool;
  S3_ASSET_BUCKET_NAME : pystr;
}.

(** [Settings.VERBOSE]. *)
Definition VERBOSE (self : Settings) : bool :=
  bool_decide (LOG_LEVEL self = lit "DEBUG")
  || IS_PULL_REQUEST self || negb (RENDER self).

(** [Settings.S3_ENDPOINT_URL]. *)
Definition S3_ENDPOINT_URL (self : Settings) : option pystr :=
  if negb (RENDER self) then Some (lit "http://localhost:4566") else None.

(** [Settings.ENVIRONMENT]. *)
Definition ENVIRONMENT (self : Settings) : AppEnvironment :=
  if RENDER self
  then if IS_PULL_REQUEST self then PREVIEW else PRODUCTION
  else LOCAL.

(** [Settings.UVICORN_WORKER_COUNT]. *)
Definition UVICORN_WORKER_COUNT (self : Settings) : Z :=
  if bool_decide (ENVIRONMENT self = LOCAL) then 1 else 3.

(** [Settings.SENTRY_SAMPLE_RATE], in hundredths. *)
Definition SENTRY_SAMPLE_RATE (self : Settings) : Z :=
  if bool_decide (ENVIRONMENT self = PRODUCTION) then 7 else 100.

(** [Settings.CDN_BASE_URL]. *)
Definition CDN_BASE_URL (self : Settings) : pystr :=
  if negb (RENDER self)
  then lit "http://" ++ S3_ASSET_BUCKET_NAME self
       ++ lit ".s3-website.localhost.localstack.cloud:4566"
  else lit "https://" ++ S3_ASSET_BUCKET_NAME self ++ lit ".s3.amazonaws.com".

(** What the validator of [BACKEND_CORS_ORIGINS] is given: a [str], a
    [list] of them, or a value of another type. *)
Inductive CorsValue :=
| CorsStr (v : pystr)
| CorsList (v : list pystr)
| CorsOther.

(** [Settings.assemble_cors_origins]; [None] is the [ValueError]. *)
Definition assemble_cors_origins (v : CorsValue) : option CorsValue :=
  match v with
  | CorsStr s =>
      if negb (startswith s (lit "["))
      then Some (CorsList (map strip (split comma s)))
      else Some v
  | CorsList _ => Some v
  | CorsOther => None
  end.

(** [Settings.assemble_db_url]; [None] is the [ValueError]. *)
Definition assemble_db_url (v : pystr) : option pystr :=
  if negb (truthy v) || negb (startswith v (lit "postgres"))
  then None
  else
    Some (strip
            (replace (lit "postgresql://") (lit "postgresql+asyncpg://")
               (replace (lit "postgres://") (lit "postgresql://") v))).

End Config.

Module Workload.
Import Py Storage Cachetools.

(** The cache holds one link per key at most, and no more links than its
    size allows. *)
Definition cache_ok (links : list Link) : Prop :=
  NoDup (map lk_key links) /\ (length links <= maxsize)%nat.

(** Calls of [get_storage_context] for any locations, each after some
    time has passed. *)
Fixpoint call_many (calls : list (Z * string * VectorStore * FileSystem))
    (w : World) : World :=
  match calls with
  | [] => w
  | (d, persist_dir, vs, fs) :: calls' =>
      call_many calls'
        (snd (get_storage_context persist_dir vs fs (elapse d w)))
  end.

(** Between two worlds nothing happened but index work and writes of
    persisted state: the clock, the assets, the cache, the vector store
    handle and the date are as they were. *)
Definition index_work_only (w w' : World) : Prop :=
  now w' = now w /\ assets w' = assets w /\ cache w' = cache w
  /\ vector_store_singleton w' = vector_store_singleton w
  /\ utcnow w' = utcnow w.

(** Every index of the mapping is the one that the index store holds
    under its key, with the given service context and vector store. *)
Definition indices_stored (sc : ServiceContext) (vs : VectorStore)
    (store : gmap string IndexEntry) (m : list (string * VectorStoreIndex))
  : Prop :=
  forall k index,
    dict_get k m = Some index ->
    store !! k = Some (Entry (index_struct index))
    /\ service_context index = sc /\ index_vector_store index = vs.

(** A node carries the id of its document, as [doc_id] and in its
    metadata. *)
Definition tagged_with (i : string) (node : LlamaDoc) : Prop :=
  doc_id node = i /\ metadata node !! "doc_id" = Some i.

(** Ten locations, and a cache that is full of their storage contexts,
    none of them expired before [E]. *)
Definition ten_locations : list string :=
  ["loc0"; "loc1"; "loc2"; "loc3"; "loc4"; "loc5"; "loc6"; "loc7"; "loc8";
   "loc9"].

Definition full_cache (E : Z) : list Link :=
  map (fun p => mkLink (cache_key p "pg" None) (empty_storage_context "pg") E)
    ten_locations.

(** The cache is full, and an eleventh location is persisted. *)
Definition w_full : World :=
  mkWorld 0 (<[(None, "loc10") := Stored (mkPersisted ∅ ∅)]> ∅) ∅
    (full_cache 1000) "pg" [] 0 0 "2024-05-01".

End Workload.

Module Seed.

(** The S3 service as the seed script sees it: the buckets, and the
    objects, each under its path [bucket/key]. *)
Record S3 := mkS3 {
  buckets : gset string;
  objects : gmap string string;
}.

(** [s3.put(str(file_path), s3_path)] for the files of the loop, in
    order: a file is a name and its bytes, and goes to
    [f"{s3_bucket}/{file_path.name}"]. *)
Definition put_all (s3_bucket : string) (files : list (string * string))
    (objs : gmap string string) : gmap string string :=
  fold_left
    (fun o file => <[s3_bucket +:+ "/" +:+ fst file := snd file]> o)
    files objs.

(** [copy_to_s3(dir_path, s3_bucket)]; [pdfs] is what
    [dir_path.glob("*.pdf")] yields.  The bucket is made when it is
    missing, off Render; on Render a missing bucket makes the listing of
    its contents fail, which [None] stands for. *)
Definition copy_to_s3 (RENDER : bool) (pdfs : list (string * string))
    (s3_bucket : string) (s3 : S3) : option S3 :=
  if negb (RENDER || bool_decide (s3_bucket ∈ buckets s3))
  then
    Some (mkS3 ({[s3_bucket]} ∪ buckets s3)
            (put_all s3_bucket pdfs (objects s3)))
  else
    if bool_decide (s3_bucket ∈ buckets s3)
    then Some (mkS3 (buckets s3) (put_all s3_bucket pdfs (objects s3)))
    else None.

End Seed.

(* ===================================================================== *)
(** * 7. Facts about the Python helpers                                   *)
(* ===================================================================== *)

Import Py History Storage Cachetools Engine Retrieval Agent Scenario.

Section Sorted_by_facts.
Context {A : Type} (key : A -> Z).

Local Abbreviation key_le := (fun a b : A => key a <= key b).

Lemma insert_by_perm (x : A) (l : list A) :
  Permutation (insert_by key x l) (x :: l).
Proof.
  induction l as [|y l IH]; simpl; [reflexivity|].
  destruct (key x <=? key y); [reflexivity|].
  rewrite IH. apply perm_swap.
Qed.

Lemma sorted_by_perm (l : list A) : Permutation (sorted_by key l) l.
Proof.
  induction l as [|x l IH]; simpl; [constructor|].
  rewrite insert_by_perm. now constructor.
Qed.

Lemma insert_by_sorted (x : A) (l : list A) :
  StronglySorted key_le l -> StronglySorted key_le (insert_by key x l).
Proof.
  induction 1 as [|y l Hs IH Hall]; simpl.
  - repeat constructor.
  - destruct (Z.leb_spec (key x) (key y)) as [Hle|Hlt].
    + constructor; [now constructor|].
      constructor; [exact Hle|].
      eapply Forall_impl; [exact Hall|].
      intros a Ha; simpl in *; lia.
    + constructor; [exact IH|].
      rewrite (insert_by_perm x l).
      constructor; [lia | exact Hall].
Qed.

Lemma sorted_by_sorted (l : list A) : StronglySorted key_le (sorted_by key l).
Proof.
  induction l as [|x l IH]; simpl; [constructor|].
  now apply insert_by_sorted.
Qed.

(** Stability: the elements with one key keep their order. *)
Lemma insert_by_stable (k : Z) (x : A) (l : list A) :
  filter (fun a => key a = k) (insert_by key x l)
  = filter (fun a => key a = k) (x :: l).
Proof.
  induction l as [|y l IH]; simpl; [reflexivity|].
  destruct (Z.leb_spec (key x) (key y)) as [Hle|Hlt]; [reflexivity|].
  rewrite (filter_cons _ y (insert_by key x l)), IH.
  rewrite !filter_cons.
  destruct (decide (key y = k)), (decide (key x = k)); try reflexivity.
  lia.
Qed.

Lemma sorted_by_stable (k : Z) (l : list A) :
  filter (fun a => key a = k) (sorted_by key l)
  = filter (fun a => key a = k) l.
Proof.
  induction l as [|x l IH]; simpl; [reflexivity|].
  rewrite insert_by_stable, !filter_cons, IH. reflexivity.
Qed.

(** Two sorted lists that agree, key by key, on the elements of that key
    and their order are the same list. *)
Lemma sorted_stable_unique (l1 l2 : list A) :
  StronglySorted key_le l1 -> StronglySorted key_le l2 ->
  (forall k, filter (fun a => key a = k) l1 = filter (fun a => key a = k) l2) ->
  l1 = l2.
Proof.
  intros H1. revert l2.
  induction H1 as [|x l1 Hs1 IH Hall1]; intros l2 H2 Hf.
  - destruct l2 as [|y l2]; [reflexivity|].
    specialize (Hf (key y)). rewrite filter_cons in Hf.
    destruct (decide (key y = key y)); [discriminate | congruence].
  - destruct H2 as [|y l2 Hs2 Hall2].
    + specialize (Hf (key x)). rewrite filter_cons in Hf.
      destruct (decide (key x = key x)); [discriminate | congruence].
    + assert (Hxy : key x = key y).
      { assert (Hx : x ∈ y :: l2).
        { eapply (list_elem_of_filter (fun a => key a = key x)).
          rewrite <- (Hf (key x)), filter_cons.
          destruct (decide (key x = key x)); [left | congruence]. }
        assert (Hy : y ∈ x :: l1).
        { eapply (list_elem_of_filter (fun a => key a = key y)).
          rewrite (Hf (key y)), (filter_cons _ y).
          destruct (decide (key y = key y)); [left | congruence]. }
        rewrite Forall_forall in Hall1, Hall2.
        apply elem_of_cons in Hx as [->|Hx]; [reflexivity|].
        apply elem_of_cons in Hy as [->|Hy]; [reflexivity|].
        specialize (Hall1 y Hy). specialize (Hall2 x Hx). simpl in *. lia. }
      assert (x = y) as <-.
      { specialize (Hf (key x)). rewrite !filter_cons in Hf.
        destruct (decide (key x = key x)); [|congruence].
        destruct (decide (key y = key x)); [|congruence].
        congruence. }
      f_equal. apply IH; [exact Hs2|].
      intros k. specialize (Hf k). rewrite !filter_cons in Hf.
      destruct (decide (key x = k)); congruence.
Qed.

Lemma sorted_by_In (l : list A) (a : A) : In a (sorted_by key l) <-> In a l.
Proof.
  split; apply Permutation_in;
    [apply sorted_by_perm | symmetry; apply sorted_by_perm].
Qed.

(** [sorted_by] is the stable sort: whatever list is sorted by the key and
    keeps, for every key, the elements of that key in their order, is the
    list that [sorted_by] returns. *)
Lemma sorted_by_is_the_stable_sort (l l' : list A) :
  StronglySorted key_le l' ->
  (forall k, filter (fun a => key a = k) l' = filter (fun a => key a = k) l) ->
  l' = sorted_by key l.
Proof.
  intros Hs Hf. apply sorted_stable_unique; [exact Hs | apply sorted_by_sorted|].
  intros k. now rewrite Hf, sorted_by_stable.
Qed.

(** In a sorted list what is taken from the front is below what is left. *)
Lemma sorted_take_below (n : nat) (l : list A) (a b : A) :
  StronglySorted key_le l ->
  In a (take n l) -> In b (drop n l) -> key a <= key b.
Proof.
  intros Hs. revert n.
  induction Hs as [|y l Hs IH Hall]; intros n Ha Hb.
  - destruct n; simpl in Ha; contradiction.
  - destruct n as [|n]; simpl in Ha, Hb; [contradiction|].
    destruct Ha as [<-|Ha].
    + rewrite Forall_forall in Hall. apply Hall.
      apply list_elem_of_In in Hb.
      exact (subseteq_drop n l b Hb).
    + now apply (IH n).
Qed.
End Sorted_by_facts.

Section Strip_facts.

Lemma lstrip_nil_iff (s : pystr) :
  lstrip s = [] <-> Forall (fun c => is_whitespace c = true) s.
Proof.
  induction s as [|c s IH]; simpl.
  - split; [constructor | reflexivity].
  - destruct (is_whitespace c) eqn:Hc.
    + rewrite IH. split; [now constructor | now inversion 1].
    + split; [discriminate|].
      inversion 1; congruence.
Qed.

Lemma lstrip_head (s : pystr) (c : N) (t : pystr) :
  lstrip s = c :: t -> is_whitespace c = false.
Proof.
  induction s as [|d s IH]; simpl; [discriminate|].
  destruct (is_whitespace d) eqn:Hd; [exact IH|].
  intros [= <- <-]. exact Hd.
Qed.

Lemma rstrip_nil_iff (s : pystr) :
  rstrip s = [] <-> Forall (fun c => is_whitespace c = true) s.
Proof.
  unfold rstrip. split.
  - intros H. apply (f_equal (@rev N)) in H.
    rewrite rev_involutive in H. simpl in H.
    apply lstrip_nil_iff, List.Forall_rev in H.
    now rewrite rev_involutive in H.
  - intros H. apply List.Forall_rev, lstrip_nil_iff in H.
    now rewrite H.
Qed.

(** What [strip] leaves is empty exactly when all is white space. *)
Lemma strip_nil_iff (s : pystr) :
  strip s = [] <-> Forall (fun c => is_whitespace c = true) s.
Proof.
  unfold strip. rewrite rstrip_nil_iff.
  destruct (lstrip s) as [|c t] eqn:Hl.
  - split; [intros _; now apply lstrip_nil_iff | constructor].
  - pose proof (lstrip_head _ _ _ Hl) as Hc.
    split.
    + inversion 1; congruence.
    + intros Hall. apply lstrip_nil_iff in Hall. congruence.
Qed.

Lemma whitespace_only_or_not (s : pystr) :
  Forall (fun c => is_whitespace c = true) s
  \/ exists c, In c s /\ is_whitespace c = false.
Proof.
  induction s as [|c s [IH|(d & Hin & Hd)]].
  - left. constructor.
  - destruct (is_whitespace c) eqn:Hc.
    + left. now constructor.
    + right. exists c. split; [now left | exact Hc].
  - right. exists d. split; [now right | exact Hd].
Qed.

Lemma truthy_strip_iff (s : pystr) :
  truthy (strip s) = true <-> exists c, In c s /\ is_whitespace c = false.
Proof.
  split.
  - intros Ht.
    destruct (whitespace_only_or_not s) as [Hall|Hex]; [|exact Hex].
    apply strip_nil_iff in Hall. rewrite Hall in Ht. discriminate.
  - intros (c & Hin & Hc).
    destruct (strip s) eqn:Hs; [|reflexivity].
    apply strip_nil_iff in Hs. rewrite Forall_forall in Hs.
    apply list_elem_of_In in Hin.
    specialize (Hs c Hin). congruence.
Qed.

Lemma keep_iff (m : MessageSchema) :
  keep m = true <->
  status m = SUCCESS /\ exists c, In c (content m) /\ is_whitespace c = false.
Proof.
  unfold keep. rewrite andb_true_iff, truthy_strip_iff, bool_decide_eq_true.
  tauto.
Qed.

End Strip_facts.

(* ===================================================================== *)
(** * 8. The chat history                                                 *)
(* ===================================================================== *)

Lemma history_role_cases (m : MessageSchema) :
  (role m = assistant /\ history_role m = ASSISTANT)
  \/ (role m <> assistant /\ history_role m = USER).
Proof.
  unfold history_role. destruct (decide (role m = assistant)) as [H|H].
  - left. now rewrite bool_decide_eq_true_2.
  - right. now rewrite bool_decide_eq_false_2.
Qed.

Lemma kept_messages_In (chat_messages : list MessageSchema) (m : MessageSchema) :
  In m (sorted_by created_at (filter (fun m => keep m = true) chat_messages))
  <-> In m chat_messages /\ keep m = true.
Proof.
  rewrite sorted_by_In, <- !list_elem_of_In, list_elem_of_filter. tauto.
Qed.

(** C9. The chat history is made of exactly the input messages whose
    status is success and whose content has a character that is not white
    space, each as often as it occurs in the input, in ascending order of
    creation time (messages created at the same time keep their input
    order); nothing else is in it. *)
Theorem get_chat_history_exact (chat_messages : list MessageSchema) :
  exists kept : list MessageSchema,
    get_chat_history chat_messages = map to_chat_message kept
    /\ Permutation kept (filter (fun m => keep m = true) chat_messages)
    /\ StronglySorted (fun a b => created_at a <= created_at b) kept
    /\ (forall t : Z,
          filter (fun m => created_at m = t) kept
          = filter (fun m => created_at m = t)
              (filter (fun m => keep m = true) chat_messages))
    /\ (forall m : MessageSchema,
          In m kept <->
          In m chat_messages /\ status m = SUCCESS
          /\ exists c, In c (content m) /\ is_whitespace c = false).
Proof.
  exists (sorted_by created_at (filter (fun m => keep m = true) chat_messages)).
  split; [reflexivity|].
  split; [apply sorted_by_perm|].
  split; [apply (sorted_by_sorted created_at)|].
  split; [intros t; apply sorted_by_stable|].
  intros m. rewrite kept_messages_In, keep_iff. tauto.
Qed.

(** C10. Every message of the chat history has the role assistant or the
    role user: it comes from a retained input message, and its role is
    assistant exactly when the stored role is assistant, and user for
    every other stored role; every retained message is in the history with
    that role. *)
Theorem get_chat_history_roles (chat_messages : list MessageSchema) :
  Forall (fun cm => chat_role cm = ASSISTANT \/ chat_role cm = USER)
    (get_chat_history chat_messages)
  /\ (forall cm : ChatMessage,
        In cm (get_chat_history chat_messages) ->
        exists m : MessageSchema,
          In m chat_messages /\ keep m = true
          /\ chat_content cm = content m
          /\ (role m = assistant -> chat_role cm = ASSISTANT)
          /\ (role m <> assistant -> chat_role cm = USER))
  /\ (forall m : MessageSchema,
        In m chat_messages -> keep m = true ->
        In (mkChat (content m)
              (match role m with assistant => ASSISTANT | _ => USER end))
           (get_chat_history chat_messages)).
Proof.
  unfold get_chat_history. split; [|split].
  - apply Forall_forall. intros cm Hcm.
    apply list_elem_of_In, in_map_iff in Hcm as (m & <- & _). simpl.
    destruct (history_role_cases m) as [[_ ->]|[_ ->]]; auto.
  - intros cm Hcm.
    apply in_map_iff in Hcm as (m & <- & Hm).
    apply kept_messages_In in Hm as [Hin Hk].
    exists m. simpl. repeat split; try assumption.
    + intros Hr. destruct (history_role_cases m) as [[_ ->]|[Hn _]];
        [reflexivity | contradiction].
    + intros Hr. destruct (history_role_cases m) as [[Ha _]|[_ ->]];
        [contradiction | reflexivity].
  - intros m Hin Hk. apply in_map_iff. exists m. split.
    + unfold to_chat_message. f_equal.
      destruct (history_role_cases m) as [[Ha ->]|[Hn ->]].
      * now rewrite Ha.
      * destruct (role m); try reflexivity. contradiction.
    + apply kept_messages_In. now split.
Qed.

(** A mixed list: a failed message, a blank one, a system message and two
    messages out of order. *)
Example get_chat_history_mixed :
  get_chat_history
    [ mkMessage [104; 105]%N assistant SUCCESS 30;
      mkMessage [111; 104]%N user ERROR 5;
      mkMessage [32; 9; 160]%N user SUCCESS 6;
      mkMessage [115]%N (other_role "system") SUCCESS 20;
      mkMessage [32; 113]%N user SUCCESS 10 ]
  = [ mkChat [32; 113]%N USER;
      mkChat [115]%N USER;
      mkChat [104; 105]%N ASSISTANT ].
Proof. reflexivity. Qed.

(* ===================================================================== *)
(** * 9. The cache of storage contexts                                    *)
(* ===================================================================== *)

Lemma ttl_pos : 0 < ttl.
Proof. reflexivity. Qed.

Lemma find_link_some (k : string) (links : list Link) (l : Link) :
  find_link k links = Some l -> lk_key l = k /\ In l links.
Proof.
  unfold find_link. intros H. apply find_some in H as [Hin Hk].
  unfold has_key in Hk. apply bool_decide_eq_true in Hk. now split.
Qed.

Lemma find_link_remove_key (k : string) (links : list Link) :
  find_link k (remove_key k links) = None.
Proof.
  unfold find_link, remove_key.
  induction links as [|l links IH]; simpl; [reflexivity|].
  destruct (has_key k l) eqn:Hk; simpl; [exact IH|].
  now rewrite Hk.
Qed.

Lemma find_link_app (k : string) (links links' : list Link) :
  find_link k (links ++ links')
  = match find_link k links with
    | Some l => Some l
    | None => find_link k links'
    end.
Proof.
  unfold find_link. induction links as [|l links IH]; simpl; [reflexivity|].
  now destruct (has_key k l).
Qed.

(** After a look-up or a store the link of the key is the last one. *)
Lemma find_link_moved (k : string) (links : list Link) (l : Link) :
  lk_key l = k -> find_link k (remove_key k links ++ [l]) = Some l.
Proof.
  intros Hk. rewrite find_link_app, find_link_remove_key.
  unfold find_link, has_key. simpl. now rewrite bool_decide_eq_true_2.
Qed.

Lemma find_link_setitem (time : Z) (k : string) (v : StorageContext)
    (links : list Link) :
  find_link k (setitem time k v links) = Some (mkLink k v (time + ttl)).
Proof. unfold setitem. now apply find_link_moved. Qed.

Lemma getitem_hit (time : Z) (k : string) (links : list Link) (l : Link) :
  find_link k links = Some l -> time < lk_expires l ->
  getitem time k links = (Some (lk_value l), remove_key k links ++ [l]).
Proof.
  intros Hf Ht. unfold getitem, live. rewrite Hf.
  now rewrite (proj2 (Z.ltb_lt _ _) Ht).
Qed.

Lemma getitem_expired (time : Z) (k : string) (links : list Link) (l : Link) :
  find_link k links = Some l -> lk_expires l <= time ->
  getitem time k links = (None, remove_key k links ++ [l]).
Proof.
  intros Hf Ht. unfold getitem, live. rewrite Hf.
  now rewrite (proj2 (Z.ltb_ge _ _) Ht).
Qed.

(** Loading a storage context reads the blob store and changes nothing. *)
Lemma from_defaults_pure (persist_dir : option string) (vs : VectorStore)
    (fs : FileSystem) (w : World) :
  snd (from_defaults persist_dir vs fs w) = w.
Proof.
  unfold from_defaults. destruct persist_dir as [dir|]; [|reflexivity].
  unfold bind, gets. destruct (blobs w !! (fs, dir)) as [[p|e]|]; reflexivity.
Qed.

(** The outcome of loading depends on the blob at the location only. *)
Lemma from_defaults_blob (dir : string) (vs : VectorStore) (fs : FileSystem)
    (w : World) :
  fst (from_defaults (Some dir) vs fs w)
  = match blobs w !! (fs, dir) with
    | None => Raise FileNotFoundError
    | Some (Unreadable e) => Raise e
    | Some (Stored p) =>
        Ok (mkStorageContext (p_docstore p) (p_index_store p) vs)
    end.
Proof.
  unfold from_defaults, bind, gets.
  destruct (blobs w !! (fs, dir)) as [[p|e]|]; reflexivity.
Qed.

(** A call that finds a live link returns its value and loads nothing. *)
Lemma get_storage_context_hit (persist_dir : string) (vs : VectorStore)
    (fs : FileSystem) (w : World) (l : Link) :
  find_link (cache_key persist_dir vs fs) (cache w) = Some l ->
  now w < lk_expires l ->
  get_storage_context persist_dir vs fs w
  = (Ok (lk_value l),
     set_cache
       (fun _ => remove_key (cache_key persist_dir vs fs) (cache w) ++ [l]) w).
Proof.
  intros Hf Ht. unfold get_storage_context, cached.
  now rewrite (getitem_hit _ _ _ _ Hf Ht).
Qed.

(** A call that finds no live link loads from the location, and stores
    what it loaded, if anything. *)
Lemma get_storage_context_miss (persist_dir : string) (vs : VectorStore)
    (fs : FileSystem) (w : World) :
  fst (getitem (now w) (cache_key persist_dir vs fs) (cache w)) = None ->
  let k := cache_key persist_dir vs fs in
  let w' := set_cache (fun _ => snd (getitem (now w) k (cache w))) w in
  get_storage_context persist_dir vs fs w
  = match fst (from_defaults (Some persist_dir) vs fs w) with
    | Ok v => (Ok v, set_cache (setitem (now w) k v) w')
    | Raise e => (Raise e, w')
    end.
Proof.
  intros Hmiss. cbv zeta. unfold get_storage_context, cached.
  destruct (getitem (now w) (cache_key persist_dir vs fs) (cache w))
    as [o links] eqn:Hg.
  simpl in Hmiss. subst o. cbn [snd].
  set (w' := set_cache (fun _ => links) w).
  pose proof (from_defaults_pure (Some persist_dir) vs fs w') as Hp.
  assert (Hb : fst (from_defaults (Some persist_dir) vs fs w')
               = fst (from_defaults (Some persist_dir) vs fs w))
    by (rewrite !from_defaults_blob; reflexivity).
  destruct (from_defaults (Some persist_dir) vs fs w') as [r w''].
  cbn [fst snd] in Hp, Hb. subst w''. rewrite <- Hb.
  destruct r; reflexivity.
Qed.

Lemma cache_key_location (p p' : string) (vs vs' : VectorStore)
    (fs fs' : FileSystem) :
  cache_key p vs fs = cache_key p' vs' fs' <-> p = p'.
Proof.
  unfold cache_key. split; [|now intros ->].
  simpl. intros H. now injection H.
Qed.

(** A call in the lifetime of an entry returns the entry, whatever vector
    store and file system it is given; the entry stays as it is. *)
Lemma read_in_lifetime (persist_dir : string) (vs0 vs : VectorStore)
    (fs0 fs : FileSystem) (ctx : StorageContext) (E d : Z) (w : World) :
  cached_entry (cache_key persist_dir vs0 fs0) ctx E w ->
  now w + d < E ->
  exists w' : World,
    get_storage_context persist_dir vs fs (elapse d w) = (Ok ctx, w')
    /\ cached_entry (cache_key persist_dir vs0 fs0) ctx E w'
    /\ now w' = now w + d
    /\ blobs w' = blobs w
    /\ chunk_calls w' = chunk_calls w
    /\ embed_calls w' = embed_calls w.
Proof.
  intros (l & Hf & Hv & He) Ht. subst ctx E.
  eexists. split.
  - apply get_storage_context_hit; [exact Hf | exact Ht].
  - repeat split; try reflexivity.
    exists l. repeat split; try reflexivity.
    apply find_link_moved. now apply find_link_some in Hf.
Qed.

(** A call after the entry has expired does not return it: the location
    is loaded again. *)
Lemma read_after_expiry (persist_dir : string) (vs0 vs : VectorStore)
    (fs0 fs : FileSystem) (ctx : StorageContext) (E d : Z) (w : World) :
  cached_entry (cache_key persist_dir vs0 fs0) ctx E w ->
  E <= now w + d ->
  fst (getitem (now (elapse d w)) (cache_key persist_dir vs fs)
         (cache (elapse d w))) = None
  /\ fst (get_storage_context persist_dir vs fs (elapse d w))
     = fst (from_defaults (Some persist_dir) vs fs (elapse d w)).
Proof.
  intros (l & Hf & Hv & He) Ht. subst ctx E.
  assert (Hmiss : fst (getitem (now (elapse d w))
                         (cache_key persist_dir vs fs) (cache (elapse d w)))
                  = None).
  { erewrite getitem_expired; [reflexivity | exact Hf | exact Ht]. }
  split; [exact Hmiss|].
  rewrite (get_storage_context_miss _ _ _ _ Hmiss).
  destruct (fst (from_defaults (Some persist_dir) vs fs (elapse d w)));
    reflexivity.
Qed.

Lemma read_many_in_lifetime (persist_dir : string) (vs0 : VectorStore)
    (fs0 : FileSystem) (ctx : StorageContext) (E : Z)
    (reads : list (Z * VectorStore * FileSystem)) (w : World) :
  cached_entry (cache_key persist_dir vs0 fs0) ctx E w ->
  Forall (fun r => 0 <= fst (fst r)) reads ->
  now w + total_delay reads < E ->
  Forall (fun r => r = Ok ctx) (fst (read_many persist_dir reads w))
  /\ cached_entry (cache_key persist_dir vs0 fs0) ctx E
       (snd (read_many persist_dir reads w))
  /\ now (snd (read_many persist_dir reads w)) = now w + total_delay reads
  /\ blobs (snd (read_many persist_dir reads w)) = blobs w.
Proof.
  revert w. induction reads as [|[[d vs] fs] reads IH]; intros w Hinv Hd Ht.
  - simpl. repeat split; [constructor | exact Hinv | lia].
  - apply Forall_cons in Hd as [Hd0 Hd]. simpl in Hd0.
    unfold total_delay in Ht. simpl in Ht. fold (total_delay reads) in Ht.
    assert (Hnn : 0 <= total_delay reads).
    { clear -Hd. induction Hd as [|r rs Hr _ IHr]; simpl; [lia|].
      unfold total_delay in *. simpl. lia. }
    destruct (read_in_lifetime persist_dir vs0 vs fs0 fs ctx E d w Hinv)
      as (w1 & Hget & Hinv1 & Hnow1 & Hblobs1 & _); [lia|].
    simpl. rewrite Hget.
    specialize (IH w1 Hinv1 Hd).
    destruct (read_many persist_dir reads w1) as [rs w2]. simpl in *.
    destruct IH as (Hall & Hinv2 & Hnow2 & Hblobs2); [lia|].
    repeat split.
    + now constructor.
    + exact Hinv2.
    + unfold total_delay. simpl. fold (total_delay reads). lia.
    + congruence.
Qed.

(** A call that returns a storage context leaves it in the cache, live;
    if the call created the entry, it expires [ttl] later and holds the
    vector store of the call. *)
Lemma storage_context_cache_lifetime
    (persist_dir : string) (vs1 : VectorStore) (fs1 : FileSystem)
    (w w1 : World) (ctx : StorageContext) :
  get_storage_context persist_dir vs1 fs1 w = (Ok ctx, w1) ->
  exists E : Z,
    now w1 < E
    /\ cached_entry (cache_key persist_dir vs1 fs1) ctx E w1
    /\ (fst (getitem (now w) (cache_key persist_dir vs1 fs1) (cache w))
        = None ->
        E = now w1 + ttl /\ vector_store ctx = vs1).
Proof.
  intros Hget.
  destruct (fst (getitem (now w) (cache_key persist_dir vs1 fs1) (cache w)))
    as [v|] eqn:Hg.
  - (* a hit *)
    unfold getitem in Hg.
    destruct (find_link (cache_key persist_dir vs1 fs1) (cache w))
      as [l|] eqn:Hf; [|discriminate].
    simpl in Hg. destruct (live (now w) l) eqn:Hl; [|discriminate].
    apply Z.ltb_lt in Hl.
    rewrite (get_storage_context_hit _ _ _ _ _ Hf Hl) in Hget.
    injection Hget as <- <-.
    exists (lk_expires l). split; [exact Hl|]. split; [|discriminate].
    exists l. repeat split.
    apply find_link_moved. now apply find_link_some in Hf.
  - (* a miss *)
    rewrite (get_storage_context_miss _ _ _ _ Hg) in Hget.
    pose proof (from_defaults_blob persist_dir vs1 fs1 w) as Hb.
    destruct (fst (from_defaults (Some persist_dir) vs1 fs1 w))
      as [v|e]; [|discriminate].
    injection Hget as <- <-.
    exists (now w + ttl). split; [simpl; pose proof ttl_pos; lia|].
    split.
    + eexists. split; [apply find_link_setitem|]. split; reflexivity.
    + intros _. split; [reflexivity|].
      destruct (blobs w !! (fs1, persist_dir)) as [[p|e]|];
        try discriminate.
      injection Hb as ->. reflexivity.
Qed.

(** C6. The key of the cache is made from the location alone.  When a call
    of [get_storage_context] for a location returns a storage context, the
    cache holds it under that key, and every call for the same location in
    the lifetime of that entry, with whatever vector store and file
    system, returns this same storage context without loading anything;
    when the first call created the entry, the entry lives for [ttl] and
    carries the vector store of the first call. *)
Theorem storage_context_cache_key_is_location
    (persist_dir : string) (vs1 vs2 : VectorStore) (fs1 fs2 : FileSystem)
    (w w1 : World) (ctx : StorageContext) :
  get_storage_context persist_dir vs1 fs1 w = (Ok ctx, w1) ->
  cache_key persist_dir vs1 fs1 = cache_key persist_dir vs2 fs2
  /\ exists E : Z,
       now w1 < E
       /\ cached_entry (cache_key persist_dir vs1 fs1) ctx E w1
       /\ (fst (getitem (now w) (cache_key persist_dir vs1 fs1) (cache w))
           = None ->
           E = now w1 + ttl /\ vector_store ctx = vs1)
       /\ forall d : Z, 0 <= d -> now w1 + d < E ->
            exists w2 : World,
              get_storage_context persist_dir vs2 fs2 (elapse d w1)
              = (Ok ctx, w2)
              /\ blobs w2 = blobs w1
              /\ cached_entry (cache_key persist_dir vs1 fs1) ctx E w2.
Proof.
  intros Hget. split; [reflexivity|].
  destruct (storage_context_cache_lifetime _ _ _ _ _ _ Hget)
    as (E & HE & Hinv & Hmiss).
  exists E. repeat split; try assumption; try (now apply Hmiss).
  intros d Hd Ht.
  destruct (read_in_lifetime persist_dir vs1 vs2 fs1 fs2 ctx E d w1 Hinv Ht)
    as (w2 & Hget2 & Hinv2 & _ & Hblobs & _).
  exists w2. now repeat split.
Qed.

(** C7. An entry that a call of [get_storage_context] creates expires
    [ttl], five minutes, after its creation.  However often the location
    is read in the meantime, every read before that time returns the
    entry and leaves its expiry time as it was, and a read at that time or
    later does not find it: the location is loaded again. *)
Theorem storage_context_entry_expires_after_ttl
    (persist_dir : string) (vs : VectorStore) (fs : FileSystem)
    (w w1 : World) (ctx : StorageContext)
    (reads : list (Z * VectorStore * FileSystem)) (d : Z) :
  fst (getitem (now w) (cache_key persist_dir vs fs) (cache w)) = None ->
  get_storage_context persist_dir vs fs w = (Ok ctx, w1) ->
  Forall (fun r => 0 <= fst (fst r)) reads ->
  0 <= d ->
  total_delay reads < ttl ->
  let k := cache_key persist_dir vs fs in
  let w2 := snd (read_many persist_dir reads w1) in
  ttl = 5 * 60 * 1000000000
  /\ cached_entry k ctx (now w1 + ttl) w1
  /\ Forall (fun r => r = Ok ctx) (fst (read_many persist_dir reads w1))
  /\ cached_entry k ctx (now w1 + ttl) w2
  /\ now w2 = now w1 + total_delay reads
  /\ forall (vs' : VectorStore) (fs' : FileSystem),
       (total_delay reads + d < ttl ->
        fst (get_storage_context persist_dir vs' fs' (elapse d w2)) = Ok ctx)
       /\ (ttl <= total_delay reads + d ->
           fst (getitem (now (elapse d w2)) (cache_key persist_dir vs' fs')
                  (cache (elapse d w2))) = None
           /\ fst (get_storage_context persist_dir vs' fs' (elapse d w2))
              = fst (from_defaults (Some persist_dir) vs' fs' (elapse d w2))).
Proof.
  intros Hmiss Hget Hreads Hd Htotal k w2.
  destruct (storage_context_cache_lifetime persist_dir vs fs w w1 ctx Hget)
    as (E & HE & Hinv & Hcreated).
  destruct (Hcreated Hmiss) as [-> _].
  destruct (read_many_in_lifetime persist_dir vs fs ctx (now w1 + ttl)
              reads w1 Hinv Hreads ltac:(lia))
    as (Hall & Hinv2 & Hnow2 & _).
  split; [reflexivity|]. split; [exact Hinv|]. split; [exact Hall|].
  split; [exact Hinv2|]. split; [exact Hnow2|].
  intros vs' fs'. split.
  - intros Hlt.
    destruct (read_in_lifetime persist_dir vs vs' fs fs' ctx _ d w2 Hinv2)
      as (w3 & Hget3 & _); [fold w2 in Hnow2; lia|].
    now rewrite Hget3.
  - intros Hge.
    apply (read_after_expiry persist_dir vs vs' fs fs' ctx (now w1 + ttl)).
    + exact Hinv2.
    + fold w2 in Hnow2. lia.
Qed.

(** The first call loads the persisted (empty) context with the store
    ["pg"]; a second call one second later, with another store and the
    local file system, gets the same context. *)
Lemma storage_context_cache_key_is_location_witness :
  get_storage_context Demo.bucket "pg" Demo.s3 Demo.w_empty
  = (Ok (empty_storage_context "pg"),
     snd (get_storage_context Demo.bucket "pg" Demo.s3 Demo.w_empty))
  /\ exists w2 : World,
       get_storage_context Demo.bucket "other" None
         (elapse 1000000000
            (snd (get_storage_context Demo.bucket "pg" Demo.s3 Demo.w_empty)))
       = (Ok (empty_storage_context "pg"), w2).
Proof.
  assert (Hfirst :
    get_storage_context Demo.bucket "pg" Demo.s3 Demo.w_empty
    = (Ok (empty_storage_context "pg"),
       snd (get_storage_context Demo.bucket "pg" Demo.s3 Demo.w_empty)))
    by (vm_compute; reflexivity).
  split; [exact Hfirst|].
  destruct (storage_context_cache_key_is_location Demo.bucket "pg" "other"
              Demo.s3 None Demo.w_empty _ _ Hfirst)
    as (_ & E & _ & _ & Hcreated & Hsecond).
  destruct (Hcreated ltac:(vm_compute; reflexivity)) as [-> _].
  destruct (Hsecond 1000000000 ltac:(lia) ltac:(vm_compute; reflexivity))
    as (w2 & Hget & _).
  exists w2. exact Hget.
Defined.

(** An entry is created at time 0 and read twice, after one and after
    two more minutes; a read two minutes after that is a miss. *)
Lemma storage_context_entry_expires_after_ttl_witness :
  fst (getitem (now Demo.w_empty) (cache_key Demo.bucket "pg" Demo.s3)
         (cache Demo.w_empty)) = None
  /\ Forall (fun r => r = Ok (empty_storage_context "pg"))
       (fst (read_many Demo.bucket
               [(60000000000, "pg", Demo.s3); (120000000000, "pg2", None)]
               (snd (get_storage_context Demo.bucket "pg" Demo.s3
                       Demo.w_empty))))
  /\ fst (getitem (0 + 180000000000 + 120000000000)
            (cache_key Demo.bucket "pg" Demo.s3)
            (cache (snd (read_many Demo.bucket
               [(60000000000, "pg", Demo.s3); (120000000000, "pg2", None)]
               (snd (get_storage_context Demo.bucket "pg" Demo.s3
                       Demo.w_empty)))))) = None.
Proof.
  assert (Hmiss :
    fst (getitem (now Demo.w_empty) (cache_key Demo.bucket "pg" Demo.s3)
           (cache Demo.w_empty)) = None) by reflexivity.
  assert (Hfirst :
    get_storage_context Demo.bucket "pg" Demo.s3 Demo.w_empty
    = (Ok (empty_storage_context "pg"),
       snd (get_storage_context Demo.bucket "pg" Demo.s3 Demo.w_empty)))
    by (vm_compute; reflexivity).
  assert (Hreads :
    Forall (fun r : Z * VectorStore * FileSystem => 0 <= fst (fst r))
      [(60000000000, "pg", Demo.s3); (120000000000, "pg2", None)])
    by (repeat constructor; simpl; lia).
  destruct (storage_context_entry_expires_after_ttl Demo.bucket "pg" Demo.s3
              Demo.w_empty _ _ _ 120000000000 Hmiss Hfirst Hreads
              ltac:(lia) ltac:(vm_compute; reflexivity))
    as (_ & _ & Hall & _ & Hnow & Hlater).
  split; [exact Hmiss|]. split; [exact Hall|].
  destruct (Hlater "pg" Demo.s3) as [_ Hexpired].
  destruct (Hexpired ltac:(vm_compute; discriminate)) as [Hgone _].
  exact Hgone.
Defined.

(* ===================================================================== *)
(** * 10. Building or loading the indices                                 *)
(* ===================================================================== *)

Section Dict_facts.
Context {V : Type}.

Lemma dict_get_set (k k' : string) (v : V) (d : list (string * V)) :
  dict_get k (dict_set k' v d)
  = if bool_decide (k = k') then Some v else dict_get k d.
Proof.
  induction d as [|[k0 v0] d IH]; simpl.
  - reflexivity.
  - destruct (decide (k' = k0)) as [->|Hne'].
    + rewrite (bool_decide_eq_true_2 (k0 = k0)) by reflexivity. simpl.
      destruct (bool_decide (k = k0)); reflexivity.
    + rewrite (bool_decide_eq_false_2 (k' = k0)) by assumption. simpl.
      rewrite IH.
      destruct (decide (k = k0)) as [->|Hne].
      * rewrite (bool_decide_eq_true_2 (k0 = k0)) by reflexivity.
        rewrite (bool_decide_eq_false_2 (k0 = k')) by congruence.
        reflexivity.
      * rewrite (bool_decide_eq_false_2 (k = k0)) by assumption.
        reflexivity.
Qed.

(** What [dict(pairs)] holds under a key is the value of one of the
    pairs with that key, and every key of the pairs is held. *)
Lemma dict_of_get (pairs d0 : list (string * V)) (k : string) :
  match dict_get k
          (fold_left (fun d kv => dict_set (fst kv) (snd kv) d) pairs d0)
  with
  | Some v => In (k, v) pairs \/ dict_get k d0 = Some v
  | None => ~ In k (map fst pairs) /\ dict_get k d0 = None
  end.
Proof.
  revert d0. induction pairs as [|[k1 v1] pairs IH]; intros d0; simpl.
  - destruct (dict_get k d0); [now right | split; [tauto | reflexivity]].
  - specialize (IH (dict_set k1 v1 d0)).
    destruct (dict_get k (fold_left _ pairs (dict_set k1 v1 d0))) as [v|].
    + destruct IH as [Hin|Hget]; [left; now right|].
      rewrite dict_get_set in Hget.
      destruct (decide (k = k1)) as [->|Hne].
      * rewrite bool_decide_eq_true_2 in Hget by reflexivity.
        injection Hget as ->. left. now left.
      * rewrite bool_decide_eq_false_2 in Hget by assumption. now right.
    + destruct IH as [Hnin Hget].
      rewrite dict_get_set in Hget.
      destruct (decide (k = k1)) as [->|Hne].
      * rewrite bool_decide_eq_true_2 in Hget by reflexivity. discriminate.
      * rewrite bool_decide_eq_false_2 in Hget by assumption.
        split; [|exact Hget]. intros [Heq|Hin]; [congruence | tauto].
Qed.

Lemma zip_fst (ks : list string) (vs : list V) :
  length ks = length vs -> map fst (zip ks vs) = ks.
Proof.
  revert vs. induction ks as [|k ks IH]; intros [|v vs] Hl;
    simpl in *; try discriminate; [reflexivity|].
  f_equal. apply IH. congruence.
Qed.

Lemma zip_In (ks : list string) (vs : list V) (k : string) (v : V)
    (R : string -> V -> Prop) :
  Forall2 R ks vs -> In (k, v) (zip ks vs) -> R k v.
Proof.
  induction 1 as [|k0 v0 ks vs HR _ IH]; simpl; [tauto|].
  intros [[= <- <-]|Hin]; [exact HR | now apply IH].
Qed.
End Dict_facts.

(** Every id has a structure in the index store of the context. *)
Lemma get_index_structs_all (ctx : StorageContext) (ids : list string) :
  (forall i, In i ids -> exists s, index_store ctx !! i = Some (Entry s)) ->
  exists ss : list IndexStruct,
    get_index_structs ctx ids = Ok ss
    /\ Forall2 (fun i s => index_store ctx !! i = Some (Entry s)) ids ss.
Proof.
  induction ids as [|i ids IH]; intros Hall; simpl.
  - exists []. split; [reflexivity | constructor].
  - destruct (Hall i (or_introl eq_refl)) as [s Hs]. rewrite Hs.
    destruct IH as (ss & -> & Hf).
    { intros j Hj. apply Hall. now right. }
    exists (s :: ss). split; [reflexivity | now constructor].
Qed.

(** The first id that has no good entry decides the failure. *)
Lemma get_index_structs_fails (ctx : StorageContext)
    (pre post : list string) (i : string) :
  (forall j, In j pre -> exists s, index_store ctx !! j = Some (Entry s)) ->
  get_index_structs ctx (pre ++ i :: post)
  = match index_store ctx !! i with
    | None => Raise (IndexNotFound i)
    | Some Garbled => Raise JSONDecodeError
    | Some (Entry s) =>
        match get_index_structs ctx (pre ++ i :: post) with
        | Ok ss => Ok ss
        | Raise e => Raise e
        end
    end.
Proof.
  induction pre as [|j pre IH]; intros Hall; simpl.
  - destruct (index_store ctx !! i) as [[s|]|]; try reflexivity.
    destruct (get_index_structs ctx post); reflexivity.
  - destruct (Hall j (or_introl eq_refl)) as [s Hs]. rewrite Hs.
    rewrite IH by (intros j' Hj'; apply Hall; now right).
    destruct (index_store ctx !! i) as [[s'|]|]; try reflexivity.
    destruct (get_index_structs ctx (pre ++ i :: post)); reflexivity.
Qed.

(** The failures of the bulk load are [ValueError]s. *)
Lemma get_index_structs_raises (ctx : StorageContext) (ids : list string)
    (e : PyExc) :
  get_index_structs ctx ids = Raise e ->
  (exists i, In i ids /\ e = IndexNotFound i /\ index_store ctx !! i = None)
  \/ (exists i, In i ids /\ e = JSONDecodeError
                /\ index_store ctx !! i = Some Garbled).
Proof.
  induction ids as [|i ids IH]; simpl; [discriminate|].
  destruct (index_store ctx !! i) as [[s|]|] eqn:Hi.
  - destruct (get_index_structs ctx ids) as [ss|e'] eqn:Hg; [discriminate|].
    intros [= ->].
    destruct (IH eq_refl) as [(j & Hj & He & Hn)|(j & Hj & He & Hn)];
      [left | right]; exists j; (split; [now right | now split]).
  - intros [= <-]. right. exists i. split; [now left | now split].
  - intros [= <-]. left. exists i. split; [now left | now split].
Qed.

(** [get_storage_context] changes nothing but the cache. *)
Lemma get_storage_context_world (persist_dir : string) (vs : VectorStore)
    (fs : FileSystem) (w : World) :
  exists links : list Link,
    snd (get_storage_context persist_dir vs fs w) = set_cache (fun _ => links) w.
Proof.
  unfold get_storage_context, cached.
  destruct (getitem (now w) (cache_key persist_dir vs fs) (cache w))
    as [[v|] links].
  - now exists links.
  - pose proof (from_defaults_pure (Some persist_dir) vs fs
                  (set_cache (fun _ => links) w)) as Hp.
    destruct (from_defaults (Some persist_dir) vs fs
                (set_cache (fun _ => links) w)) as [[v|e] w'];
      cbn [snd] in *; subst w'.
    + now exists (setitem (now w) (cache_key persist_dir vs fs) v links).
    + now exists links.
Qed.

Lemma get_storage_context_no_index_work (persist_dir : string)
    (vs : VectorStore) (fs : FileSystem) (w : World) :
  no_index_work w (snd (get_storage_context persist_dir vs fs w))
  /\ blobs (snd (get_storage_context persist_dir vs fs w)) = blobs w.
Proof.
  destruct (get_storage_context_world persist_dir vs fs w) as [links ->].
  now repeat split.
Qed.

(** The three ways the first half of the [try] can go. *)
Lemma obtain_storage_context_cases (persist_dir : string) (vs : VectorStore)
    (fs : FileSystem) (w : World) :
  obtain_storage_context persist_dir vs fs w
  = match get_storage_context persist_dir vs fs w with
    | (Ok ctx, w1) => (Ok ctx, w1)
    | (Raise FileNotFoundError, w1) =>
        (Ok (empty_storage_context vs),
         set_blobs <[(fs, persist_dir) := Stored (mkPersisted ∅ ∅)]> w1)
    | (Raise e, w1) => (Raise e, w1)
    end.
Proof.
  unfold obtain_storage_context, try_except.
  destruct (get_storage_context persist_dir vs fs w) as [[ctx|e] w1];
    [reflexivity|].
  destruct e; reflexivity.
Qed.

Lemma obtain_storage_context_no_index_work (persist_dir : string)
    (vs : VectorStore) (fs : FileSystem) (w : World) :
  no_index_work w (snd (obtain_storage_context persist_dir vs fs w)).
Proof.
  rewrite obtain_storage_context_cases.
  destruct (get_storage_context_world persist_dir vs fs w) as [links Hw].
  destruct (get_storage_context persist_dir vs fs w) as [[ctx|e] w1];
    cbn [snd] in *; subst w1; [now repeat split|].
  destruct e; now repeat split.
Qed.

(** The first half of the [try] never lets a [FileNotFoundError] out. *)
Lemma obtain_storage_context_handles_not_found (persist_dir : string)
    (vs : VectorStore) (fs : FileSystem) (w : World) :
  fst (obtain_storage_context persist_dir vs fs w) <> Raise FileNotFoundError.
Proof.
  rewrite obtain_storage_context_cases.
  destruct (get_storage_context persist_dir vs fs w) as [[ctx|e] w1];
    [discriminate|].
  destruct e; discriminate.
Qed.

Section Build_facts.

Variable S3_BUCKET_NAME : string.
Variable S3_ASSET_BUCKET_NAME : string.
Variable DB_DOC_ID_KEY : string.
Variable CLINICAL_GUIDELINE : string.
Variable process_document :
  string -> list (string * MetaArg) -> Res (list Chunk).

Local Abbreviation build :=
  (build_doc_id_to_index_map S3_BUCKET_NAME S3_ASSET_BUCKET_NAME
     DB_DOC_ID_KEY CLINICAL_GUIDELINE process_document).
Local Abbreviation rebuild :=
  (rebuild_indices S3_ASSET_BUCKET_NAME DB_DOC_ID_KEY CLINICAL_GUIDELINE
     process_document).

(** The build is its [try] body, with the rebuild as the handler of
    [ValueError]. *)
Lemma build_unfold (sc : ServiceContext) (docs : list DocumentSchema)
    (fs : FileSystem) (w : World) :
  build sc docs fs w
  = match load_phase sc docs fs S3_BUCKET_NAME (vector_store_singleton w) w
    with
    | (Ok m, w1) => (Ok m, w1)
    | (Raise e, w1) =>
        if is_ValueError e
        then rebuild sc S3_BUCKET_NAME (vector_store_singleton w) fs docs w1
        else (Raise e, w1)
    end.
Proof. reflexivity. Qed.

Lemma load_phase_unfold (sc : ServiceContext) (docs : list DocumentSchema)
    (fs : FileSystem) (dir : string) (vs : VectorStore) (w : World) :
  load_phase sc docs fs dir vs w
  = match obtain_storage_context dir vs fs w with
    | (Ok ctx, w1) =>
        match load_indices_from_storage ctx (map id_ docs) sc with
        | Ok indices => (Ok (dict_of (zip (map id_ docs) indices)), w1)
        | Raise e => (Raise e, w1)
        end
    | (Raise e, w1) => (Raise e, w1)
    end.
Proof.
  unfold load_phase, bind, load_existing_indices, lift, ret.
  destruct (obtain_storage_context dir vs fs w) as [[ctx|e] w1];
    [|reflexivity].
  destruct (load_indices_from_storage ctx (map id_ docs) sc); reflexivity.
Qed.

Lemma load_phase_no_index_work (sc : ServiceContext)
    (docs : list DocumentSchema) (fs : FileSystem) (dir : string)
    (vs : VectorStore) (w : World) :
  no_index_work w (snd (load_phase sc docs fs dir vs w)).
Proof.
  rewrite load_phase_unfold.
  pose proof (obtain_storage_context_no_index_work dir vs fs w) as H.
  destruct (obtain_storage_context dir vs fs w) as [[ctx|e] w1];
    [|exact H].
  destruct (load_indices_from_storage ctx (map id_ docs) sc); exact H.
Qed.

(** C8. When [get_storage_context] finds no live cache entry and nothing
    is persisted at the location, the attempt to load raises
    [FileNotFoundError]; a new, empty storage context is then made and
    persisted at the location at once: it is what the location holds
    when the loading and the building of the indices start, no chunking
    or embedding has happened by then, and a load of the location now
    succeeds. *)
Theorem missing_storage_context_is_created (sc : ServiceContext)
    (docs : list DocumentSchema) (fs : FileSystem) (w : World) :
  let vs := vector_store_singleton w in
  let k := cache_key S3_BUCKET_NAME vs fs in
  fst (getitem (now w) k (cache w)) = None ->
  blobs w !! (fs, S3_BUCKET_NAME) = None ->
  let w0 := set_cache (fun _ => snd (getitem (now w) k (cache w))) w in
  let w' :=
    set_blobs <[(fs, S3_BUCKET_NAME) := Stored (mkPersisted ∅ ∅)]> w0 in
  get_storage_context S3_BUCKET_NAME vs fs w = (Raise FileNotFoundError, w0)
  /\ obtain_storage_context S3_BUCKET_NAME vs fs w
     = (Ok (empty_storage_context vs), w')
  /\ blobs w' !! (fs, S3_BUCKET_NAME) = Some (Stored (mkPersisted ∅ ∅))
  /\ no_index_work w w'
  /\ build sc docs fs w
     = try_except
         (load_existing_indices sc docs (empty_storage_context vs))
         is_ValueError
         (rebuild sc S3_BUCKET_NAME vs fs docs) w'
  /\ from_defaults (Some S3_BUCKET_NAME) vs fs w'
     = (Ok (empty_storage_context vs), w').
Proof.
  intros vs k Hmiss Hblob w0 w'.
  assert (Hget : get_storage_context S3_BUCKET_NAME vs fs w
                 = (Raise FileNotFoundError, w0)).
  { rewrite (get_storage_context_miss _ _ _ _ Hmiss).
    rewrite from_defaults_blob, Hblob. reflexivity. }
  assert (Hobt : obtain_storage_context S3_BUCKET_NAME vs fs w
                 = (Ok (empty_storage_context vs), w')).
  { rewrite obtain_storage_context_cases, Hget. reflexivity. }
  split; [exact Hget|]. split; [exact Hobt|].
  split; [apply lookup_insert_eq|].
  split; [now repeat split|].
  split.
  - unfold build_doc_id_to_index_map, bind, gets, try_except, load_phase.
    fold vs. unfold bind. rewrite Hobt. reflexivity.
  - unfold from_defaults, bind, gets.
    cbn [blobs w' set_blobs]. rewrite lookup_insert_eq. reflexivity.
Qed.

(** When the storage context that [get_storage_context] yields has a
    structure for the id of every document, the bulk load succeeds. *)
Lemma bulk_load_succeeds (sc : ServiceContext) (docs : list DocumentSchema)
    (ctx : StorageContext) :
  (forall d, In d docs ->
             exists s, index_store ctx !! id_ d = Some (Entry s)) ->
  exists indices : list VectorStoreIndex,
    load_indices_from_storage ctx (map id_ docs) sc = Ok indices
    /\ Forall2
         (fun i index =>
            index_store ctx !! i = Some (Entry (index_struct index))
            /\ service_context index = sc)
         (map id_ docs) indices.
Proof.
  intros Hall.
  destruct (get_index_structs_all ctx (map id_ docs)) as (ss & Hss & Hf).
  { intros i Hi. apply in_map_iff in Hi as (d & <- & Hd). now apply Hall. }
  unfold load_indices_from_storage. rewrite Hss.
  eexists. split; [reflexivity|].
  clear Hss. induction Hf; simpl; constructor; auto.
Qed.

(** What raises out of [get_storage_context] is what reading the
    location raises. *)
Lemma get_storage_context_raises (dir : string) (vs : VectorStore)
    (fs : FileSystem) (w w1 : World) (e : PyExc) :
  get_storage_context dir vs fs w = (Raise e, w1) ->
  (blobs w !! (fs, dir) = None /\ e = FileNotFoundError)
  \/ blobs w !! (fs, dir) = Some (Unreadable e).
Proof.
  intros Hget.
  destruct (fst (getitem (now w) (cache_key dir vs fs) (cache w)))
    as [v|] eqn:Hg.
  - unfold get_storage_context, cached in Hget.
    destruct (getitem (now w) (cache_key dir vs fs) (cache w)) as [o links].
    simpl in Hg. subst o. discriminate.
  - rewrite (get_storage_context_miss _ _ _ _ Hg) in Hget.
    rewrite from_defaults_blob in Hget.
    destruct (blobs w !! (fs, dir)) as [[p|e']|]; try discriminate.
    + injection Hget as <- _. now right.
    + injection Hget as <- _. now left.
Qed.

(** C1, as amended. When the storage context that [get_storage_context]
    yields for the location (the cached one, or on a cache miss the one
    persisted there) holds an index structure for every requested
    document, the build returns exactly these existing indices through
    the bulk load: each document id is mapped to the index whose
    structure the store holds under that id, the chunker is not run,
    nothing is embedded or written, and the persisted state is
    untouched. *)
Theorem build_returns_existing_indices (sc : ServiceContext)
    (docs : list DocumentSchema) (fs : FileSystem) (w w1 : World)
    (ctx : StorageContext) :
  get_storage_context S3_BUCKET_NAME (vector_store_singleton w) fs w
  = (Ok ctx, w1) ->
  (forall d, In d docs ->
             exists s, index_store ctx !! id_ d = Some (Entry s)) ->
  exists indices : list VectorStoreIndex,
    build sc docs fs w = (Ok (dict_of (zip (map id_ docs) indices)), w1)
    /\ (forall d, In d docs ->
          exists index,
            dict_get (id_ d) (dict_of (zip (map id_ docs) indices))
            = Some index
            /\ index_store ctx !! id_ d = Some (Entry (index_struct index))
            /\ service_context index = sc)
    /\ no_index_work w w1
    /\ blobs w1 = blobs w
    /\ (fst (getitem (now w)
               (cache_key S3_BUCKET_NAME (vector_store_singleton w) fs)
               (cache w)) = None ->
        exists p, blobs w !! (fs, S3_BUCKET_NAME) = Some (Stored p)
                  /\ index_store ctx = p_index_store p).
Proof.
  intros Hget Hall.
  destruct (bulk_load_succeeds sc docs ctx Hall) as (indices & Hload & Hf).
  exists indices.
  pose proof (get_storage_context_no_index_work S3_BUCKET_NAME
                (vector_store_singleton w) fs w) as [Hwork Hblobs].
  rewrite Hget in Hwork, Hblobs. cbn [snd] in Hwork, Hblobs.
  split; [|split; [|split; [exact Hwork | split; [exact Hblobs|]]]].
  - rewrite build_unfold, load_phase_unfold, obtain_storage_context_cases.
    rewrite Hget, Hload. reflexivity.
  - intros d Hd.
    pose proof (dict_of_get (zip (map id_ docs) indices) [] (id_ d)) as Hg.
    fold (dict_of (zip (map id_ docs) indices)) in Hg.
    destruct (dict_get (id_ d) (dict_of (zip (map id_ docs) indices)))
      as [index|].
    + exists index. split; [reflexivity|].
      destruct Hg as [Hin|Hnil]; [|discriminate].
      exact (zip_In _ _ _ _ _ Hf Hin).
    + destruct Hg as [Hnin _]. exfalso. apply Hnin.
      rewrite zip_fst by (eapply Forall2_length; exact Hf).
      now apply in_map.
  - intros Hmiss.
    rewrite (get_storage_context_miss _ _ _ _ Hmiss) in Hget.
    rewrite from_defaults_blob in Hget.
    destruct (blobs w !! (fs, S3_BUCKET_NAME)) as [[p|e]|];
      try discriminate.
    injection Hget as <- _. now exists p.
Qed.

(** C3, as amended. A failure of the loading phase that is a
    [ValueError], be it a missing index id or anything else of that
    class such as a deserialization error, starts the rebuild of all
    documents; a failure of any other class goes to the caller as it
    is, with no index work done.  A missing storage context never shows
    here: it has been replaced by a new one.  The failure is a missing
    index id, an entry that does not deserialize, or what reading the
    location raised. *)
Theorem rebuild_on_any_ValueError (sc : ServiceContext)
    (docs : list DocumentSchema) (fs : FileSystem) (w w1 : World)
    (e : PyExc) :
  load_phase sc docs fs S3_BUCKET_NAME (vector_store_singleton w) w
  = (Raise e, w1) ->
  e <> FileNotFoundError
  /\ no_index_work w w1
  /\ (is_ValueError e = true ->
      build sc docs fs w
      = rebuild sc S3_BUCKET_NAME (vector_store_singleton w) fs docs w1)
  /\ (is_ValueError e = false -> build sc docs fs w = (Raise e, w1))
  /\ ((exists d, In d docs /\ e = IndexNotFound (id_ d))
      \/ (exists d, In d docs /\ e = JSONDecodeError)
      \/ blobs w !! (fs, S3_BUCKET_NAME) = Some (Unreadable e)).
Proof.
  intros Hload.
  pose proof (load_phase_no_index_work sc docs fs S3_BUCKET_NAME
                (vector_store_singleton w) w) as Hwork.
  rewrite Hload in Hwork. cbn [snd] in Hwork.
  assert (Hbuild := build_unfold sc docs fs w). rewrite Hload in Hbuild.
  assert (Hcause :
    (exists d, In d docs /\ e = IndexNotFound (id_ d))
    \/ (exists d, In d docs /\ e = JSONDecodeError)
    \/ (blobs w !! (fs, S3_BUCKET_NAME) = Some (Unreadable e)
        /\ e <> FileNotFoundError)).
  { rewrite load_phase_unfold in Hload.
    destruct (obtain_storage_context S3_BUCKET_NAME
                (vector_store_singleton w) fs w) as [[ctx|e'] w'] eqn:Hobt.
    - unfold load_indices_from_storage in Hload.
      destruct (get_index_structs ctx (map id_ docs)) as [ss|e'] eqn:Hg;
        [discriminate|].
      injection Hload as -> _.
      destruct (get_index_structs_raises _ _ _ Hg)
        as [(i & Hi & -> & _)|(i & Hi & -> & _)];
        apply in_map_iff in Hi as (d & <- & Hd).
      + left. now exists d.
      + right. left. now exists d.
    - injection Hload as -> _.
      rewrite obtain_storage_context_cases in Hobt.
      destruct (get_storage_context S3_BUCKET_NAME
                  (vector_store_singleton w) fs w) as [[ctx|e'] w'']
        eqn:Hget; [discriminate|].
      assert (Hne : e <> FileNotFoundError).
      { intros ->. destruct e'; discriminate. }
      assert (e' = e) as -> by (destruct e'; congruence).
      destruct (get_storage_context_raises _ _ _ _ _ _ Hget)
        as [[_ ->]|Hblob]; [contradiction|].
      right. right. now split. }
  split.
  - destruct Hcause as [(d & _ & ->)|[(d & _ & ->)|[_ Hne]]];
      [discriminate | discriminate | exact Hne].
  - split; [exact Hwork|].
    split; [intros Hv; now rewrite Hv in Hbuild|].
    split; [intros Hv; now rewrite Hv in Hbuild|].
    destruct Hcause as [H|[H|[H _]]]; auto.
Qed.

End Build_facts.

(** Nothing is persisted and nothing is cached: the empty context is
    created and persisted, and the build of one document then succeeds. *)
Lemma missing_storage_context_is_created_witness :
  fst (getitem (now Demo.w_fresh) (cache_key Demo.bucket "pg" Demo.s3)
         (cache Demo.w_fresh)) = None
  /\ blobs Demo.w_fresh !! (Demo.s3, Demo.bucket) = None
  /\ fst (obtain_storage_context Demo.bucket "pg" Demo.s3 Demo.w_fresh)
     = Ok (empty_storage_context "pg")
  /\ blobs (snd (obtain_storage_context Demo.bucket "pg" Demo.s3 Demo.w_fresh))
       !! (Demo.s3, Demo.bucket) = Some (Stored (mkPersisted ∅ ∅))
  /\ is_Ok (fst (Demo.build [Demo.doc_a] Demo.w_fresh)) = true.
Proof.
  assert (Hmiss :
    fst (getitem (now Demo.w_fresh) (cache_key Demo.bucket "pg" Demo.s3)
           (cache Demo.w_fresh)) = None) by reflexivity.
  assert (Hblob : blobs Demo.w_fresh !! (Demo.s3, Demo.bucket) = None)
    by reflexivity.
  destruct (missing_storage_context_is_created Demo.bucket Demo.asset_bucket
              Demo.doc_id_key Demo.clinical_key Demo.one_node Demo.sc
              [Demo.doc_a] Demo.s3 Demo.w_fresh Hmiss Hblob)
    as (_ & Hobt & Hpersisted & _ & _ & _).
  split; [exact Hmiss|]. split; [exact Hblob|].
  change (vector_store_singleton Demo.w_fresh) with "pg" in Hobt.
  rewrite Hobt. split; [reflexivity|]. split; [exact Hpersisted|].
  vm_compute. reflexivity.
Defined.

(** The index of [doc_a] is persisted and nothing is cached: the build
    loads it, no chunking, no embedding. *)
Lemma build_returns_existing_indices_witness :
  index_persisted Demo.s3 Demo.bucket "doc-a" Demo.w_a_persisted = true
  /\ is_Ok (fst (Demo.build [Demo.doc_a] Demo.w_a_persisted)) = true
  /\ no_index_work Demo.w_a_persisted
       (snd (Demo.build [Demo.doc_a] Demo.w_a_persisted)).
Proof.
  split; [vm_compute; reflexivity|].
  pose (r := get_storage_context Demo.bucket "pg" Demo.s3 Demo.w_a_persisted).
  assert (Hget :
    get_storage_context Demo.bucket
      (vector_store_singleton Demo.w_a_persisted) Demo.s3 Demo.w_a_persisted
    = (Ok match fst r with
          | Ok ctx => ctx
          | Raise _ => empty_storage_context "pg"
          end, snd r)) by (vm_compute; reflexivity).
  destruct (build_returns_existing_indices Demo.bucket Demo.asset_bucket
              Demo.doc_id_key Demo.clinical_key Demo.one_node Demo.sc
              [Demo.doc_a] Demo.s3 Demo.w_a_persisted _ _ Hget)
    as (indices & Hbuild & _ & Hwork & _).
  { intros d [<-|[]]. eexists. vm_compute. reflexivity. }
  unfold Demo.build. rewrite Hbuild. split; [reflexivity | exact Hwork].
Defined.

(** C1, as stated, fails.  First: an empty storage context is persisted
    and one document is built twice in a row; the second build finds the
    cached storage context of the first, which was loaded before the index
    was persisted, and chunks and embeds the document again.  Second: the
    index of one document is persisted and nothing is cached; a build for
    this document and another one chunks and embeds both. *)
Lemma build_rebuilds_persisted_index :
  (index_persisted Demo.s3 Demo.bucket "doc-a"
     (snd (Demo.build [Demo.doc_a] Demo.w_empty)) = true
   /\ chunk_calls (snd (Demo.build [Demo.doc_a] Demo.w_empty)) = 1%nat
   /\ embed_calls (snd (Demo.build [Demo.doc_a] Demo.w_empty)) = 1%nat
   /\ chunk_calls
        (snd (Demo.build [Demo.doc_a]
                (snd (Demo.build [Demo.doc_a] Demo.w_empty)))) = 2%nat
   /\ embed_calls
        (snd (Demo.build [Demo.doc_a]
                (snd (Demo.build [Demo.doc_a] Demo.w_empty)))) = 2%nat)
  /\ (index_persisted Demo.s3 Demo.bucket "doc-a" Demo.w_a_persisted = true
      /\ cache Demo.w_a_persisted = []
      /\ chunk_calls Demo.w_a_persisted = 1%nat
      /\ embed_calls Demo.w_a_persisted = 1%nat
      /\ chunk_calls
           (snd (Demo.build [Demo.doc_a; Demo.doc_b] Demo.w_a_persisted))
         = 3%nat
      /\ embed_calls
           (snd (Demo.build [Demo.doc_a; Demo.doc_b] Demo.w_a_persisted))
         = 3%nat).
Proof. vm_compute. repeat split. Qed.

(** The persisted entry of the document does not deserialize: the loading
    phase raises the decoder's [ValueError], and the rebuild runs. *)
Lemma rebuild_on_any_ValueError_witness :
  load_phase Demo.sc [Demo.doc_a] Demo.s3 Demo.bucket
    (vector_store_singleton Demo.w_a_garbled) Demo.w_a_garbled
  = (Raise JSONDecodeError,
     snd (load_phase Demo.sc [Demo.doc_a] Demo.s3 Demo.bucket "pg"
            Demo.w_a_garbled))
  /\ Demo.build [Demo.doc_a] Demo.w_a_garbled
     = rebuild_indices Demo.asset_bucket Demo.doc_id_key Demo.clinical_key
         Demo.one_node Demo.sc Demo.bucket "pg" Demo.s3 [Demo.doc_a]
         (snd (load_phase Demo.sc [Demo.doc_a] Demo.s3 Demo.bucket "pg"
                 Demo.w_a_garbled)).
Proof.
  assert (Hload :
    load_phase Demo.sc [Demo.doc_a] Demo.s3 Demo.bucket
      (vector_store_singleton Demo.w_a_garbled) Demo.w_a_garbled
    = (Raise JSONDecodeError,
       snd (load_phase Demo.sc [Demo.doc_a] Demo.s3 Demo.bucket "pg"
              Demo.w_a_garbled))) by (vm_compute; reflexivity).
  split; [exact Hload|].
  destruct (rebuild_on_any_ValueError Demo.bucket Demo.asset_bucket
              Demo.doc_id_key Demo.clinical_key Demo.one_node Demo.sc
              [Demo.doc_a] Demo.s3 Demo.w_a_garbled _ _ Hload)
    as (_ & _ & Hrebuild & _).
  exact (Hrebuild eq_refl).
Defined.

(** C3, as stated, fails: the entry of the document does not deserialize,
    which is not a not-found failure, yet the failure is not passed on;
    the document is chunked, embedded and indexed anew and the build
    returns. *)
Lemma deserialization_error_triggers_rebuild :
  fst (load_phase Demo.sc [Demo.doc_a] Demo.s3 Demo.bucket "pg"
         Demo.w_a_garbled) = Raise JSONDecodeError
  /\ is_not_found JSONDecodeError = false
  /\ is_Ok (fst (Demo.build [Demo.doc_a] Demo.w_a_garbled)) = true
  /\ chunk_calls (snd (Demo.build [Demo.doc_a] Demo.w_a_garbled)) = 1%nat
  /\ embed_calls (snd (Demo.build [Demo.doc_a] Demo.w_a_garbled)) = 1%nat
  /\ index_persisted Demo.s3 Demo.bucket "doc-a"
       (snd (Demo.build [Demo.doc_a] Demo.w_a_garbled)) = true.
Proof. vm_compute. repeat split. Qed.

(** A failure that is not a [ValueError] is passed on: the storage backend
    cannot be reached, the build raises that and does no index work. *)
Example connection_error_is_propagated :
  fst (Demo.build [Demo.doc_a] Demo.w_unreachable) = Raise ConnectionError
  /\ chunk_calls (snd (Demo.build [Demo.doc_a] Demo.w_unreachable)) = 0%nat
  /\ embed_calls (snd (Demo.build [Demo.doc_a] Demo.w_unreachable)) = 0%nat.
Proof. vm_compute. repeat split. Qed.

(* ===================================================================== *)
(** * 11. The query engine of a document                                  *)
(* ===================================================================== *)

Lemma passes_one_filter (k v : string) (node : LlamaDoc) :
  passes [mkExactMatchFilter k v] node = true <-> metadata node !! k = Some v.
Proof.
  unfold passes. simpl. rewrite andb_true_r. apply bool_decide_eq_true.
Qed.

(** C5. The retriever of the query engine of a document fetches at most
    three nodes and filters on the document id: its filter is the exact
    match of the document-id key with the document id.  Whatever the
    vector store of the index holds, every node that is retrieved is a
    node of the store whose document-id metadata equals that id, and the
    retrieved nodes are the three most similar ones among those (all of
    them when there are fewer): no node with that id that is left out is
    more similar to the query than a retrieved one. *)
Theorem index_to_query_engine_scope (DB_DOC_ID_KEY doc_id : string)
    (index : VectorStoreIndex) (documents : list DocumentSchema) :
  let r := retriever (index_to_query_engine DB_DOC_ID_KEY doc_id index
                        documents) in
  similarity_top_k r = 3%nat
  /\ filters r = [mkExactMatchFilter DB_DOC_ID_KEY doc_id]
  /\ retriever_index r = index
  /\ forall (similarity : string -> LlamaDoc -> Z) (query : string)
            (w : World),
       let store := rows_of (index_vector_store index) w in
       let found := retrieve similarity r query w in
       length found
       = Nat.min 3
           (length (List.filter
              (fun n => bool_decide (metadata n !! DB_DOC_ID_KEY = Some doc_id))
              store))
       /\ (forall node, In node found ->
             In node store /\ metadata node !! DB_DOC_ID_KEY = Some doc_id)
       /\ (forall node other,
             In node found -> In other store ->
             metadata other !! DB_DOC_ID_KEY = Some doc_id ->
             ~ In other found ->
             similarity query other <= similarity query node).
Proof.
  cbv zeta. split; [reflexivity|]. split; [reflexivity|].
  split; [reflexivity|].
  intros similarity query w. unfold retrieve. simpl.
  set (store := rows_of (index_vector_store index) w).
  set (cands := List.filter
                  (passes [mkExactMatchFilter DB_DOC_ID_KEY doc_id]) store).
  set (ranked := sorted_by (fun node => - similarity query node) cands).
  assert (Hcands : forall n, In n cands <->
                     In n store /\ metadata n !! DB_DOC_ID_KEY = Some doc_id).
  { intros n. unfold cands. rewrite filter_In, passes_one_filter. tauto. }
  assert (Hranked : forall n, In n ranked <-> In n cands)
    by (intros n; apply sorted_by_In).
  split; [|split].
  - assert (Hsame :
      cands
      = List.filter
          (fun n => bool_decide (metadata n !! DB_DOC_ID_KEY = Some doc_id))
          store).
    { unfold cands. apply filter_ext. intros n. unfold passes.
      cbn [forallb key value]. apply andb_true_r. }
    rewrite length_take, <- Hsame.
    unfold ranked. now rewrite (Permutation_length (sorted_by_perm _ cands)).
  - intros node Hin. apply Hcands, Hranked.
    apply list_elem_of_In in Hin. apply list_elem_of_In.
    exact (subseteq_take 3 ranked node Hin).
  - intros node other Hnode Hstore Hmeta Hout.
    assert (Hother : In other ranked) by (apply Hranked, Hcands; now split).
    rewrite <- (firstn_skipn 3 ranked) in Hother.
    apply in_app_or in Hother as [Hin|Hin]; [contradiction|].
    pose proof (sorted_take_below (fun n => - similarity query n) 3 ranked
                  node other (sorted_by_sorted _ cands) Hnode Hin).
    simpl in *. lia.
Qed.

(** Three documents in one store: the retriever of the second one finds
    its two nodes, the more similar one first. *)
Example retrieve_scoped :
  let node (i t : string) := mkLlamaDoc t i (<["db_document_id" := i]> ∅) in
  let w :=
    mkWorld 0 ∅ ∅ [] "pg"
      [("pg", node "a" "aaaa"); ("pg", node "b" "b"); ("pg", node "c" "cc");
       ("pg", node "b" "bbb")] 0 0 "" in
  let index := mkVectorStoreIndex (mkIndexStruct "b" []) Demo.sc "pg" in
  retrieve (fun _ n => Z.of_nat (String.length (text n)))
    (retriever (index_to_query_engine "db_document_id" "b" index []))
    "amiodarone" w
  = [node "b" "bbb"; node "b" "b"].
Proof. reflexivity. Qed.

(* ===================================================================== *)
(** * 12. The chat engine                                                 *)
(* ===================================================================== *)

Lemma append_assoc (a b c : string) : (a +:+ b) +:+ c = a +:+ (b +:+ c).
Proof.
  induction a as [|x a IH]; [reflexivity|].
  change (String x ((a +:+ b) +:+ c) = String x (a +:+ (b +:+ c))).
  now f_equal.
Qed.

(** The value of a field of the template is part of the formatted text. *)
Lemma format_has_field (template : list Segment)
    (kwargs : list (string * string)) (f v r : string) :
  In (Field f) template -> dict_get f kwargs = Some v ->
  format template kwargs = Ok r ->
  exists pre post : string, r = pre +:+ v +:+ post.
Proof.
  intros Hin Hv. revert r.
  induction template as [|seg t IH]; intros r Hr; [contradiction|].
  destruct seg as [s|g]; simpl in Hr.
  - destruct Hin as [Hin|Hin]; [discriminate|].
    destruct (format t kwargs) as [r'|e]; [|discriminate].
    injection Hr as <-.
    destruct (IH Hin r' eq_refl) as (pre & post & ->).
    exists (s +:+ pre), post. now rewrite append_assoc.
  - destruct (dict_get g kwargs) as [v'|] eqn:Hg; [|discriminate].
    destruct (format t kwargs) as [r'|e]; [|discriminate].
    injection Hr as <-.
    destruct Hin as [[= ->]|Hin].
    + assert (v' = v) as -> by congruence.
      exists "", r'. reflexivity.
    + destruct (IH Hin r' eq_refl) as (pre & post & ->).
      exists (v' +:+ pre), post. now rewrite append_assoc.
Qed.

(** With an argument for every field the formatting succeeds. *)
Lemma format_succeeds (template : list Segment)
    (kwargs : list (string * string)) :
  (forall f, In (Field f) template -> exists v, dict_get f kwargs = Some v) ->
  exists r, format template kwargs = Ok r.
Proof.
  induction template as [|seg t IH]; intros Hall; simpl; [now eexists|].
  destruct IH as [r Hr]; [intros f Hf; apply Hall; now right|].
  rewrite Hr. destruct seg as [s|g]; [now eexists|].
  destruct (Hall g (or_introl eq_refl)) as [v ->]. now eexists.
Qed.

Section Chat_engine_facts.

Variable S3_BUCKET_NAME : string.
Variable S3_ASSET_BUCKET_NAME : string.
Variable S3_ENDPOINT_URL : string.
Variable DB_DOC_ID_KEY : string.
Variable CLINICAL_GUIDELINE : string.
Variable CLINICAL_SYSTEM_MESSAGE : list Segment.
Variable process_document :
  string -> list (string * MetaArg) -> Res (list Chunk).
Variable build_title_for_document : DocumentSchema -> string.

Local Abbreviation build :=
  (build_doc_id_to_index_map S3_BUCKET_NAME S3_ASSET_BUCKET_NAME
     DB_DOC_ID_KEY CLINICAL_GUIDELINE process_document).
Local Abbreviation chat_engine :=
  (get_chat_engine S3_BUCKET_NAME S3_ASSET_BUCKET_NAME S3_ENDPOINT_URL
     DB_DOC_ID_KEY CLINICAL_GUIDELINE CLINICAL_SYSTEM_MESSAGE
     process_document build_title_for_document).

(** With no documents the build returns the empty mapping, unless the
    storage context cannot be read. *)
Lemma build_no_documents (sc : ServiceContext) (fs : FileSystem)
    (w : World) :
  (exists w1, build sc [] fs w = (Ok [], w1))
  \/ (exists e w1, build sc [] fs w = (Raise e, w1)
                   /\ blobs w !! (fs, S3_BUCKET_NAME) = Some (Unreadable e)).
Proof.
  rewrite build_unfold, load_phase_unfold, obtain_storage_context_cases.
  pose proof (get_storage_context_no_index_work S3_BUCKET_NAME
                (vector_store_singleton w) fs w) as [_ Hblobs].
  destruct (get_storage_context S3_BUCKET_NAME (vector_store_singleton w)
              fs w) as [[ctx|e] w1] eqn:Hget.
  - left. now exists w1.
  - cbn [snd] in Hblobs.
    destruct (get_storage_context_raises _ _ _ _ _ _ Hget)
      as [[_ ->]|Hblob].
    + left. eexists. reflexivity.
    + assert (Hraise :
        rebuild_indices S3_ASSET_BUCKET_NAME DB_DOC_ID_KEY
          CLINICAL_GUIDELINE process_document sc S3_BUCKET_NAME
          (vector_store_singleton w) fs [] w1 = (Raise e, w1)).
      { unfold rebuild_indices, bind.
        pose proof (from_defaults_pure (Some S3_BUCKET_NAME)
                      (vector_store_singleton w) fs w1) as Hp.
        pose proof (from_defaults_blob S3_BUCKET_NAME
                      (vector_store_singleton w) fs w1) as Hbl.
        rewrite Hblobs, Hblob in Hbl.
        destruct (from_defaults (Some S3_BUCKET_NAME)
                    (vector_store_singleton w) fs w1) as [r w2].
        cbn [fst snd] in Hp, Hbl. now subst. }
      destruct e; try (right; eexists _, w1; split;
                       [first [exact Hraise | reflexivity] | exact Hblob]).
      left. eexists. reflexivity.
Qed.

(** C4. For a conversation without documents, the chat engine that
    [get_chat_engine] builds has the placeholder text in its system
    prompt, given that the template of the prompt has the field for the
    document titles, and its router has no tools; and the engine is
    built whenever the storage context can be read and the template
    names no field but the two it is given. *)
Theorem chat_engine_without_documents (callback_handler : string)
    (conversation : ConversationSchema) (w : World) :
  documents conversation = [] ->
  In (Field "doc_titles") CLINICAL_SYSTEM_MESSAGE ->
  (forall agent w',
      chat_engine callback_handler conversation w = (Ok agent, w') ->
      (exists pre post : string,
          system_prompt agent
          = pre +:+ "No clinical guidelines selected." +:+ post)
      /\ (exists tool, tools agent = [tool]
                       /\ query_engine_tools (router tool) = [])
      /\ chat_history agent = get_chat_history (messages conversation))
  /\ ((forall e, blobs w !! (Some S3_ENDPOINT_URL, S3_BUCKET_NAME)
                 <> Some (Unreadable e)) ->
      (forall f, In (Field f) CLINICAL_SYSTEM_MESSAGE ->
                 f = "doc_titles" \/ f = "curr_date") ->
      exists agent w',
        chat_engine callback_handler conversation w = (Ok agent, w')).
Proof.
  intros Hdocs Hfield.
  unfold get_chat_engine, get_s3_fs. rewrite Hdocs.
  set (kwargs w1 := [("doc_titles", "No clinical guidelines selected.");
                     ("curr_date", utcnow w1)]).
  destruct (build_no_documents (get_tool_service_context [callback_handler])
              (Some S3_ENDPOINT_URL) w)
    as [[w1 Hb]|(e & w1 & Hb & Hblob)].
  - assert (Hrun : forall r,
      format CLINICAL_SYSTEM_MESSAGE (kwargs w1) = r ->
      (doc_id_to_index <-
         build (get_tool_service_context [callback_handler]) []
           (Some S3_ENDPOINT_URL) ;;
       vector_query_engine_tools <-
         for_each doc_id_to_index
           (fun '(doc_id, index) acc =>
              match dict_get doc_id (dict_of (map (fun doc => (id_ doc, doc)) []))
              with
              | None => raise (KeyError doc_id)
              | Some doc =>
                  ret (acc ++
                    [mkDocumentTool
                       (index_to_query_engine DB_DOC_ID_KEY doc_id index [])
                       (mkToolMetadata doc_id
                          (build_description_for_document doc))])
              end) [] ;;
       curr_date <- gets utcnow ;;
       prompt <- lift (format CLINICAL_SYSTEM_MESSAGE
         [("doc_titles", "No clinical guidelines selected.");
          ("curr_date", curr_date)]) ;;
       ret (mkAgent
              [mkRouterTool
                 (mkSubQuestion vector_query_engine_tools
                    (get_clinical_response_synth
                       (get_tool_service_context [callback_handler]) [])
                    true)
                 (mkToolMetadata "clinical_guidelines"
                    clinical_guidelines_description)]
              OPENAI_CHAT_LLM_NAME
              (get_chat_history (messages conversation)) prompt
              (callback_manager
                 (get_tool_service_context [callback_handler])) 3)) w
      = match r with
        | Ok prompt =>
            (Ok (mkAgent
              [mkRouterTool
                 (mkSubQuestion []
                    (get_clinical_response_synth
                       (get_tool_service_context [callback_handler]) [])
                    true)
                 (mkToolMetadata "clinical_guidelines"
                    clinical_guidelines_description)]
              OPENAI_CHAT_LLM_NAME
              (get_chat_history (messages conversation)) prompt
              (callback_manager
                 (get_tool_service_context [callback_handler])) 3), w1)
        | Raise e => (Raise e, w1)
        end).
    { intros r Hr. unfold bind at 1. rewrite Hb.
      unfold for_each, bind, ret, gets, lift. fold (kwargs w1).
      rewrite Hr. destruct r; reflexivity. }
    split.
    + intros agent w' Hget.
      rewrite (Hrun _ eq_refl) in Hget.
      destruct (format CLINICAL_SYSTEM_MESSAGE (kwargs w1)) as [prompt|e]
        eqn:Hfmt; [|discriminate].
      injection Hget as <- <-. simpl.
      split; [|split; [|reflexivity]].
      * exact (format_has_field CLINICAL_SYSTEM_MESSAGE (kwargs w1)
                 "doc_titles" "No clinical guidelines selected." prompt
                 Hfield eq_refl Hfmt).
      * eexists. split; reflexivity.
    + intros _ Hfields.
      destruct (format_succeeds CLINICAL_SYSTEM_MESSAGE (kwargs w1))
        as [prompt Hfmt].
      { intros f Hf. destruct (Hfields f Hf) as [->| ->];
          eexists; reflexivity. }
      rewrite (Hrun _ eq_refl), Hfmt. now eexists _, _.
  - split.
    + intros agent w' Hget. unfold bind at 1 in Hget.
      rewrite Hb in Hget. discriminate.
    + intros Hreadable _. exfalso. exact (Hreadable e Hblob).
Qed.

End Chat_engine_facts.

(** The engine of a conversation without documents on the demo
    deployment. *)
Lemma chat_engine_without_documents_witness :
  In (Field "doc_titles") Demo.template
  /\ exists agent w',
       Demo.chat_engine (mkConversation [] []) Demo.w_empty = (Ok agent, w')
       /\ (exists pre post : string,
             system_prompt agent
             = pre +:+ "No clinical guidelines selected." +:+ post)
       /\ exists tool, tools agent = [tool]
                       /\ query_engine_tools (router tool) = [].
Proof.
  assert (Hfield : In (Field "doc_titles") Demo.template)
    by (right; left; reflexivity).
  split; [exact Hfield|].
  destruct (chat_engine_without_documents Demo.bucket Demo.asset_bucket
              Demo.endpoint Demo.doc_id_key Demo.clinical_key Demo.template
              Demo.one_node Demo.title_of "handler" (mkConversation [] [])
              Demo.w_empty eq_refl Hfield) as [Hprops Hbuilt].
  destruct Hbuilt as (agent & w' & Hrun).
  - intros e. vm_compute. discriminate.
  - intros f Hf. simpl in Hf.
    destruct Hf as [H|[H|[H|[H|[H|[]]]]]]; try discriminate;
      injection H as <-; auto.
  - exists agent, w'. split; [exact Hrun|].
    destruct (Hprops agent w' Hrun) as (Hprompt & Htools & _).
    now split.
Defined.

(* ===================================================================== *)
(** * 13. The turn of the agent                                           *)
(* ===================================================================== *)

Lemma bind_Ok_inv {W A B : Type} (c : M W A) (k : A -> M W B) (w w' : W)
    (b : B) :
  bind c k w = (Ok b, w') ->
  exists a w1, c w = (Ok a, w1) /\ k a w1 = (Ok b, w').
Proof.
  unfold bind. destruct (c w) as [[a|e] w1]; [|discriminate].
  intros H. now exists a, w1.
Qed.

(** The agent that [get_chat_engine] builds may call its tool three
    times. *)
Lemma get_chat_engine_budget (bucket asset_bucket endpoint key_ clinical : string)
    (template : list Segment)
    (chunker : string -> list (string * MetaArg) -> Res (list Chunk))
    (title_for : DocumentSchema -> string) (handler : string)
    (conversation : ConversationSchema) (w w' : World) (agent : OpenAIAgent) :
  get_chat_engine bucket asset_bucket endpoint key_ clinical template chunker
    title_for handler conversation w = (Ok agent, w') ->
  max_function_calls agent = 3%nat
  /\ chat_history agent = get_chat_history (messages conversation)
  /\ length (tools agent) = 1%nat.
Proof.
  unfold get_chat_engine. intros H.
  apply bind_Ok_inv in H as (d & w1 & _ & H).
  apply bind_Ok_inv in H as (ts & w2 & _ & H).
  apply bind_Ok_inv in H as (date & w3 & _ & H).
  apply bind_Ok_inv in H as (prompt & w4 & _ & H).
  unfold ret in H. injection H as <- _.
  split; [reflexivity|]. split; reflexivity.
Qed.

Section Turn_facts.

Variable reason : list string -> Decision.
Variable run_tool : string -> string.
Variable agent : OpenAIAgent.

Local Abbreviation budget := (max_function_calls agent).
Local Abbreviation awaiting c rs := (mkTurn awaiting_model c rs None None).
Local Abbreviation run_turn := (run reason run_tool agent).

Lemma run_add (n m : nat) (t : Turn) :
  run_turn (n + m) t = run_turn m (run_turn n t).
Proof. revert t. induction n as [|n IH]; intros t; simpl; auto. Qed.

(** The budget is kept at every step of a turn. *)
Lemma step_within_budget (t : Turn) :
  within_budget agent t -> within_budget agent (step reason run_tool agent t).
Proof.
  intros (Hle & Hlen & Hdisp). unfold step, within_budget.
  destruct (phase t) eqn:Hp.
  - rewrite Hp. repeat split; try assumption.
  - destruct (reason (results t)) as [q|a]; simpl.
    + destruct (Nat.ltb_spec (tool_calls t) budget); simpl;
        repeat split; try assumption; try discriminate.
      intros _. assumption.
    + repeat split; try assumption; discriminate.
  - specialize (Hdisp eq_refl).
    destruct (pending t) as [q|]; simpl.
    + repeat split; [lia | rewrite length_app; simpl; lia | discriminate].
    + repeat split; try assumption; discriminate.
  - simpl. repeat split; try assumption; discriminate.
Qed.

Lemma run_within_budget (n : nat) (t : Turn) :
  within_budget agent t -> within_budget agent (run_turn n t).
Proof.
  revert t. induction n as [|n IH]; intros t Ht; simpl; [exact Ht|].
  apply IH. now apply step_within_budget.
Qed.

(** A turn reaches [responding], with a response, after at most one
    reasoning step more than twice the calls that are left. *)
Lemma turn_responds (k c : nat) (rs : list string) :
  (c + k = budget)%nat ->
  exists n : nat,
    (n <= 2 * k + 1)%nat
    /\ phase (run_turn n (awaiting c rs)) = responding
    /\ response (run_turn n (awaiting c rs)) <> None.
Proof.
  revert c rs. induction k as [|k IH]; intros c rs Hc.
  - exists 1%nat. split; [lia|]. simpl. unfold step. simpl.
    destruct (reason rs) as [q|a]; simpl.
    + rewrite (proj2 (Nat.ltb_ge c budget)) by lia. now split.
    + now split.
  - destruct (reason rs) as [q|a] eqn:Hr.
    + destruct (IH (S c) (rs ++ [run_tool q])) as (n & Hn & Hp & Hresp);
        [lia|].
      exists (2 + n)%nat. split; [lia|].
      rewrite run_add.
      assert (Hsteps : run_turn 2 (awaiting c rs)
                       = awaiting (S c) (rs ++ [run_tool q])).
      { simpl. unfold step at 2. simpl. rewrite Hr.
        rewrite (proj2 (Nat.ltb_lt c budget)) by lia. reflexivity. }
      rewrite Hsteps. now split.
    + exists 1%nat. split; [lia|]. simpl. unfold step. simpl.
      rewrite Hr. now split.
Qed.

(** When the model asks for the tool every time, the calls that are left
    are all dispatched, and the next request ends the turn. *)
Lemma turn_exhausts_budget (k c : nat) (rs : list string) :
  (forall rs', exists q, reason rs' = CallTool q) ->
  (c + k = budget)%nat ->
  let t := run_turn (2 * k + 1) (awaiting c rs) in
  phase t = responding
  /\ tool_calls t = budget
  /\ length (results t) = (length rs + k)%nat
  /\ response t = Some (FromResults (results t))
  /\ forall n, (n < 2 * k + 1)%nat ->
               phase (run_turn n (awaiting c rs)) <> responding.
Proof.
  intros Hask. revert c rs. induction k as [|k IH]; intros c rs Hc.
  - destruct (Hask rs) as [q Hr]. cbv zeta. simpl. unfold step. simpl.
    rewrite Hr, (proj2 (Nat.ltb_ge c budget)) by lia. simpl.
    repeat split; try lia.
    intros n Hn. assert (n = 0%nat) as -> by lia. discriminate.
  - destruct (Hask rs) as [q Hr].
    assert (Hsteps : run_turn 2 (awaiting c rs)
                     = awaiting (S c) (rs ++ [run_tool q])).
    { simpl. unfold step at 2. simpl. rewrite Hr.
      rewrite (proj2 (Nat.ltb_lt c budget)) by lia. reflexivity. }
    assert (Hstep1 : phase (run_turn 1 (awaiting c rs)) = tool_dispatch).
    { simpl. unfold step. simpl. rewrite Hr.
      now rewrite (proj2 (Nat.ltb_lt c budget)) by lia. }
    specialize (IH (S c) (rs ++ [run_tool q]) ltac:(lia)).
    cbv zeta in IH |- *.
    replace (2 * S k + 1)%nat with (2 + (2 * k + 1))%nat by lia.
    rewrite run_add, Hsteps.
    destruct IH as (Hp & Hcalls & Hlen & Hresp & Hbefore).
    repeat split; try assumption.
    + rewrite Hlen, length_app. simpl. lia.
    + intros n Hn.
      destruct n as [|[|n]]; [discriminate | now rewrite Hstep1 |].
      change (S (S n)) with (2 + n)%nat. rewrite run_add, Hsteps.
      apply Hbefore. lia.
Qed.

End Turn_facts.

(** C2. The agent that [get_chat_engine] builds has a budget of three tool
    calls, and a turn of the agent keeps it: at every moment of a turn at
    most three calls have been dispatched and there is one result per
    call; every turn reaches [responding] with a response; and when the
    reasoning step asks for the tool every time, exactly three calls are
    dispatched, the fourth request ends the turn, and the response is
    assembled from the three results at hand. *)
Theorem tool_call_budget (bucket asset_bucket endpoint key_ clinical : string)
    (template : list Segment)
    (chunker : string -> list (string * MetaArg) -> Res (list Chunk))
    (title_for : DocumentSchema -> string) (handler : string)
    (conversation : ConversationSchema) (w w' : World) (agent : OpenAIAgent)
    (reason : list string -> Decision) (run_tool : string -> string) :
  get_chat_engine bucket asset_bucket endpoint key_ clinical template chunker
    title_for handler conversation w = (Ok agent, w') ->
  max_function_calls agent = 3%nat
  /\ (forall n : nat,
        let t := run reason run_tool agent n start in
        (tool_calls t <= 3)%nat /\ length (results t) = tool_calls t)
  /\ (exists n : nat,
        (n <= 7)%nat
        /\ phase (run reason run_tool agent n start) = responding
        /\ response (run reason run_tool agent n start) <> None)
  /\ ((forall rs, exists q, reason rs = CallTool q) ->
      let t := run reason run_tool agent 7 start in
      phase t = responding
      /\ tool_calls t = 3%nat
      /\ length (results t) = 3%nat
      /\ response t = Some (FromResults (results t))
      /\ forall n, (n < 7)%nat ->
                   phase (run reason run_tool agent n start) <> responding).
Proof.
  intros Hengine.
  destruct (get_chat_engine_budget _ _ _ _ _ _ _ _ _ _ _ _ _ Hengine)
    as (Hbudget & _).
  split; [exact Hbudget|]. split; [|split].
  - intros n. cbv zeta.
    destruct (run_within_budget reason run_tool agent n start)
      as (Hle & Hlen & _).
    { unfold within_budget, start. simpl. repeat split; [lia | discriminate]. }
    rewrite Hbudget in Hle. now split.
  - destruct (turn_responds reason run_tool agent 3 0 [])
      as (n & Hn & Hp & Hr); [now rewrite Hbudget|].
    exists n. split; [simpl in Hn; lia|]. now split.
  - intros Hask.
    destruct (turn_exhausts_budget reason run_tool agent 3 0 [] Hask)
      as (Hp & Hc & Hl & Hr & Hb); [now rewrite Hbudget|].
    cbv zeta. change (2 * 3 + 1)%nat with 7%nat in *.
    rewrite Hbudget in Hc. now repeat split.
Qed.

(** A model that always asks for the tool, on the agent of the demo
    deployment: three calls, then the response from the three results. *)
Lemma tool_call_budget_witness :
  exists agent w',
    Demo.chat_engine (mkConversation [] []) Demo.w_empty = (Ok agent, w')
    /\ tool_calls (run (fun _ => CallTool "dose?") (fun q => q) agent 7 start)
       = 3%nat
    /\ response (run (fun _ => CallTool "dose?") (fun q => q) agent 7 start)
       = Some (FromResults ["dose?"; "dose?"; "dose?"]).
Proof.
  pose (r := Demo.chat_engine (mkConversation [] []) Demo.w_empty).
  pose (agent := match fst r with
                 | Ok a => a
                 | Raise _ => mkAgent [] "" [] "" [] 0
                 end).
  assert (Hengine :
    get_chat_engine Demo.bucket Demo.asset_bucket Demo.endpoint
      Demo.doc_id_key Demo.clinical_key Demo.template Demo.one_node
      Demo.title_of "handler" (mkConversation [] []) Demo.w_empty
    = (Ok agent, snd r)) by (vm_compute; reflexivity).
  exists agent, (snd r). split; [exact Hengine|].
  destruct (tool_call_budget _ _ _ _ _ _ _ _ _ _ _ _ _
              (fun _ => CallTool "dose?") (fun q => q) Hengine)
    as (_ & _ & _ & Hall).
  destruct Hall as (_ & Hcalls & _ & Hresp & _); [intros rs; now eexists|].
  split; [exact Hcalls|]. rewrite Hresp. vm_compute. reflexivity.
Defined.

(* ===================================================================== *)
(** * 14. The order of the chat history                                   *)
(* ===================================================================== *)

Section Sorted_by_order.
Context {A : Type} (key : A -> Z).

Lemma filter_key_length (k : Z) (l : list A) :
  NoDup (map key l) -> (length (filter (fun a => key a = k) l) <= 1)%nat.
Proof.
  induction l as [|x l IH]; intros Hnd; [simpl; lia|].
  simpl in Hnd. apply NoDup_cons in Hnd as [Hx Hnd].
  rewrite filter_cons. destruct (decide (key x = k)) as [Hk|Hk]; [|auto].
  assert (Hnil : filter (fun a => key a = k) l = []).
  { destruct (filter (fun a => key a = k) l) as [|a t] eqn:Hf; [reflexivity|].
    exfalso. apply Hx.
    assert (Ha : a ∈ filter (fun a => key a = k) l) by (rewrite Hf; left).
    apply list_elem_of_filter in Ha as [Hka Hin].
    apply list_elem_of_In, in_map_iff. exists a. split; [congruence|].
    now apply list_elem_of_In. }
  rewrite Hnil. simpl. lia.
Qed.

Lemma Permutation_short (l1 l2 : list A) :
  Permutation l1 l2 -> (length l1 <= 1)%nat -> l1 = l2.
Proof.
  intros Hp Hl. destruct l1 as [|x [|y l1]]; simpl in Hl; [| |lia].
  - now apply Permutation_nil in Hp.
  - now apply Permutation_length_1_inv in Hp.
Qed.

(** With keys that are all different the order of the input does not
    show in the sorted list. *)
Lemma sorted_by_input_order (l1 l2 : list A) :
  Permutation l1 l2 -> NoDup (map key l1) ->
  sorted_by key l1 = sorted_by key l2.
Proof.
  intros Hp Hnd.
  apply (sorted_stable_unique key);
    [apply sorted_by_sorted | apply sorted_by_sorted |].
  intros k. rewrite !sorted_by_stable.
  apply Permutation_short; [now rewrite Hp | now apply filter_key_length].
Qed.

Lemma StronglySorted_app (R : A -> A -> Prop) (l1 l2 : list A) :
  StronglySorted R l1 -> StronglySorted R l2 ->
  (forall a b, In a l1 -> In b l2 -> R a b) ->
  StronglySorted R (l1 ++ l2).
Proof.
  induction 1 as [|x l1 Hs IH Hall]; intros H2 Hle; simpl; [exact H2|].
  constructor.
  - apply IH; [exact H2|]. intros a b Ha Hb. apply Hle; [now right | exact Hb].
  - apply Forall_app. split; [exact Hall|].
    apply List.Forall_forall. intros b Hb. apply Hle; [now left | exact Hb].
Qed.

(** What is not above anything of what follows is sorted on its own. *)
Lemma sorted_by_app (l1 l2 : list A) :
  (forall a b, In a l1 -> In b l2 -> key a <= key b) ->
  sorted_by key (l1 ++ l2) = sorted_by key l1 ++ sorted_by key l2.
Proof.
  intros Hle. symmetry. apply sorted_by_is_the_stable_sort.
  - apply StronglySorted_app; [apply sorted_by_sorted | apply sorted_by_sorted|].
    intros a b Ha Hb. apply sorted_by_In in Ha, Hb. now apply Hle.
  - intros k. rewrite !filter_app, !sorted_by_stable. reflexivity.
Qed.

End Sorted_by_order.

(** X1. The chat history does not depend on the order in which the
    messages are given, as long as no two retained messages were created
    at the same time: every permutation of the input gives the same
    history. *)
Theorem get_chat_history_input_order (l1 l2 : list MessageSchema) :
  Permutation l1 l2 ->
  NoDup (map created_at (filter (fun m => keep m = true) l1)) ->
  get_chat_history l1 = get_chat_history l2.
Proof.
  intros Hp Hnd. unfold get_chat_history. f_equal.
  apply sorted_by_input_order; [now rewrite Hp | exact Hnd].
Qed.

(** Three messages, one of them failed, given in two orders. *)
Lemma get_chat_history_input_order_witness :
  get_chat_history
    [ mkMessage [104; 105]%N assistant SUCCESS 30;
      mkMessage [111; 104]%N user ERROR 30;
      mkMessage [113]%N user SUCCESS 10 ]
  = get_chat_history
      [ mkMessage [113]%N user SUCCESS 10;
        mkMessage [104; 105]%N assistant SUCCESS 30;
        mkMessage [111; 104]%N user ERROR 30 ].
Proof.
  apply get_chat_history_input_order.
  - apply Permutation_sym, (Permutation_cons_append [_; _]).
  - vm_compute. apply NoDup_cons. split; [|apply NoDup_singleton].
    intros H. apply list_elem_of_singleton in H. discriminate.
Defined.

(** X2. Messages that arrive later extend the history: when no retained
    message of [new] was created before a retained message of [old], the
    history of [old ++ new] is the history of [old] followed by the
    history of [new]. *)
Theorem get_chat_history_app (old new : list MessageSchema) :
  (forall a b, In a old -> In b new -> keep a = true -> keep b = true ->
               created_at a <= created_at b) ->
  get_chat_history (old ++ new)
  = get_chat_history old ++ get_chat_history new.
Proof.
  intros Hle. unfold get_chat_history.
  rewrite filter_app, sorted_by_app, map_app; [reflexivity|].
  intros a b Ha Hb.
  apply list_elem_of_In, list_elem_of_filter in Ha as [Hka Ha].
  apply list_elem_of_In, list_elem_of_filter in Hb as [Hkb Hb].
  apply Hle; try assumption; now apply list_elem_of_In.
Qed.

(** Two messages out of order, then a blank one and a newer one. *)
Lemma get_chat_history_app_witness :
  get_chat_history
    ([ mkMessage [104; 105]%N assistant SUCCESS 30;
       mkMessage [113]%N user SUCCESS 10 ]
     ++ [ mkMessage [32]%N user SUCCESS 5;
          mkMessage [119]%N user SUCCESS 30 ])
  = get_chat_history
      [ mkMessage [104; 105]%N assistant SUCCESS 30;
        mkMessage [113]%N user SUCCESS 10 ]
    ++ get_chat_history
         [ mkMessage [32]%N user SUCCESS 5;
           mkMessage [119]%N user SUCCESS 30 ].
Proof.
  apply get_chat_history_app.
  intros a b [<-|[<-|[]]] [<-|[<-|[]]] Ha Hb; simpl;
    solve [lia | discriminate Hb | discriminate Ha].
Defined.

(* ===================================================================== *)
(** * 15. The size and the order of the cache                             *)
(* ===================================================================== *)

Import Workload.

Lemma NoDup_map_filter {A B : Type} (f : A -> B) (p : A -> bool)
    (l : list A) :
  NoDup (map f l) -> NoDup (map f (List.filter p l)).
Proof.
  induction l as [|a l IH]; simpl; intros Hnd; [constructor|].
  apply NoDup_cons in Hnd as [Ha Hnd].
  destruct (p a); simpl; [|auto].
  apply NoDup_cons. split; [|auto].
  intros Hin. apply Ha.
  apply list_elem_of_In, in_map_iff in Hin as (y & Hy & Hin).
  apply filter_In in Hin as [Hin _].
  apply list_elem_of_In, in_map_iff. now exists y.
Qed.

Lemma NoDup_map_drop {A B : Type} (f : A -> B) (n : nat) (l : list A) :
  NoDup (map f l) -> NoDup (map f (drop n l)).
Proof.
  revert n. induction l as [|a l IH]; intros [|n] Hnd; simpl; auto.
  apply IH. simpl in Hnd. now apply NoDup_cons in Hnd as [_ Hnd].
Qed.

Lemma remove_key_not_in (k : string) (links : list Link) :
  ~ In k (map lk_key (remove_key k links)).
Proof.
  intros Hin. apply in_map_iff in Hin as (l & Hk & Hin).
  unfold remove_key in Hin. apply filter_In in Hin as [_ Hn].
  unfold has_key in Hn. rewrite bool_decide_eq_true_2 in Hn by exact Hk.
  discriminate.
Qed.

Lemma remove_key_absent (k : string) (links : list Link) :
  find_link k links = None -> remove_key k links = links.
Proof.
  unfold find_link, remove_key.
  induction links as [|l links IH]; simpl; [reflexivity|].
  destruct (has_key k l); simpl; [discriminate|].
  intros H. now rewrite IH.
Qed.

Lemma length_remove_key_found (k : string) (links : list Link) (l : Link) :
  find_link k links = Some l ->
  (length (remove_key k links) < length links)%nat.
Proof.
  unfold find_link, remove_key.
  induction links as [|l0 links IH]; simpl; [discriminate|].
  destruct (has_key k l0); simpl.
  - intros _. pose proof (filter_length_le (fun l => negb (has_key k l)) links).
    lia.
  - intros H. specialize (IH H). lia.
Qed.

(** The link of the key, moved to the end, is still the only one. *)
Lemma NoDup_moved (k : string) (links : list Link) (l : Link) :
  lk_key l = k -> NoDup (map lk_key links) ->
  NoDup (map lk_key (remove_key k links ++ [l])).
Proof.
  intros Hk Hnd. rewrite map_app. apply NoDup_app.
  split; [now apply NoDup_map_filter|].
  split; [|apply NoDup_singleton].
  intros x Hx Hx'. simpl in Hx'. apply list_elem_of_singleton in Hx'.
  subst x. rewrite Hk in Hx. apply list_elem_of_In in Hx.
  exact (remove_key_not_in k links Hx).
Qed.

Lemma getitem_cache_ok (time : Z) (k : string) (links : list Link) :
  cache_ok links -> cache_ok (snd (getitem time k links)).
Proof.
  intros [Hnd Hlen]. unfold getitem.
  destruct (find_link k links) as [l|] eqn:Hf; cbn [snd]; [|now split].
  split.
  - apply NoDup_moved; [now apply find_link_some in Hf | exact Hnd].
  - rewrite length_app. simpl.
    pose proof (length_remove_key_found k links l Hf). lia.
Qed.

Lemma setitem_cache_ok (time : Z) (k : string) (v : StorageContext)
    (links : list Link) :
  cache_ok links -> cache_ok (setitem time k v links).
Proof.
  intros [Hnd Hlen]. unfold setitem.
  assert (Hnd1 : NoDup (map lk_key (expire time links)))
    by now apply NoDup_map_filter.
  assert (Hlen1 : (length (expire time links) <= maxsize)%nat).
  { pose proof (filter_length_le (live time) links). unfold expire. lia. }
  destruct (find_link k (expire time links)) as [l|] eqn:Hf.
  - split; [now apply NoDup_moved|].
    rewrite length_app. simpl.
    pose proof (length_remove_key_found k _ l Hf). lia.
  - split; [apply NoDup_moved; [reflexivity | now apply NoDup_map_drop]|].
    rewrite length_app. simpl.
    pose proof (filter_length_le (fun l => negb (has_key k l))
                  (drop (length (expire time links) + 1 - maxsize)
                     (expire time links))) as Hle.
    rewrite length_drop in Hle. unfold remove_key.
    unfold maxsize in *. lia.
Qed.

Lemma get_storage_context_cache_ok (persist_dir : string)
    (vs : VectorStore) (fs : FileSystem) (w : World) :
  cache_ok (cache w) ->
  cache_ok (cache (snd (get_storage_context persist_dir vs fs w))).
Proof.
  intros Hok. unfold get_storage_context, cached.
  pose proof (getitem_cache_ok (now w) (cache_key persist_dir vs fs)
                (cache w) Hok) as Hg.
  destruct (getitem (now w) (cache_key persist_dir vs fs) (cache w))
    as [[v|] links]; cbn [snd] in *; [exact Hg|].
  pose proof (from_defaults_pure (Some persist_dir) vs fs
                (set_cache (fun _ => links) w)) as Hp.
  destruct (from_defaults (Some persist_dir) vs fs
              (set_cache (fun _ => links) w)) as [[v|e] w'];
    cbn [snd] in *; subst w'; cbn [cache set_cache]; [|exact Hg].
  now apply setitem_cache_ok.
Qed.

(** X3. The cache of [get_storage_context] never outgrows its size:
    whatever locations are asked for, at whatever times and with whatever
    outcome, the cache holds at most ten links afterwards, and at most one
    link per key. *)
Theorem storage_context_cache_capacity
    (calls : list (Z * string * VectorStore * FileSystem)) (w : World) :
  cache_ok (cache w) -> cache_ok (cache (call_many calls w)).
Proof.
  revert w. induction calls as [|[[[d p] vs] fs] calls IH]; intros w Hok;
    simpl; [exact Hok|].
  apply IH. now apply get_storage_context_cache_ok.
Qed.

(** The full cache, one more location that is persisted and one that is
    not, after the links have expired and before. *)
Lemma storage_context_cache_capacity_witness :
  cache_ok (cache w_full)
  /\ cache_ok
       (cache (call_many
          [(1, "loc10", "pg", None); (2, "loc11", "pg", None);
           (5000, "loc3", "pg", None)] w_full)).
Proof.
  assert (Hok : cache_ok (cache w_full)).
  { split; [|vm_compute; lia].
    apply NoDup_ListNoDup. vm_compute.
    repeat (constructor; [simpl; intuition discriminate|]). constructor. }
  split; [exact Hok|].
  exact (storage_context_cache_capacity _ w_full Hok).
Defined.

Lemma filter_all {A : Type} (f : A -> bool) (l : list A) :
  List.Forall (fun a => f a = true) l -> List.filter f l = l.
Proof.
  induction 1 as [|a l Ha _ IH]; simpl; [reflexivity|].
  now rewrite Ha, IH.
Qed.

(** A new key stored in a full cache of live links takes the place of the
    least recently used one. *)
Lemma setitem_evicts (time : Z) (k : string) (v : StorageContext)
    (links : list Link) :
  length links = maxsize ->
  List.Forall (fun l => live time l = true) links ->
  find_link k links = None ->
  setitem time k v links = tl links ++ [mkLink k v (time + ttl)].
Proof.
  intros Hlen Hlive Hf. unfold setitem, expire.
  rewrite (filter_all _ _ Hlive), Hf, Hlen.
  replace (maxsize + 1 - maxsize)%nat with 1%nat by (unfold maxsize; lia).
  destruct links as [|l0 rest]; [discriminate|].
  cbn [drop tl]. rewrite remove_key_absent; [reflexivity|].
  unfold find_link in *. simpl in Hf. now destruct (has_key k l0).
Qed.

Lemma get_storage_context_stores (persist_dir : string) (vs : VectorStore)
    (fs : FileSystem) (w : World) (p : Persisted) :
  find_link (cache_key persist_dir vs fs) (cache w) = None ->
  blobs w !! (fs, persist_dir) = Some (Stored p) ->
  cache (snd (get_storage_context persist_dir vs fs w))
  = setitem (now w) (cache_key persist_dir vs fs)
      (mkStorageContext (p_docstore p) (p_index_store p) vs) (cache w).
Proof.
  intros Hf Hblob.
  assert (Hg : getitem (now w) (cache_key persist_dir vs fs) (cache w)
               = (None, cache w)) by (unfold getitem; now rewrite Hf).
  rewrite get_storage_context_miss by now rewrite Hg.
  rewrite from_defaults_blob, Hblob, Hg. reflexivity.
Qed.

(** X4. The cache evicts the least recently used entry: when it holds ten
    live entries and a location that is not among them is loaded, the
    entry at the front goes, the other nine stay in their order, and the
    new entry is the most recently used one. *)
Theorem storage_context_cache_evicts_lru (persist_dir : string)
    (vs : VectorStore) (fs : FileSystem) (w : World) (p : Persisted) :
  length (cache w) = maxsize ->
  List.Forall (fun l => now w < lk_expires l) (cache w) ->
  find_link (cache_key persist_dir vs fs) (cache w) = None ->
  blobs w !! (fs, persist_dir) = Some (Stored p) ->
  cache (snd (get_storage_context persist_dir vs fs w))
  = tl (cache w)
    ++ [mkLink (cache_key persist_dir vs fs)
          (mkStorageContext (p_docstore p) (p_index_store p) vs)
          (now w + ttl)].
Proof.
  intros Hlen Hlive Hf Hblob.
  rewrite (get_storage_context_stores _ _ _ _ _ Hf Hblob).
  apply setitem_evicts; [exact Hlen | | exact Hf].
  eapply List.Forall_impl; [|exact Hlive].
  intros l Hl. now apply Z.ltb_lt.
Qed.

(** The eleventh location is loaded into the full cache: the link of the
    first location is gone. *)
Lemma storage_context_cache_evicts_lru_witness :
  cache (snd (get_storage_context "loc10" "pg" None w_full))
  = tl (full_cache 1000)
    ++ [mkLink (cache_key "loc10" "pg" None) (empty_storage_context "pg")
          (0 + ttl)].
Proof.
  apply (storage_context_cache_evicts_lru "loc10" "pg" None w_full
           (mkPersisted ∅ ∅)).
  - reflexivity.
  - repeat constructor.
  - reflexivity.
  - reflexivity.
Defined.

(** X5. Reading an entry protects it from eviction: when the entry at the
    front of a full cache of live entries is read and a new location is
    loaded next, it is the entry that was second that goes; the entry
    that was read stays, with the expiry time it had. *)
Theorem storage_context_cache_read_protects (p0 persist_dir : string)
    (vs : VectorStore) (fs : FileSystem) (w : World) (l0 l1 : Link)
    (rest : list Link) (p : Persisted) :
  cache w = l0 :: l1 :: rest ->
  length (cache w) = maxsize ->
  List.Forall (fun l => now w < lk_expires l) (cache w) ->
  NoDup (map lk_key (cache w)) ->
  lk_key l0 = cache_key p0 vs fs ->
  find_link (cache_key persist_dir vs fs) (cache w) = None ->
  blobs w !! (fs, persist_dir) = Some (Stored p) ->
  let w1 := snd (get_storage_context p0 vs fs w) in
  fst (get_storage_context p0 vs fs w) = Ok (lk_value l0)
  /\ cache (snd (get_storage_context persist_dir vs fs w1))
     = rest ++ [l0;
                mkLink (cache_key persist_dir vs fs)
                  (mkStorageContext (p_docstore p) (p_index_store p) vs)
                  (now w + ttl)].
Proof.
  intros Hcache Hlen Hlive Hnd Hk0 Hf Hblob w1.
  assert (Hf0 : find_link (cache_key p0 vs fs) (cache w) = Some l0).
  { rewrite Hcache. unfold find_link, has_key. simpl.
    now rewrite bool_decide_eq_true_2. }
  assert (Hl0 : now w < lk_expires l0).
  { rewrite Hcache in Hlive. now inversion Hlive. }
  assert (Hrm : remove_key (cache_key p0 vs fs) (cache w) = l1 :: rest).
  { rewrite Hcache in Hnd |- *.
    change (remove_key (cache_key p0 vs fs) (l0 :: l1 :: rest))
      with (if negb (has_key (cache_key p0 vs fs) l0)
            then l0 :: remove_key (cache_key p0 vs fs) (l1 :: rest)
            else remove_key (cache_key p0 vs fs) (l1 :: rest)).
    unfold has_key at 1. rewrite bool_decide_eq_true_2 by exact Hk0.
    cbn [negb]. simpl in Hnd. apply NoDup_cons in Hnd as [Hnot Hnd].
    unfold remove_key. apply filter_all. apply List.Forall_forall.
    intros l Hl. unfold has_key.
    apply negb_true_iff, bool_decide_eq_false_2.
    intros Hkl. apply Hnot. rewrite Hk0, <- Hkl.
    apply list_elem_of_In. change (In (lk_key l) (map lk_key (l1 :: rest))).
    now apply in_map. }
  pose proof (get_storage_context_hit p0 vs fs w l0 Hf0 Hl0) as Hhit.
  subst w1. rewrite Hhit, Hrm. cbn [fst snd]. split; [reflexivity|].
  set (w1 := set_cache (fun _ => (l1 :: rest) ++ [l0]) w).
  assert (Hne : cache_key persist_dir vs fs <> cache_key p0 vs fs).
  { intros Heq. rewrite Heq in Hf. congruence. }
  assert (Hf1 : find_link (cache_key persist_dir vs fs) (cache w1) = None).
  { cbn [w1 cache set_cache]. rewrite find_link_app.
    assert (Hrest : find_link (cache_key persist_dir vs fs) (l1 :: rest)
                    = None).
    { rewrite Hcache in Hf. unfold find_link in *. cbn [find] in Hf |- *.
      destruct (has_key (cache_key persist_dir vs fs) l0);
        [discriminate | exact Hf]. }
    rewrite Hrest. unfold find_link, has_key. simpl.
    rewrite bool_decide_eq_false_2; [reflexivity|]. congruence. }
  rewrite (get_storage_context_stores persist_dir vs fs w1 p Hf1 Hblob).
  cbn [w1 cache set_cache now].
  rewrite setitem_evicts.
  - cbn [tl app]. now rewrite <- app_assoc.
  - rewrite length_app, <- Hlen, Hcache. simpl. lia.
  - rewrite Hcache in Hlive.
    apply List.Forall_app. split.
    + inversion Hlive as [|? ? _ Hrest]; subst.
      eapply List.Forall_impl; [|exact Hrest]. intros l Hl. now apply Z.ltb_lt.
    + constructor; [now apply Z.ltb_lt | constructor].
  - exact Hf1.
Qed.

(** The first location is read, then the eleventh is loaded: the link of
    the second location is gone, that of the first is kept. *)
Lemma storage_context_cache_read_protects_witness :
  fst (get_storage_context "loc0" "pg" None w_full)
  = Ok (empty_storage_context "pg")
  /\ cache (snd (get_storage_context "loc10" "pg" None
                   (snd (get_storage_context "loc0" "pg" None w_full))))
     = drop 2 (full_cache 1000)
       ++ [mkLink (cache_key "loc0" "pg" None) (empty_storage_context "pg")
             1000;
           mkLink (cache_key "loc10" "pg" None) (empty_storage_context "pg")
             (0 + ttl)].
Proof.
  apply (storage_context_cache_read_protects "loc0" "loc10" "pg" None w_full
           (mkLink (cache_key "loc0" "pg" None) (empty_storage_context "pg")
              1000)
           (mkLink (cache_key "loc1" "pg" None) (empty_storage_context "pg")
              1000)
           (drop 2 (full_cache 1000)) (mkPersisted ∅ ∅)).
  - reflexivity.
  - reflexivity.
  - repeat constructor.
  - apply NoDup_ListNoDup. vm_compute.
    repeat (constructor; [simpl; intuition discriminate|]). constructor.
  - reflexivity.
  - reflexivity.
  - reflexivity.
Defined.



(* ===================================================================== *)
(** * 16. The rebuild of the indices                                      *)
(* ===================================================================== *)

Lemma for_each_app {W A S : Type} (l1 l2 : list A) (body : A -> S -> M W S)
    (s : S) (w : W) :
  for_each (l1 ++ l2) body s w
  = bind (for_each l1 body s) (for_each l2 body) w.
Proof.
  revert s w. induction l1 as [|x l1 IH]; intros s w; simpl.
  - reflexivity.
  - unfold bind. destruct (body x s w) as [[s'|e] w1]; [|reflexivity].
    rewrite IH. reflexivity.
Qed.

Lemma bind_Ok {W A B : Type} (c : M W A) (k : A -> M W B) (w w' : W)
    (a : A) :
  c w = (Ok a, w') -> bind c k w = k a w'.
Proof. intros H. unfold bind. now rewrite H. Qed.

Lemma bind_Raise {W A B : Type} (c : M W A) (k : A -> M W B) (w w' : W)
    (e : PyExc) :
  c w = (Raise e, w') -> bind c k w = (Raise e, w').
Proof. intros H. unfold bind. now rewrite H. Qed.

Lemma get_index_structs_Ok (ctx : StorageContext) (ids : list string)
    (ss : list IndexStruct) :
  get_index_structs ctx ids = Ok ss ->
  Forall2 (fun i s => index_store ctx !! i = Some (Entry s)) ids ss.
Proof.
  revert ss. induction ids as [|i ids IH]; intros ss; simpl.
  - intros [= <-]. constructor.
  - destruct (index_store ctx !! i) as [[s|]|] eqn:Hi; try discriminate.
    destruct (get_index_structs ctx ids) as [ss'|]; [|discriminate].
    intros [= <-]. constructor; [exact Hi | now apply IH].
Qed.

(** A bulk load that succeeds yields, for the ids it was asked for, the
    indices that the store holds. *)
Lemma load_indices_stored (sc : ServiceContext) (ids : list string)
    (ctx : StorageContext) (indices : list VectorStoreIndex) :
  load_indices_from_storage ctx ids sc = Ok indices ->
  indices_stored sc (vector_store ctx) (index_store ctx)
    (dict_of (zip ids indices))
  /\ (forall k, dict_get k (dict_of (zip ids indices)) <> None <-> In k ids).
Proof.
  unfold load_indices_from_storage.
  destruct (get_index_structs ctx ids) as [ss|] eqn:Hss; [|discriminate].
  intros [= <-]. apply get_index_structs_Ok in Hss.
  assert (Hf : Forall2
            (fun i index =>
               index_store ctx !! i = Some (Entry (index_struct index))
               /\ service_context index = sc
               /\ index_vector_store index = vector_store ctx)
            ids
            (map (fun s => mkVectorStoreIndex s sc (vector_store ctx)) ss)).
  { induction Hss; simpl; constructor; auto. }
  set (indices := map (fun s => mkVectorStoreIndex s sc (vector_store ctx)) ss)
    in *.
  assert (Hfst : map fst (zip ids indices) = ids)
    by (apply zip_fst; eapply Forall2_length; exact Hf).
  split.
  - intros k index Hget.
    pose proof (dict_of_get (zip ids indices) [] k) as Hd.
    fold (dict_of (zip ids indices)) in Hd. rewrite Hget in Hd.
    destruct Hd as [Hin|Hnil]; [|discriminate].
    exact (zip_In _ _ _ _ _ Hf Hin).
  - intros k.
    pose proof (dict_of_get (zip ids indices) [] k) as Hd.
    fold (dict_of (zip ids indices)) in Hd.
    destruct (dict_get k (dict_of (zip ids indices))) as [index|].
    + destruct Hd as [Hin|Hnil]; [|discriminate].
      split; [intros _|discriminate].
      rewrite <- Hfst. apply in_map_iff. now exists (k, index).
    + destruct Hd as [Hnin _]. rewrite Hfst in Hnin. tauto.
Qed.

(** What a look-up that misses leaves under the key has expired. *)
Lemma getitem_miss_expired (time : Z) (k : string) (links : list Link)
    (l : Link) :
  fst (getitem time k links) = None ->
  find_link k (snd (getitem time k links)) = Some l ->
  lk_expires l <= time.
Proof.
  unfold getitem.
  destruct (find_link k links) as [l0|] eqn:Hf; cbn [fst snd].
  - rewrite find_link_moved by now apply find_link_some in Hf.
    unfold live. destruct (Z.ltb_spec time (lk_expires l0)); [discriminate|].
    intros _ [= <-]. exact H.
  - intros _. congruence.
Qed.

(** With no live entry in the cache, the storage context that the [try]
    obtains is the one persisted at the location afterwards, and the
    entry that the cache holds then expires within [ttl]. *)
Lemma obtain_cold (dir : string) (vs : VectorStore) (fs : FileSystem)
    (w w0 : World) (ctx : StorageContext) :
  fst (getitem (now w) (cache_key dir vs fs) (cache w)) = None ->
  obtain_storage_context dir vs fs w = (Ok ctx, w0) ->
  now w0 = now w
  /\ vector_store_singleton w0 = vector_store_singleton w
  /\ (forall l, find_link (cache_key dir vs fs) (cache w0) = Some l ->
                lk_expires l <= now w + ttl)
  /\ exists p, blobs w0 !! (fs, dir) = Some (Stored p)
               /\ ctx = mkStorageContext (p_docstore p) (p_index_store p) vs.
Proof.
  intros Hcold Hobt.
  rewrite obtain_storage_context_cases in Hobt.
  rewrite (get_storage_context_miss _ _ _ _ Hcold) in Hobt.
  rewrite from_defaults_blob in Hobt.
  assert (Hempty :
    forall w', w' = set_blobs <[(fs, dir) := Stored (mkPersisted ∅ ∅)]>
                      (set_cache
                         (fun _ => snd (getitem (now w) (cache_key dir vs fs)
                                          (cache w))) w) ->
    now w' = now w
    /\ vector_store_singleton w' = vector_store_singleton w
    /\ (forall l, find_link (cache_key dir vs fs) (cache w') = Some l ->
                  lk_expires l <= now w + ttl)
    /\ exists p, blobs w' !! (fs, dir) = Some (Stored p)
                 /\ empty_storage_context vs
                    = mkStorageContext (p_docstore p) (p_index_store p) vs).
  { intros w' ->. split; [reflexivity|]. split; [reflexivity|]. split.
    - intros l Hl. cbn [cache set_blobs set_cache] in Hl.
      pose proof (getitem_miss_expired _ _ _ _ Hcold Hl).
      pose proof ttl_pos. lia.
    - exists (mkPersisted ∅ ∅). split; [apply lookup_insert_eq | reflexivity]. }
  destruct (blobs w !! (fs, dir)) as [[p|e]|] eqn:Hb.
  - injection Hobt as <- <-. split; [reflexivity|]. split; [reflexivity|].
    split.
    + intros l Hl. cbn [cache set_cache] in Hl.
      rewrite find_link_setitem in Hl. injection Hl as <-. simpl. lia.
    + exists p. split; [exact Hb | reflexivity].
  - destruct e; try discriminate.
    injection Hobt as <- <-. now apply Hempty.
  - injection Hobt as <- <-. now apply Hempty.
Qed.

(** Two mappings of indices that are stored in one index store, with the
    same keys, hold the same index under every key. *)
Lemma indices_stored_unique (sc : ServiceContext) (vs : VectorStore)
    (store : gmap string IndexEntry) (keys : list string)
    (m m' : list (string * VectorStoreIndex)) :
  indices_stored sc vs store m -> indices_stored sc vs store m' ->
  (forall k, dict_get k m <> None <-> In k keys) ->
  (forall k, dict_get k m' <> None <-> In k keys) ->
  forall k, dict_get k m' = dict_get k m.
Proof.
  intros Hst Hst' Hk Hk' k.
  destruct (dict_get k m) as [index|] eqn:Hg,
           (dict_get k m') as [index'|] eqn:Hg'.
  - destruct (Hst _ _ Hg) as (He & Hsc & Hvs).
    destruct (Hst' _ _ Hg') as (He' & Hsc' & Hvs').
    destruct index, index'. simpl in *. congruence.
  - exfalso. apply (proj2 (Hk' k)); [|exact Hg'].
    apply Hk. congruence.
  - exfalso. apply (proj2 (Hk k)); [|exact Hg].
    apply Hk'. congruence.
  - reflexivity.
Qed.



Section Rebuild_facts.

Variable S3_BUCKET_NAME : string.
Variable S3_ASSET_BUCKET_NAME : string.
Variable DB_DOC_ID_KEY : string.
Variable CLINICAL_GUIDELINE : string.
Variable process_document :
  string -> list (string * MetaArg) -> Res (list Chunk).

Local Abbreviation fetch :=
  (fetch_and_read_document S3_ASSET_BUCKET_NAME DB_DOC_ID_KEY
     CLINICAL_GUIDELINE process_document).
Local Abbreviation one :=
  (build_one S3_ASSET_BUCKET_NAME DB_DOC_ID_KEY CLINICAL_GUIDELINE
     process_document).
Local Abbreviation rebuild :=
  (rebuild_indices S3_ASSET_BUCKET_NAME DB_DOC_ID_KEY CLINICAL_GUIDELINE
     process_document).
Local Abbreviation build :=
  (build_doc_id_to_index_map S3_BUCKET_NAME S3_ASSET_BUCKET_NAME
     DB_DOC_ID_KEY CLINICAL_GUIDELINE process_document).

(** The nodes of a document as the loop tags them, the structure of its
    index, and the storage context after the document. *)
Local Abbreviation tagged doc ldocs :=
  (map (fun node : LlamaDoc =>
          mkLlamaDoc (text node) (doc_id node)
            (<["doc_id" := id_ doc]> (metadata node))) ldocs).
Local Abbreviation struct_of doc ldocs :=
  (mkIndexStruct (id_ doc) (tagged doc ldocs)).
Local Abbreviation ctx_after ctx doc ldocs :=
  (mkStorageContext
     (add_documents (tagged doc ldocs) (docstore ctx))
     (<[id_ doc := Entry (struct_of doc ldocs)]> (index_store ctx))
     (vector_store ctx)).

(** The ways a fetch can go. *)
Lemma fetch_cases (doc : DocumentSchema) (w : World) :
  fetch doc w
  = match assets w !! (S3_ASSET_BUCKET_NAME +:+ "/" +:+ last_segment (url doc))
    with
    | None => (Raise FileNotFoundError, w)
    | Some bytes =>
        match metadata_map doc with
        | None => (Raise (KeyError CLINICAL_GUIDELINE), w)
        | Some clinical =>
            match process_document bytes
                    [(DB_DOC_ID_KEY, MetaStr (id_ doc));
                     (CLINICAL_GUIDELINE, MetaClinical clinical)]
            with
            | Ok nodes =>
                (Ok (map (fun node =>
                            mkLlamaDoc (chunk_text node) (id_ doc)
                              (chunk_metadata node)) nodes),
                 add_chunk_call w)
            | Raise e => (Raise e, add_chunk_call w)
            end
        end
    end.
Proof.
  unfold fetch_and_read_document, bind, gets, raise, modify, lift, ret.
  destruct (assets w !! _) as [bytes|]; [|reflexivity].
  destruct (metadata_map doc) as [clinical|]; [|reflexivity].
  destruct (process_document bytes _); reflexivity.
Qed.

(** A fetch runs the chunker once at most and changes nothing else; the
    documents it returns carry the id of the document. *)
Lemma fetch_world (doc : DocumentSchema) (w : World) :
  snd (fetch doc w) = w \/ snd (fetch doc w) = add_chunk_call w.
Proof.
  rewrite fetch_cases.
  destruct (assets w !! _) as [bytes|]; [|now left].
  destruct (metadata_map doc) as [clinical|]; [|now left].
  destruct (process_document bytes _); now right.
Qed.

Lemma fetch_ok (doc : DocumentSchema) (w w1 : World)
    (ldocs : list LlamaDoc) :
  fetch doc w = (Ok ldocs, w1) ->
  w1 = add_chunk_call w
  /\ List.Forall (fun n => doc_id n = id_ doc) ldocs.
Proof.
  rewrite fetch_cases.
  destruct (assets w !! _) as [bytes|]; [|discriminate].
  destruct (metadata_map doc) as [clinical|]; [|discriminate].
  destruct (process_document bytes _) as [nodes|e]; [|discriminate].
  intros [= <- <-]. split; [reflexivity|].
  apply List.Forall_forall. intros n Hn.
  apply in_map_iff in Hn as (c & <- & _). reflexivity.
Qed.

(** One round of the loop. *)
Lemma build_one_cases (sc : ServiceContext) (dir : string) (fs : FileSystem)
    (doc : DocumentSchema) (ctx : StorageContext)
    (acc : list (string * VectorStoreIndex)) (w : World) :
  one sc dir fs doc (ctx, acc) w
  = match fetch doc w with
    | (Raise e, w1) => (Raise e, w1)
    | (Ok ldocs, w1) =>
        (Ok (ctx_after ctx doc ldocs,
             dict_set (id_ doc)
               (mkVectorStoreIndex (struct_of doc ldocs) sc (vector_store ctx))
               acc),
         set_blobs
           <[(fs, dir) :=
               Stored (mkPersisted
                         (add_documents (tagged doc ldocs) (docstore ctx))
                         (<[id_ doc := Entry (struct_of doc ldocs)]>
                            (index_store ctx)))]>
           (add_embeddings (vector_store ctx) (tagged doc ldocs) w1))
    end.
Proof.
  unfold build_one, bind.
  destruct (fetch doc w) as [[ldocs|e] w1]; reflexivity.
Qed.

(** What holds before the loop and is kept by every round that succeeds
    holds after the loop; [done] are the documents that were built. *)
Lemma rebuild_loop_ind (sc : ServiceContext) (dir : string) (fs : FileSystem)
    (P : list DocumentSchema -> StorageContext ->
         list (string * VectorStoreIndex) -> World -> Prop) :
  (forall done doc ctx acc w ldocs,
      P done ctx acc w ->
      fetch doc w = (Ok ldocs, add_chunk_call w) ->
      List.Forall (fun n => doc_id n = id_ doc) ldocs ->
      P (done ++ [doc]) (ctx_after ctx doc ldocs)
        (dict_set (id_ doc)
           (mkVectorStoreIndex (struct_of doc ldocs) sc (vector_store ctx))
           acc)
        (set_blobs
           <[(fs, dir) :=
               Stored (mkPersisted
                         (add_documents (tagged doc ldocs) (docstore ctx))
                         (<[id_ doc := Entry (struct_of doc ldocs)]>
                            (index_store ctx)))]>
           (add_embeddings (vector_store ctx) (tagged doc ldocs)
              (add_chunk_call w)))) ->
  forall docs done ctx acc w ctx' acc' w',
    P done ctx acc w ->
    for_each docs (one sc dir fs) (ctx, acc) w = (Ok (ctx', acc'), w') ->
    P (done ++ docs) ctx' acc' w'.
Proof.
  intros Hstep docs.
  induction docs as [|doc docs IH]; intros done ctx acc w ctx' acc' w' HP Hrun.
  - simpl in Hrun. injection Hrun as <- <- <-. now rewrite app_nil_r.
  - cbn [for_each] in Hrun. unfold bind at 1 in Hrun.
    rewrite build_one_cases in Hrun.
    destruct (fetch doc w) as [[ldocs|e] w1] eqn:Hfetch; [|discriminate].
    destruct (fetch_ok _ _ _ _ Hfetch) as [-> Hids].
    replace (done ++ doc :: docs) with ((done ++ [doc]) ++ docs)
      by now rewrite <- app_assoc.
    eapply IH; [|exact Hrun].
    now apply Hstep.
Qed.

Lemma fetch_ok_chunks (doc : DocumentSchema) (w w1 : World)
    (ldocs : list LlamaDoc) :
  fetch doc w = (Ok ldocs, w1) ->
  exists bytes clinical nodes,
    assets w !! (S3_ASSET_BUCKET_NAME +:+ "/" +:+ last_segment (url doc))
    = Some bytes
    /\ metadata_map doc = Some clinical
    /\ process_document bytes
         [(DB_DOC_ID_KEY, MetaStr (id_ doc));
          (CLINICAL_GUIDELINE, MetaClinical clinical)] = Ok nodes
    /\ ldocs = map (fun node =>
                      mkLlamaDoc (chunk_text node) (id_ doc)
                        (chunk_metadata node)) nodes.
Proof.
  rewrite fetch_cases.
  destruct (assets w !! _) as [bytes|]; [|discriminate].
  destruct (metadata_map doc) as [clinical|]; [|discriminate].
  destruct (process_document bytes _) as [nodes|e] eqn:Hp; [|discriminate].
  intros [= <- <-]. now exists bytes, clinical, nodes.
Qed.

(** The rebuild reads the location and runs the loop from what it
    finds. *)
Lemma rebuild_unfold (sc : ServiceContext) (dir : string) (vs : VectorStore)
    (fs : FileSystem) (docs : list DocumentSchema) (w : World) :
  rebuild sc dir vs fs docs w
  = match blobs w !! (fs, dir) with
    | None => (Raise FileNotFoundError, w)
    | Some (Unreadable e) => (Raise e, w)
    | Some (Stored p) =>
        match for_each docs (one sc dir fs)
                (mkStorageContext (p_docstore p) (p_index_store p) vs, []) w
        with
        | (Ok final, w') => (Ok (snd final), w')
        | (Raise e, w') => (Raise e, w')
        end
    end.
Proof.
  unfold rebuild_indices, bind at 1.
  pose proof (from_defaults_pure (Some dir) vs fs w) as Hp.
  pose proof (from_defaults_blob dir vs fs w) as Hb.
  destruct (from_defaults (Some dir) vs fs w) as [r w0].
  cbn [fst snd] in Hp, Hb. subst w0 r.
  destruct (blobs w !! (fs, dir)) as [[p|e]|]; reflexivity.
Qed.

(** The mapping and the storage context of the loop: the mapping has the
    ids of the documents that were built as its keys, each index is the
    one stored under its key and made of tagged nodes, and what is
    persisted is the storage context of the loop. *)
Lemma rebuild_loop_mapping (sc : ServiceContext) (dir : string)
    (fs : FileSystem) (docs : list DocumentSchema) (ctx0 : StorageContext)
    (w0 : World) (ctx' : StorageContext)
    (m : list (string * VectorStoreIndex)) (w' : World) :
  for_each docs (one sc dir fs) (ctx0, []) w0 = (Ok (ctx', m), w') ->
  vector_store ctx' = vector_store ctx0
  /\ indices_stored sc (vector_store ctx0) (index_store ctx') m
  /\ (forall k, dict_get k m <> None <-> In k (map id_ docs))
  /\ (forall k index, dict_get k m = Some index ->
        index_id (index_struct index) = k
        /\ List.Forall (tagged_with k) (nodes (index_struct index)))
  /\ (docs <> [] ->
      blobs w' !! (fs, dir)
      = Some (Stored (mkPersisted (docstore ctx') (index_store ctx')))).
Proof.
  intros Hrun.
  apply (rebuild_loop_ind sc dir fs
    (fun done ctx acc w =>
       vector_store ctx = vector_store ctx0
       /\ indices_stored sc (vector_store ctx0) (index_store ctx) acc
       /\ (forall k, dict_get k acc <> None <-> In k (map id_ done))
       /\ (forall k index, dict_get k acc = Some index ->
             index_id (index_struct index) = k
             /\ List.Forall (tagged_with k) (nodes (index_struct index)))
       /\ (done <> [] ->
           blobs w !! (fs, dir)
           = Some (Stored (mkPersisted (docstore ctx) (index_store ctx)))))
    ) with (done := []) (docs := docs) (ctx := ctx0) (acc := []) (w := w0);
    [| |exact Hrun].
  - clear. intros done doc ctx acc w ldocs (Hvs & Hst & Hkeys & Htag & _)
      _ Hids.
    split; [exact Hvs|]. split; [|split; [|split]].
    + intros k index Hget. rewrite dict_get_set in Hget.
      cbn [index_store]. destruct (decide (k = id_ doc)) as [->|Hne].
      * rewrite bool_decide_eq_true_2 in Hget by reflexivity.
        injection Hget as <-. rewrite lookup_insert_eq. now repeat split.
      * rewrite bool_decide_eq_false_2 in Hget by assumption.
        rewrite lookup_insert_ne by congruence. now apply Hst.
    + intros k. rewrite dict_get_set, map_app, in_app_iff. simpl.
      destruct (decide (k = id_ doc)) as [->|Hne].
      * rewrite bool_decide_eq_true_2 by reflexivity.
        split; [intros _; right; now left | discriminate].
      * rewrite bool_decide_eq_false_2 by assumption. rewrite Hkeys.
        split; [now left | intros [H|[H|[]]]; [exact H | congruence]].
    + intros k index Hget. rewrite dict_get_set in Hget.
      destruct (decide (k = id_ doc)) as [->|Hne].
      * rewrite bool_decide_eq_true_2 in Hget by reflexivity.
        injection Hget as <-. split; [reflexivity|].
        cbn [index_struct nodes]. apply List.Forall_forall. intros n Hn.
        apply in_map_iff in Hn as (n0 & <- & Hn0).
        rewrite List.Forall_forall in Hids.
        split; [exact (Hids n0 Hn0) | apply lookup_insert_eq].
      * rewrite bool_decide_eq_false_2 in Hget by assumption.
        now apply Htag.
    + intros _. cbn [blobs set_blobs docstore index_store].
      apply lookup_insert_eq.
  - split; [reflexivity|]. split; [intros k index; discriminate|].
    split; [intros k; simpl; tauto|].
    split; [intros k index; discriminate | congruence].
Qed.

(** The world of the loop: the chunker has run once for every document,
    the other locations of the blob store are untouched, and nothing but
    index work and writes of persisted state happened. *)
Lemma rebuild_loop_world (sc : ServiceContext) (dir : string)
    (fs : FileSystem) (docs : list DocumentSchema) (ctx0 : StorageContext)
    (w0 : World) (ctx' : StorageContext)
    (m : list (string * VectorStoreIndex)) (w' : World) :
  for_each docs (one sc dir fs) (ctx0, []) w0 = (Ok (ctx', m), w') ->
  index_work_only w0 w'
  /\ chunk_calls w' = (chunk_calls w0 + length docs)%nat
  /\ (forall loc, loc <> (fs, dir) -> blobs w' !! loc = blobs w0 !! loc)
  /\ (docs = [] -> blobs w' = blobs w0 /\ ctx' = ctx0).
Proof.
  intros Hrun.
  apply (rebuild_loop_ind sc dir fs
    (fun done ctx acc w =>
       index_work_only w0 w
       /\ chunk_calls w = (chunk_calls w0 + length done)%nat
       /\ (forall loc, loc <> (fs, dir) -> blobs w !! loc = blobs w0 !! loc)
       /\ (done = [] -> blobs w = blobs w0 /\ ctx = ctx0))
    ) with (done := []) (docs := docs) (ctx := ctx0) (acc := []) (w := w0)
           (acc' := m); [| |exact Hrun].
  - clear. intros done doc ctx acc w ldocs (Hw & Hc & Hb & _) _ _.
    split; [exact Hw|]. split; [|split].
    + cbn [chunk_calls set_blobs add_embeddings add_chunk_call].
      rewrite Hc, length_app. simpl. lia.
    + intros loc Hloc. cbn [blobs set_blobs add_embeddings add_chunk_call].
      rewrite lookup_insert_ne by congruence. now apply Hb.
    + intros Hnil. now destruct done.
  - repeat split; try reflexivity. simpl. lia.
Qed.

(** What the loop writes to the vector store: every new row is in the
    vector store of the storage context and is a tagged node of one of
    the documents, there is one embedding per row, and the nodes of every
    index of the mapping are among the rows. *)
Lemma rebuild_loop_rows (sc : ServiceContext) (dir : string)
    (fs : FileSystem) (docs : list DocumentSchema) (ctx0 : StorageContext)
    (w0 : World) (ctx' : StorageContext)
    (m : list (string * VectorStoreIndex)) (w' : World) :
  for_each docs (one sc dir fs) (ctx0, []) w0 = (Ok (ctx', m), w') ->
  (exists new : list (VectorStore * LlamaDoc),
      vector_rows w' = vector_rows w0 ++ new
      /\ embed_calls w' = (embed_calls w0 + length new)%nat
      /\ List.Forall
           (fun r => fst r = vector_store ctx0
                     /\ exists d, In d docs /\ tagged_with (id_ d) (snd r))
           new)
  /\ (forall k index n,
        dict_get k m = Some index -> In n (nodes (index_struct index)) ->
        In (vector_store ctx0, n) (vector_rows w')).
Proof.
  intros Hrun.
  apply (rebuild_loop_ind sc dir fs
    (fun done ctx acc w =>
       vector_store ctx = vector_store ctx0
       /\ (exists new : list (VectorStore * LlamaDoc),
             vector_rows w = vector_rows w0 ++ new
             /\ embed_calls w = (embed_calls w0 + length new)%nat
             /\ List.Forall
                  (fun r => fst r = vector_store ctx0
                            /\ exists d, In d done
                                         /\ tagged_with (id_ d) (snd r))
                  new)
       /\ (forall k index n,
             dict_get k acc = Some index ->
             In n (nodes (index_struct index)) ->
             In (vector_store ctx0, n) (vector_rows w)))
    ) with (done := []) (docs := docs) (ctx := ctx0) (acc := []) (w := w0)
    in Hrun.
  - destruct Hrun as (_ & Hnew & Hin). now split.
  - clear. intros done doc ctx acc w ldocs (Hvs & Hnew & Hin) _ Hids.
    destruct Hnew as (new & Hrows & Hemb & Hall).
    split; [exact Hvs|]. split.
    + exists (new ++ map (fun d => (vector_store ctx0, d)) (tagged doc ldocs)).
      cbn [vector_rows embed_calls set_blobs add_embeddings add_chunk_call].
      rewrite Hvs, Hrows, Hemb, !length_app, !length_map, <- app_assoc.
      split; [reflexivity|]. split; [lia|].
      apply List.Forall_app. split.
      * eapply List.Forall_impl; [|exact Hall].
        intros r (Hr & d & Hd & Ht). split; [exact Hr|].
        exists d. split; [apply in_or_app; now left | exact Ht].
      * apply List.Forall_forall. intros r Hr.
        apply in_map_iff in Hr as (n & <- & Hn).
        apply in_map_iff in Hn as (n0 & <- & Hn0).
        split; [reflexivity|]. exists doc.
        split; [apply in_or_app; right; now left|].
        rewrite List.Forall_forall in Hids.
        split; [exact (Hids n0 Hn0) | apply lookup_insert_eq].
    + intros k index n Hget Hn.
      cbn [vector_rows set_blobs add_embeddings add_chunk_call].
      apply in_or_app. rewrite dict_get_set in Hget.
      destruct (decide (k = id_ doc)) as [->|Hne].
      * rewrite bool_decide_eq_true_2 in Hget by reflexivity.
        injection Hget as <-. right. rewrite Hvs.
        now apply (in_map (fun d => (vector_store ctx0, d))).
      * rewrite bool_decide_eq_false_2 in Hget by assumption.
        left. now apply (Hin k index n).
  - split; [reflexivity|]. split.
    + exists []. rewrite app_nil_r. repeat split; [simpl; lia | constructor].
    + intros k index n; discriminate.
Qed.

(** X7. A rebuild that succeeds has run the chunker exactly once for
    every requested document and maps exactly the requested document ids;
    the index of an id carries that id, the service context and the
    vector store of the call, is made of nodes tagged with the id, and is
    the one persisted under the id at the location. *)
Theorem rebuild_indexes_every_document (sc : ServiceContext) (dir : string)
    (vs : VectorStore) (fs : FileSystem) (docs : list DocumentSchema)
    (w w' : World) (m : list (string * VectorStoreIndex)) :
  rebuild sc dir vs fs docs w = (Ok m, w') ->
  chunk_calls w' = (chunk_calls w + length docs)%nat
  /\ (forall k, In k (map id_ docs) <-> dict_get k m <> None)
  /\ forall k index,
       dict_get k m = Some index ->
       index_id (index_struct index) = k
       /\ service_context index = sc
       /\ index_vector_store index = vs
       /\ List.Forall (tagged_with k) (nodes (index_struct index))
       /\ exists p,
            blobs w' !! (fs, dir) = Some (Stored p)
            /\ p_index_store p !! k = Some (Entry (index_struct index)).
Proof.
  intros Hre. rewrite rebuild_unfold in Hre.
  destruct (blobs w !! (fs, dir)) as [[p|e]|]; try discriminate.
  destruct (for_each docs _ _ w) as [[[ctx' m']|e] w''] eqn:Hrun;
    [|discriminate].
  injection Hre as <- <-.
  destruct (rebuild_loop_mapping _ _ _ _ _ _ _ _ _ Hrun)
    as (_ & Hst & Hkeys & Htag & Hblob).
  destruct (rebuild_loop_world _ _ _ _ _ _ _ _ _ Hrun) as (_ & Hc & _).
  split; [exact Hc|]. split; [intros k; symmetry; apply Hkeys|].
  intros k index Hget.
  destruct (Hst k index Hget) as (Hentry & Hsc & Hvs).
  destruct (Htag k index Hget) as (Hid & Hnodes).
  repeat split; try assumption.
  exists (mkPersisted (docstore ctx') (index_store ctx')).
  split; [|exact Hentry].
  apply Hblob. intros ->.
  apply (proj1 (Hkeys k)); congruence.
Qed.

(** X8. What a rebuild that succeeds writes to the vector store: the
    rows that were there stay, every new row is in the vector store of
    the call and is a node tagged with the id of a requested document,
    and there is exactly one embedding per new row. *)
Theorem rebuild_vector_rows (sc : ServiceContext) (dir : string)
    (vs : VectorStore) (fs : FileSystem) (docs : list DocumentSchema)
    (w w' : World) (m : list (string * VectorStoreIndex)) :
  rebuild sc dir vs fs docs w = (Ok m, w') ->
  exists new : list (VectorStore * LlamaDoc),
    vector_rows w' = vector_rows w ++ new
    /\ embed_calls w' = (embed_calls w + length new)%nat
    /\ List.Forall
         (fun r => fst r = vs
                   /\ exists d, In d docs /\ tagged_with (id_ d) (snd r))
         new.
Proof.
  intros Hre. rewrite rebuild_unfold in Hre.
  destruct (blobs w !! (fs, dir)) as [[p|e]|]; try discriminate.
  destruct (for_each docs _ _ w) as [[[ctx' m']|e] w''] eqn:Hrun;
    [|discriminate].
  injection Hre as <- <-.
  exact (proj1 (rebuild_loop_rows _ _ _ _ _ _ _ _ _ Hrun)).
Qed.

(** The document-id metadata of the nodes of the loop, for a chunker that
    hands the document id on to its nodes. *)
Lemma rebuild_loop_doc_id_key (sc : ServiceContext) (dir : string)
    (fs : FileSystem) (docs : list DocumentSchema) (ctx0 : StorageContext)
    (w0 : World) (ctx' : StorageContext)
    (m : list (string * VectorStoreIndex)) (w' : World) :
  (forall bytes meta chunks c i,
      process_document bytes meta = Ok chunks -> In c chunks ->
      dict_get DB_DOC_ID_KEY meta = Some (MetaStr i) ->
      chunk_metadata c !! DB_DOC_ID_KEY = Some i) ->
  for_each docs (one sc dir fs) (ctx0, []) w0 = (Ok (ctx', m), w') ->
  forall k index n,
    dict_get k m = Some index -> In n (nodes (index_struct index)) ->
    metadata n !! DB_DOC_ID_KEY = Some k.
Proof.
  intros Hchunker Hrun.
  apply (rebuild_loop_ind sc dir fs
    (fun done ctx acc w =>
       forall k index n,
         dict_get k acc = Some index -> In n (nodes (index_struct index)) ->
         metadata n !! DB_DOC_ID_KEY = Some k)
    ) with (done := []) (docs := docs) (ctx := ctx0) (acc := []) (w := w0)
           (ctx' := ctx') (w' := w'); [| |exact Hrun].
  - clear - Hchunker. intros done doc ctx acc w ldocs Hacc Hfetch _.
    intros k index n Hget Hn. rewrite dict_get_set in Hget.
    destruct (decide (k = id_ doc)) as [->|Hne].
    + rewrite bool_decide_eq_true_2 in Hget by reflexivity.
      injection Hget as <-. cbn [index_struct nodes] in Hn.
      apply in_map_iff in Hn as (n0 & <- & Hn0). cbn [metadata].
      destruct (decide (DB_DOC_ID_KEY = "doc_id")) as [->|Hkey];
        [apply lookup_insert_eq|].
      rewrite lookup_insert_ne by congruence.
      destruct (fetch_ok_chunks _ _ _ _ Hfetch)
        as (bytes & clinical & chunks & _ & _ & Hp & ->).
      apply in_map_iff in Hn0 as (c & <- & Hc). cbn [metadata].
      apply (Hchunker _ _ _ c (id_ doc) Hp Hc).
      simpl. now rewrite bool_decide_eq_true_2.
    + rewrite bool_decide_eq_false_2 in Hget by assumption.
      now apply (Hacc k index n).
  - intros k index n; discriminate.
Qed.

(** X9. After a rebuild the query engine of a document finds the nodes
    that the rebuild wrote for it: with a chunker that hands the document
    id on to the metadata of its nodes, every node of the index of a
    document is a row of the vector store of the index and passes the
    filter of the retriever of the document, so that a document whose
    index has a node is never answered from an empty retrieval. *)
Theorem rebuilt_nodes_are_retrievable (sc : ServiceContext) (dir : string)
    (vs : VectorStore) (fs : FileSystem) (docs : list DocumentSchema)
    (w w' : World) (m : list (string * VectorStoreIndex)) :
  (forall bytes meta chunks c i,
      process_document bytes meta = Ok chunks -> In c chunks ->
      dict_get DB_DOC_ID_KEY meta = Some (MetaStr i) ->
      chunk_metadata c !! DB_DOC_ID_KEY = Some i) ->
  rebuild sc dir vs fs docs w = (Ok m, w') ->
  forall k index,
    dict_get k m = Some index ->
    let r := retriever (index_to_query_engine DB_DOC_ID_KEY k index docs) in
    (forall n, In n (nodes (index_struct index)) ->
               In n (rows_of (index_vector_store index) w')
               /\ passes (filters r) n = true)
    /\ forall (similarity : string -> LlamaDoc -> Z) (query : string),
         nodes (index_struct index) <> [] ->
         retrieve similarity r query w' <> [].
Proof.
  intros Hchunker Hre k index Hget r. rewrite rebuild_unfold in Hre.
  destruct (blobs w !! (fs, dir)) as [[p|e]|]; try discriminate.
  destruct (for_each docs _ _ w) as [[[ctx' m']|e] w''] eqn:Hrun;
    [|discriminate].
  injection Hre as <- <-.
  destruct (rebuild_loop_mapping _ _ _ _ _ _ _ _ _ Hrun)
    as (_ & Hst & _).
  destruct (rebuild_loop_rows _ _ _ _ _ _ _ _ _ Hrun) as (_ & Hrows).
  pose proof (rebuild_loop_doc_id_key _ _ _ _ _ _ _ _ _ Hchunker Hrun)
    as Hkey.
  destruct (Hst k index Hget) as (_ & _ & Hvs). cbn [vector_store] in *.
  assert (Hnodes : forall n, In n (nodes (index_struct index)) ->
            In n (rows_of (index_vector_store index) w'')
            /\ passes (filters r) n = true).
  { intros n Hn. split.
    - unfold rows_of. apply in_map_iff. exists (vs, n).
      split; [reflexivity|]. apply filter_In.
      split; [exact (Hrows k index n Hget Hn)|].
      apply bool_decide_eq_true. now rewrite Hvs.
    - apply passes_one_filter. exact (Hkey k index n Hget Hn). }
  split; [exact Hnodes|].
  intros similarity query Hne.
  destruct (nodes (index_struct index)) as [|n ns] eqn:Hns; [congruence|].
  destruct (Hnodes n (or_introl eq_refl)) as [Hrow Hpass].
  unfold retrieve.
  assert (Hin : In n (sorted_by (fun node => - similarity query node)
                        (List.filter (passes (filters r))
                           (rows_of (index_vector_store
                                       (retriever_index r)) w'')))).
  { apply sorted_by_In, filter_In. now split. }
  destruct (sorted_by _ _) as [|x xs]; [contradiction|].
  discriminate.
Qed.

(** X10. The rebuild does not roll back: when the documents [pre] are
    rebuilt and the fetch of the next document fails, the rebuild raises
    that failure, the documents after it are not touched, and what was
    persisted and written for [pre] stays: the index of every document of
    [pre] is persisted at the location. *)
Theorem rebuild_failure_keeps_earlier_indices (sc : ServiceContext)
    (dir : string) (vs : VectorStore) (fs : FileSystem)
    (pre post : list DocumentSchema) (d : DocumentSchema) (w w1 : World)
    (m : list (string * VectorStoreIndex)) (e : PyExc) :
  rebuild sc dir vs fs pre w = (Ok m, w1) ->
  fst (fetch d w1) = Raise e ->
  let r := rebuild sc dir vs fs (pre ++ d :: post) w in
  fst r = Raise e
  /\ blobs (snd r) = blobs w1
  /\ vector_rows (snd r) = vector_rows w1
  /\ embed_calls (snd r) = embed_calls w1
  /\ (chunk_calls (snd r) <= chunk_calls w1 + 1)%nat
  /\ forall d', In d' pre -> index_persisted fs dir (id_ d') (snd r) = true.
Proof.
  intros Hre Hfetch. cbv zeta. rewrite rebuild_unfold in Hre.
  rewrite (rebuild_unfold sc dir vs fs (pre ++ d :: post) w).
  destruct (blobs w !! (fs, dir)) as [[p|e']|]; try discriminate.
  destruct (for_each pre _ _ w) as [[[ctx' m']|e'] w''] eqn:Hrun;
    [|discriminate].
  injection Hre as <- <-.
  pose proof (fetch_world d w'') as Hw.
  assert (Hone : one sc dir fs d (ctx', m') w''
                 = (Raise e, snd (fetch d w''))).
  { rewrite build_one_cases.
    destruct (fetch d w'') as [[ldocs|e'] w2]; cbn [fst snd] in *;
      [discriminate | congruence]. }
  rewrite for_each_app, (bind_Ok _ _ _ _ _ Hrun). cbn [for_each].
  rewrite (bind_Raise _ _ _ _ _ Hone). cbn [fst snd].
  set (w2 := snd (fetch d w'')) in *.
  assert (Hsame : blobs w2 = blobs w''
                  /\ vector_rows w2 = vector_rows w''
                  /\ embed_calls w2 = embed_calls w''
                  /\ (chunk_calls w2 <= chunk_calls w'' + 1)%nat).
  { destruct Hw as [->| ->]; simpl; repeat split; lia. }
  destruct Hsame as (Hb & Hr & He & Hc).
  split; [reflexivity|]. split; [exact Hb|]. split; [exact Hr|].
  split; [exact He|]. split; [exact Hc|].
  intros d' Hd'.
  destruct (rebuild_loop_mapping _ _ _ _ _ _ _ _ _ Hrun)
    as (_ & Hst & Hkeys & _ & Hblob).
  unfold index_persisted. rewrite Hb, Hblob by (intros ->; contradiction).
  cbn [p_index_store].
  destruct (dict_get (id_ d') m') as [index|] eqn:Hget.
  - destruct (Hst _ _ Hget) as (-> & _). reflexivity.
  - exfalso. apply (proj2 (Hkeys (id_ d'))); [now apply in_map | exact Hget].
Qed.

(** A rebuild that succeeds leaves, persisted at the location, the
    indices of its mapping. *)
Lemma rebuild_stored (sc : ServiceContext) (dir : string) (vs : VectorStore)
    (fs : FileSystem) (docs : list DocumentSchema) (w w1 : World)
    (m : list (string * VectorStoreIndex)) :
  rebuild sc dir vs fs docs w = (Ok m, w1) ->
  index_work_only w w1
  /\ (forall k, dict_get k m <> None <-> In k (map id_ docs))
  /\ exists p, blobs w1 !! (fs, dir) = Some (Stored p)
               /\ indices_stored sc vs (p_index_store p) m.
Proof.
  intros Hre. rewrite rebuild_unfold in Hre.
  destruct (blobs w !! (fs, dir)) as [[p|e]|] eqn:Hblob0; try discriminate.
  destruct (for_each docs _ _ w) as [[[ctx' m']|e] w''] eqn:Hrun;
    [|discriminate].
  injection Hre as <- <-.
  destruct (rebuild_loop_mapping _ _ _ _ _ _ _ _ _ Hrun)
    as (_ & Hst & Hkeys & _ & Hblob).
  destruct (rebuild_loop_world _ _ _ _ _ _ _ _ _ Hrun)
    as (Hw & _ & _ & Hnil).
  split; [exact Hw|]. split; [exact Hkeys|].
  destruct docs as [|d docs].
  - destruct (Hnil eq_refl) as [Hb ->]. exists p.
    split; [now rewrite Hb | exact Hst].
  - exists (mkPersisted (docstore ctx') (index_store ctx')).
    split; [now apply Hblob | exact Hst].
Qed.

(** A build that starts with no live entry in the cache and succeeds
    leaves, persisted at the location, the indices of its mapping; the
    clock has not moved, and what the cache holds for the location
    expires within [ttl]. *)
Lemma build_cold_persisted (sc : ServiceContext) (docs : list DocumentSchema)
    (fs : FileSystem) (w w1 : World) (m : list (string * VectorStoreIndex)) :
  fst (getitem (now w)
         (cache_key S3_BUCKET_NAME (vector_store_singleton w) fs) (cache w))
  = None ->
  build sc docs fs w = (Ok m, w1) ->
  now w1 = now w
  /\ vector_store_singleton w1 = vector_store_singleton w
  /\ (forall l,
        find_link (cache_key S3_BUCKET_NAME (vector_store_singleton w) fs)
          (cache w1) = Some l ->
        lk_expires l <= now w + ttl)
  /\ (forall k, dict_get k m <> None <-> In k (map id_ docs))
  /\ exists p, blobs w1 !! (fs, S3_BUCKET_NAME) = Some (Stored p)
               /\ indices_stored sc (vector_store_singleton w)
                    (p_index_store p) m.
Proof.
  intros Hcold Hbuild.
  rewrite (build_unfold S3_BUCKET_NAME S3_ASSET_BUCKET_NAME DB_DOC_ID_KEY
             CLINICAL_GUIDELINE process_document) in Hbuild.
  rewrite load_phase_unfold in Hbuild.
  destruct (obtain_storage_context S3_BUCKET_NAME (vector_store_singleton w)
              fs w) as [[ctx|e] w0] eqn:Hobt.
  - destruct (obtain_cold _ _ _ _ _ _ Hcold Hobt)
      as (Hnow & Hvs & Hexp & p & Hblob & ->).
    destruct (load_indices_from_storage _ (map id_ docs) sc)
      as [indices|e] eqn:Hload.
    + injection Hbuild as <- <-.
      destruct (load_indices_stored _ _ _ _ Hload) as [Hst Hkeys].
      split; [exact Hnow|]. split; [exact Hvs|]. split; [exact Hexp|].
      split; [exact Hkeys|]. exists p. now split.
    + destruct (is_ValueError e); [|discriminate].
      destruct (rebuild_stored _ _ _ _ _ _ _ _ Hbuild)
        as ((Hn & _ & Hc & Hs & _) & Hkeys & Hst).
      split; [congruence|]. split; [congruence|].
      split; [now rewrite Hc|]. split; [exact Hkeys | exact Hst].
  - exfalso.
    rewrite obtain_storage_context_cases in Hobt.
    pose proof (get_storage_context_no_index_work S3_BUCKET_NAME
                  (vector_store_singleton w) fs w) as [_ Hblobs].
    destruct (get_storage_context S3_BUCKET_NAME (vector_store_singleton w)
                fs w) as [[ctx|e'] w0'] eqn:Hget; [discriminate|].
    cbn [snd] in Hblobs.
    destruct (get_storage_context_raises _ _ _ _ _ _ Hget)
      as [[_ ->]|Hblob]; [discriminate|].
    assert (e' = e /\ w0' = w0) as [-> ->]
      by (destruct e'; try discriminate; now injection Hobt).
    destruct (is_ValueError e); [|discriminate].
    rewrite rebuild_unfold, Hblobs, Hblob in Hbuild. discriminate.
Qed.

(** With no live entry in the cache and an index persisted for every
    document, the build loads the persisted indices and does no index
    work. *)
Lemma build_from_persisted (sc : ServiceContext) (docs : list DocumentSchema)
    (fs : FileSystem) (w : World) (p : Persisted) :
  fst (getitem (now w)
         (cache_key S3_BUCKET_NAME (vector_store_singleton w) fs) (cache w))
  = None ->
  blobs w !! (fs, S3_BUCKET_NAME) = Some (Stored p) ->
  (forall k, In k (map id_ docs) ->
             exists s, p_index_store p !! k = Some (Entry s)) ->
  exists m w1,
    build sc docs fs w = (Ok m, w1)
    /\ no_index_work w w1 /\ blobs w1 = blobs w
    /\ (forall k, dict_get k m <> None <-> In k (map id_ docs))
    /\ indices_stored sc (vector_store_singleton w) (p_index_store p) m.
Proof.
  intros Hcold Hblob Hall.
  pose proof (get_storage_context_no_index_work S3_BUCKET_NAME
                (vector_store_singleton w) fs w) as [Hwork Hblobs].
  pose proof (get_storage_context_miss _ _ _ _ Hcold) as Hget.
  cbv zeta in Hget. rewrite from_defaults_blob, Hblob in Hget.
  rewrite Hget in Hwork, Hblobs. cbn [snd] in Hwork, Hblobs.
  set (ctx := mkStorageContext (p_docstore p) (p_index_store p)
                (vector_store_singleton w)) in *.
  destruct (get_index_structs_all ctx (map id_ docs)) as (ss & Hss & _).
  { intros i Hi. now apply Hall. }
  assert (Hload : load_indices_from_storage ctx (map id_ docs) sc
                  = Ok (map (fun s => mkVectorStoreIndex s sc
                                        (vector_store ctx)) ss))
    by (unfold load_indices_from_storage; now rewrite Hss).
  destruct (load_indices_stored _ _ _ _ Hload) as [Hst Hkeys].
  eexists _, _. split.
  - rewrite (build_unfold S3_BUCKET_NAME S3_ASSET_BUCKET_NAME DB_DOC_ID_KEY
               CLINICAL_GUIDELINE process_document).
    rewrite load_phase_unfold, obtain_storage_context_cases, Hget.
    fold ctx. rewrite Hload. reflexivity.
  - split; [exact Hwork|]. split; [exact Hblobs|]. now split.
Qed.

(** X11. What a build persists is what a later build loads: when a build
    that finds no live entry in the cache succeeds, a build for the same
    documents [ttl] or more later loads the persisted indices in one go,
    with no chunking, no embedding and no write, and returns the same
    index for every document id. *)
Theorem build_round_trip (sc : ServiceContext) (docs : list DocumentSchema)
    (fs : FileSystem) (w w1 : World) (m : list (string * VectorStoreIndex))
    (d : Z) :
  fst (getitem (now w)
         (cache_key S3_BUCKET_NAME (vector_store_singleton w) fs) (cache w))
  = None ->
  build sc docs fs w = (Ok m, w1) ->
  ttl <= d ->
  exists m' w2,
    build sc docs fs (elapse d w1) = (Ok m', w2)
    /\ no_index_work (elapse d w1) w2
    /\ blobs w2 = blobs w1
    /\ forall k, dict_get k m' = dict_get k m.
Proof.
  intros Hcold Hbuild Hd.
  destruct (build_cold_persisted _ _ _ _ _ _ Hcold Hbuild)
    as (Hnow & Hvs & Hexp & Hkeys & p & Hblob & Hst).
  assert (Hcold2 :
    fst (getitem (now (elapse d w1))
           (cache_key S3_BUCKET_NAME (vector_store_singleton (elapse d w1)) fs)
           (cache (elapse d w1))) = None).
  { cbn [now cache vector_store_singleton elapse set_now]. rewrite Hvs.
    unfold getitem.
    destruct (find_link _ (cache w1)) as [l|] eqn:Hf; [|reflexivity].
    cbn [fst]. unfold live. specialize (Hexp l eq_refl).
    now rewrite (proj2 (Z.ltb_ge _ _)) by lia. }
  destruct (build_from_persisted sc docs fs (elapse d w1) p Hcold2 Hblob)
    as (m' & w2 & Hbuild2 & Hwork & Hblobs & Hkeys' & Hst').
  { intros k Hk. apply Hkeys in Hk.
    destruct (dict_get k m) as [index|] eqn:Hg; [|congruence].
    destruct (Hst _ _ Hg) as (He & _). eexists. exact He. }
  exists m', w2. split; [exact Hbuild2|]. split; [exact Hwork|].
  split; [exact Hblobs|].
  cbn [vector_store_singleton elapse set_now] in Hst'. rewrite Hvs in Hst'.
  exact (indices_stored_unique _ _ _ _ _ _ Hst Hst' Hkeys Hkeys').
Qed.



End Rebuild_facts.

(** The two guidelines of the demo deployment are rebuilt from the empty
    persisted context: two runs of the chunker. *)
Lemma rebuild_indexes_every_document_witness :
  is_Ok (fst (rebuild_indices Demo.asset_bucket Demo.doc_id_key
                Demo.clinical_key Demo.one_node Demo.sc Demo.bucket "pg"
                Demo.s3 [Demo.doc_a; Demo.doc_b] Demo.w_empty)) = true
  /\ chunk_calls
       (snd (rebuild_indices Demo.asset_bucket Demo.doc_id_key
               Demo.clinical_key Demo.one_node Demo.sc Demo.bucket "pg"
               Demo.s3 [Demo.doc_a; Demo.doc_b] Demo.w_empty)) = 2%nat.
Proof.
  pose (r := rebuild_indices Demo.asset_bucket Demo.doc_id_key
               Demo.clinical_key Demo.one_node Demo.sc Demo.bucket "pg"
               Demo.s3 [Demo.doc_a; Demo.doc_b] Demo.w_empty).
  assert (Hre :
    rebuild_indices Demo.asset_bucket Demo.doc_id_key Demo.clinical_key
      Demo.one_node Demo.sc Demo.bucket "pg" Demo.s3
      [Demo.doc_a; Demo.doc_b] Demo.w_empty
    = (Ok match fst r with Ok m => m | Raise _ => [] end, snd r))
    by (vm_compute; reflexivity).
  destruct (rebuild_indexes_every_document _ _ _ _ _ _ _ _ _ _ _ _ Hre)
    as (Hc & _).
  split; [vm_compute; reflexivity | exact Hc].
Defined.

(** The same rebuild: the rows it writes. *)
Lemma rebuild_vector_rows_witness :
  exists new : list (VectorStore * LlamaDoc),
    vector_rows
      (snd (rebuild_indices Demo.asset_bucket Demo.doc_id_key
              Demo.clinical_key Demo.one_node Demo.sc Demo.bucket "pg"
              Demo.s3 [Demo.doc_a; Demo.doc_b] Demo.w_empty))
    = new
    /\ length new = 2%nat
    /\ List.Forall (fun r => fst r = "pg") new.
Proof.
  pose (r := rebuild_indices Demo.asset_bucket Demo.doc_id_key
               Demo.clinical_key Demo.one_node Demo.sc Demo.bucket "pg"
               Demo.s3 [Demo.doc_a; Demo.doc_b] Demo.w_empty).
  assert (Hre :
    rebuild_indices Demo.asset_bucket Demo.doc_id_key Demo.clinical_key
      Demo.one_node Demo.sc Demo.bucket "pg" Demo.s3
      [Demo.doc_a; Demo.doc_b] Demo.w_empty
    = (Ok match fst r with Ok m => m | Raise _ => [] end, snd r))
    by (vm_compute; reflexivity).
  destruct (rebuild_vector_rows _ _ _ _ _ _ _ _ _ _ _ _ Hre)
    as (new & Hrows & Hemb & Hall).
  exists new. split; [exact Hrows|]. split.
  - assert (He : embed_calls (snd r) = 2%nat) by (vm_compute; reflexivity).
    fold r in Hemb. rewrite He in Hemb. simpl in Hemb. congruence.
  - eapply List.Forall_impl; [|exact Hall]. intros row [Hrow _]. exact Hrow.
Defined.

(** The chunker of the demo deployment hands the document id on; after
    the rebuild the query engine of the first guideline retrieves
    something. *)
Lemma rebuilt_nodes_are_retrievable_witness :
  exists index,
    dict_get "doc-a"
      match fst (rebuild_indices Demo.asset_bucket Demo.doc_id_key
                   Demo.clinical_key Demo.one_node Demo.sc Demo.bucket "pg"
                   Demo.s3 [Demo.doc_a; Demo.doc_b] Demo.w_empty)
      with Ok m => m | Raise _ => [] end = Some index
    /\ retrieve (fun _ _ => 0)
         (retriever (index_to_query_engine Demo.doc_id_key "doc-a" index
                       [Demo.doc_a; Demo.doc_b]))
         "dose"
         (snd (rebuild_indices Demo.asset_bucket Demo.doc_id_key
                 Demo.clinical_key Demo.one_node Demo.sc Demo.bucket "pg"
                 Demo.s3 [Demo.doc_a; Demo.doc_b] Demo.w_empty))
       <> [].
Proof.
  pose (r := rebuild_indices Demo.asset_bucket Demo.doc_id_key
               Demo.clinical_key Demo.one_node Demo.sc Demo.bucket "pg"
               Demo.s3 [Demo.doc_a; Demo.doc_b] Demo.w_empty).
  pose (m := match fst r with Ok m => m | Raise _ => [] end).
  pose (index := match dict_get "doc-a" m with
                 | Some index => index
                 | None => mkVectorStoreIndex (mkIndexStruct "" []) Demo.sc ""
                 end).
  assert (Hre :
    rebuild_indices Demo.asset_bucket Demo.doc_id_key Demo.clinical_key
      Demo.one_node Demo.sc Demo.bucket "pg" Demo.s3
      [Demo.doc_a; Demo.doc_b] Demo.w_empty
    = (Ok m, snd r)) by (vm_compute; reflexivity).
  assert (Hget : dict_get "doc-a" m = Some index)
    by (vm_compute; reflexivity).
  assert (Hchunker :
    forall bytes meta chunks c i,
      Demo.one_node bytes meta = Ok chunks -> In c chunks ->
      dict_get Demo.doc_id_key meta = Some (MetaStr i) ->
      chunk_metadata c !! Demo.doc_id_key = Some i).
  { intros bytes meta chunks c i Hp Hc Hi. unfold Demo.one_node in Hp.
    injection Hp as <-. destruct Hc as [<-|[]]. cbn [chunk_metadata].
    rewrite Hi. apply lookup_insert_eq. }
  exists index. split; [exact Hget|].
  destruct (rebuilt_nodes_are_retrievable _ _ _ _ _ _ _ _ _ _ _ _ Hchunker
              Hre "doc-a" index Hget) as [_ Hfound].
  apply Hfound. vm_compute. discriminate.
Defined.

(** The first guideline is rebuilt, the file of the next document is not
    in the asset bucket: the rebuild raises, the index of the first
    guideline stays persisted. *)
Lemma rebuild_failure_keeps_earlier_indices_witness :
  let doc_c :=
    mkDocument "doc-c" "http://localstack:4566/guidelines-assets/c.pdf"
      None in
  let r := rebuild_indices Demo.asset_bucket Demo.doc_id_key
             Demo.clinical_key Demo.one_node Demo.sc Demo.bucket "pg"
             Demo.s3 ([Demo.doc_a] ++ doc_c :: [Demo.doc_b]) Demo.w_empty in
  fst r = Raise FileNotFoundError
  /\ index_persisted Demo.s3 Demo.bucket "doc-a" (snd r) = true.
Proof.
  intros doc_c r.
  pose (r1 := rebuild_indices Demo.asset_bucket Demo.doc_id_key
                Demo.clinical_key Demo.one_node Demo.sc Demo.bucket "pg"
                Demo.s3 [Demo.doc_a] Demo.w_empty).
  assert (Hre :
    rebuild_indices Demo.asset_bucket Demo.doc_id_key Demo.clinical_key
      Demo.one_node Demo.sc Demo.bucket "pg" Demo.s3 [Demo.doc_a]
      Demo.w_empty
    = (Ok match fst r1 with Ok m => m | Raise _ => [] end, snd r1))
    by (vm_compute; reflexivity).
  assert (Hfetch :
    fst (fetch_and_read_document Demo.asset_bucket Demo.doc_id_key
           Demo.clinical_key Demo.one_node doc_c (snd r1))
    = Raise FileNotFoundError) by (vm_compute; reflexivity).
  destruct (rebuild_failure_keeps_earlier_indices _ _ _ _ _ _ _ _ _
              [Demo.doc_b] _ _ _ _ _ Hre Hfetch)
    as (Hraise & _ & _ & _ & _ & Hkept).
  split; [exact Hraise|].
  exact (Hkept Demo.doc_a (or_introl eq_refl)).
Defined.

(** Nothing is persisted and nothing is cached: the two guidelines are
    built; five minutes later a build loads them. *)
Lemma build_round_trip_witness :
  exists m m' w2,
    fst (Demo.build [Demo.doc_a; Demo.doc_b] Demo.w_fresh) = Ok m
    /\ Demo.build [Demo.doc_a; Demo.doc_b]
         (elapse ttl (snd (Demo.build [Demo.doc_a; Demo.doc_b] Demo.w_fresh)))
       = (Ok m', w2)
    /\ chunk_calls w2 = 2%nat
    /\ dict_get "doc-b" m' = dict_get "doc-b" m.
Proof.
  pose (r := Demo.build [Demo.doc_a; Demo.doc_b] Demo.w_fresh).
  pose (m := match fst r with Ok m => m | Raise _ => [] end).
  assert (Hbuild :
    build_doc_id_to_index_map Demo.bucket Demo.asset_bucket Demo.doc_id_key
      Demo.clinical_key Demo.one_node Demo.sc [Demo.doc_a; Demo.doc_b]
      Demo.s3 Demo.w_fresh = (Ok m, snd r)) by (vm_compute; reflexivity).
  assert (Hcold :
    fst (getitem (now Demo.w_fresh)
           (cache_key Demo.bucket (vector_store_singleton Demo.w_fresh)
              Demo.s3) (cache Demo.w_fresh)) = None) by reflexivity.
  destruct (build_round_trip _ _ _ _ _ _ _ _ _ _ _ ttl Hcold Hbuild
              ltac:(reflexivity))
    as (m' & w2 & Hbuild2 & (Hc & _) & _ & Hsame).
  exists m, m', w2. split; [vm_compute; reflexivity|].
  split; [exact Hbuild2|]. split; [|apply Hsame].
  rewrite Hc. vm_compute. reflexivity.
Defined.


(* ===================================================================== *)
(** * 17. Fetching a document                                             *)
(* ===================================================================== *)

Lemma last_segment_no_slash (s : string) :
  ~ In "/"%char (list_ascii_of_string s) -> last_segment s = s.
Proof.
  destruct s as [|c s]; simpl; [reflexivity|].
  intros Hno.
  rewrite bool_decide_eq_false_2 by (intros ->; apply Hno; now left).
  destruct (existsb _ (list_ascii_of_string s)) eqn:Hex; [|reflexivity].
  exfalso. apply existsb_exists in Hex as (c' & Hin & Hc').
  apply bool_decide_eq_true in Hc'. subst c'. apply Hno. now right.
Qed.

Lemma existsb_slash_app (a b : string) :
  existsb (fun c => bool_decide (c = "/"%char))
    (list_ascii_of_string (a +:+ "/" +:+ b)) = true.
Proof.
  induction a as [|c a IH]; simpl; [reflexivity|].
  rewrite IH. apply orb_true_r.
Qed.

(** What follows the last slash: whatever comes before it is dropped. *)
Lemma last_segment_app (base name : string) :
  ~ In "/"%char (list_ascii_of_string name) ->
  last_segment (base +:+ "/" +:+ name) = name.
Proof.
  intros Hno. induction base as [|c base IH].
  - change ("" +:+ "/" +:+ name) with (String "/" name).
    cbn [last_segment]. rewrite bool_decide_eq_true_2 by reflexivity.
    now apply last_segment_no_slash.
  - change (String c base +:+ "/" +:+ name)
      with (String c (base +:+ "/" +:+ name)).
    cbn [last_segment]. rewrite existsb_slash_app.
    destruct (bool_decide (c = "/"%char)); exact IH.
Qed.

Section Fetch_facts.

Variable S3_ASSET_BUCKET_NAME : string.
Variable DB_DOC_ID_KEY : string.
Variable CLINICAL_GUIDELINE : string.
Variable process_document :
  string -> list (string * MetaArg) -> Res (list Chunk).

Local Abbreviation fetch :=
  (fetch_and_read_document S3_ASSET_BUCKET_NAME DB_DOC_ID_KEY
     CLINICAL_GUIDELINE process_document).

(** X12. The file of a document is read from the asset bucket under the
    name that follows the last slash of its URL, whatever comes before
    it.  When the bucket has no such file the fetch raises
    [FileNotFoundError], and when the document has no clinical metadata
    it raises [KeyError]; in both cases the chunker has not run and
    nothing has changed.  Otherwise the chunker runs exactly once, on the
    bytes of the file and with the id and the clinical metadata of the
    document, and every node becomes a document with that id. *)
Theorem fetch_and_read_document_cases (doc : DocumentSchema)
    (base name : string) (w : World) :
  url doc = base +:+ "/" +:+ name ->
  ~ In "/"%char (list_ascii_of_string name) ->
  match assets w !! (S3_ASSET_BUCKET_NAME +:+ "/" +:+ name),
        metadata_map doc
  with
  | None, _ => fetch doc w = (Raise FileNotFoundError, w)
  | Some _, None => fetch doc w = (Raise (KeyError CLINICAL_GUIDELINE), w)
  | Some bytes, Some clinical =>
      snd (fetch doc w) = add_chunk_call w
      /\ fst (fetch doc w)
         = match process_document bytes
                   [(DB_DOC_ID_KEY, MetaStr (id_ doc));
                    (CLINICAL_GUIDELINE, MetaClinical clinical)]
           with
           | Ok chunks =>
               Ok (map (fun c => mkLlamaDoc (chunk_text c) (id_ doc)
                                   (chunk_metadata c)) chunks)
           | Raise e => Raise e
           end
  end.
Proof.
  intros Hurl Hname.
  rewrite (fetch_cases S3_ASSET_BUCKET_NAME DB_DOC_ID_KEY CLINICAL_GUIDELINE
             process_document doc w).
  rewrite Hurl, (last_segment_app base name Hname).
  destruct (assets w !! _) as [bytes|]; [|reflexivity].
  destruct (metadata_map doc) as [clinical|]; [|reflexivity].
  destruct (process_document bytes _); now split.
Qed.

End Fetch_facts.

(** The first guideline of the demo deployment: its file is [a.pdf]. *)
Lemma fetch_and_read_document_cases_witness :
  fetch_and_read_document Demo.asset_bucket Demo.doc_id_key Demo.clinical_key
    Demo.one_node Demo.doc_a Demo.w_fresh
  = (Ok [mkLlamaDoc "stroke text" "doc-a"
           (<[Demo.doc_id_key := "doc-a"]> ∅)],
     add_chunk_call Demo.w_fresh).
Proof.
  pose proof (fetch_and_read_document_cases Demo.asset_bucket
                Demo.doc_id_key Demo.clinical_key Demo.one_node Demo.doc_a
                "http://localstack:4566/guidelines-assets" "a.pdf"
                Demo.w_fresh eq_refl) as H.
  assert (Hname : ~ In "/"%char (list_ascii_of_string "a.pdf")).
  { simpl. intros [H1|[H1|[H1|[H1|[H1|[]]]]]]; discriminate. }
  specialize (H Hname).
  change (assets Demo.w_fresh !! (Demo.asset_bucket +:+ "/" +:+ "a.pdf"))
    with (Some "stroke text") in H.
  cbn [metadata_map Demo.doc_a] in H. destruct H as [Hw Hr].
  rewrite (surjective_pairing (fetch_and_read_document _ _ _ _ _ _)).
  rewrite Hw, Hr. reflexivity.
Defined.

(* ===================================================================== *)
(** * 18. The tools and the prompt of the chat engine                     *)
(* ===================================================================== *)

Lemma dict_get_In_fst {V : Type} (k : string) (d : list (string * V)) :
  In k (map fst d) <-> dict_get k d <> None.
Proof.
  induction d as [|[k0 v0] d IH]; simpl; [tauto|].
  destruct (decide (k = k0)) as [->|Hne].
  - rewrite bool_decide_eq_true_2 by reflexivity.
    split; [discriminate | now left].
  - rewrite bool_decide_eq_false_2 by assumption. rewrite <- IH.
    split; [intros [H|H]; [congruence | exact H] | now right].
Qed.

Lemma append_nil_r (s : string) : s +:+ "" = s.
Proof.
  induction s as [|c s IH]; [reflexivity|].
  change (String c (s +:+ "") = String c s). now f_equal.
Qed.

(** A part of a joined text is part of the text. *)
Lemma join_has_part (sep p : string) (parts : list string) :
  In p parts -> exists pre post, join sep parts = pre +:+ p +:+ post.
Proof.
  induction parts as [|q parts IH]; [contradiction|].
  intros [->|Hin].
  - destruct parts as [|q' parts].
    + exists "", "". cbn [join]. now rewrite append_nil_r.
    + exists "", (sep +:+ join sep (q' :: parts)). reflexivity.
  - destruct (IH Hin) as (pre & post & Hj).
    destruct parts as [|q' parts]; [contradiction|].
    exists (q +:+ sep +:+ pre), post.
    change (join sep (q :: q' :: parts))
      with (q +:+ sep +:+ join sep (q' :: parts)).
    rewrite Hj, !append_assoc. reflexivity.
Qed.

Section Chat_engine_tools.

Variable S3_BUCKET_NAME : string.
Variable S3_ASSET_BUCKET_NAME : string.
Variable S3_ENDPOINT_URL : string.
Variable DB_DOC_ID_KEY : string.
Variable CLINICAL_GUIDELINE : string.
Variable CLINICAL_SYSTEM_MESSAGE : list Segment.
Variable process_document :
  string -> list (string * MetaArg) -> Res (list Chunk).
Variable build_title_for_document : DocumentSchema -> string.

Local Abbreviation build :=
  (build_doc_id_to_index_map S3_BUCKET_NAME S3_ASSET_BUCKET_NAME
     DB_DOC_ID_KEY CLINICAL_GUIDELINE process_document).
Local Abbreviation chat_engine :=
  (get_chat_engine S3_BUCKET_NAME S3_ASSET_BUCKET_NAME S3_ENDPOINT_URL
     DB_DOC_ID_KEY CLINICAL_GUIDELINE CLINICAL_SYSTEM_MESSAGE
     process_document build_title_for_document).

(** The body of the loop that makes the tools of the documents. *)
Local Abbreviation tool_body docs :=
  (fun '(doc_id, index) acc =>
     match dict_get doc_id (dict_of (map (fun doc => (id_ doc, doc)) docs))
     with
     | None => raise (KeyError doc_id)
     | Some doc =>
         ret (acc ++
           [mkDocumentTool
              (index_to_query_engine DB_DOC_ID_KEY doc_id index docs)
              (mkToolMetadata doc_id (build_description_for_document doc))])
     end).

(** The tool of a document: it is named by the id of the document,
    described from a document with that id, and its retriever fetches
    three nodes at most, filtered on the id. *)
Local Abbreviation tool_of docs :=
  (fun t : DocumentTool =>
     (exists doc, In doc docs /\ id_ doc = name (tool_metadata t)
                  /\ description (tool_metadata t)
                     = build_description_for_document doc)
     /\ filters (retriever (query_engine t))
        = [mkExactMatchFilter DB_DOC_ID_KEY (name (tool_metadata t))]
     /\ similarity_top_k (retriever (query_engine t)) = 3%nat).

(** The keys of the mapping that the build returns are the ids of the
    documents. *)
Lemma build_keys (sc : ServiceContext) (docs : list DocumentSchema)
    (fs : FileSystem) (w w1 : World) (m : list (string * VectorStoreIndex)) :
  build sc docs fs w = (Ok m, w1) ->
  forall k, dict_get k m <> None <-> In k (map id_ docs).
Proof.
  intros Hbuild.
  rewrite (build_unfold S3_BUCKET_NAME S3_ASSET_BUCKET_NAME DB_DOC_ID_KEY
             CLINICAL_GUIDELINE process_document) in Hbuild.
  rewrite load_phase_unfold in Hbuild.
  destruct (obtain_storage_context _ _ _ w) as [[ctx|e] w0].
  - destruct (load_indices_from_storage ctx (map id_ docs) sc)
      as [indices|e] eqn:Hload.
    + injection Hbuild as <- _.
      exact (proj2 (load_indices_stored _ _ _ _ Hload)).
    + destruct (is_ValueError e); [|discriminate].
      now destruct (rebuild_stored _ _ _ _ _ _ _ _ _ _ _ _ Hbuild)
        as (_ & Hkeys & _).
  - destruct (is_ValueError e); [|discriminate].
    now destruct (rebuild_stored _ _ _ _ _ _ _ _ _ _ _ _ Hbuild)
      as (_ & Hkeys & _).
Qed.

(** The loop over a mapping whose keys are ids of the documents never
    raises, and makes one tool per entry, in the order of the entries. *)
Lemma tools_loop (docs : list DocumentSchema)
    (m : list (string * VectorStoreIndex)) (acc : list DocumentTool)
    (w : World) :
  (forall k, In k (map fst m) -> In k (map id_ docs)) ->
  exists ts : list DocumentTool,
    for_each m (tool_body docs) acc w = (Ok (acc ++ ts), w)
    /\ map (fun t => name (tool_metadata t)) ts = map fst m
    /\ List.Forall (tool_of docs) ts.
Proof.
  revert acc. induction m as [|[k index] m IH]; intros acc Hkeys.
  - exists []. rewrite app_nil_r. repeat split. constructor.
  - pose proof (dict_of_get (map (fun doc => (id_ doc, doc)) docs) [] k)
      as Hd.
    fold (dict_of (map (fun doc => (id_ doc, doc)) docs)) in Hd.
    destruct (dict_get k (dict_of (map (fun doc => (id_ doc, doc)) docs)))
      as [doc|] eqn:Hg.
    + destruct Hd as [Hin|Hnil]; [|discriminate].
      apply in_map_iff in Hin as (doc' & [= <- <-] & Hdoc).
      destruct (IH (acc ++
                  [mkDocumentTool
                     (index_to_query_engine DB_DOC_ID_KEY (id_ doc') index
                        docs)
                     (mkToolMetadata (id_ doc')
                        (build_description_for_document doc'))]))
        as (ts & Hrun & Hnames & Hall).
      { intros k' Hk'. apply Hkeys. now right. }
      eexists (_ :: ts). split; [|split].
      * cbn [for_each]. unfold bind at 1. rewrite Hg. unfold ret at 1.
        rewrite Hrun, <- app_assoc. reflexivity.
      * simpl. now rewrite Hnames.
      * constructor; [|exact Hall]. simpl.
        split; [now exists doc' | now split].
    + exfalso. destruct Hd as [Hnin _]. apply Hnin.
      rewrite map_map. simpl. apply Hkeys. now left.
Qed.

(** X13. The chat engine has one tool per document of the mapping that
    the build returns, and making the tools never fails: when the build
    returns and the template of the prompt names no field but the two it
    is given, [get_chat_engine] returns an agent whose one tool routes
    over the tools of the documents; these are named by the keys of the
    mapping, in order, and each is described from a document of the
    conversation with that id and retrieves, filtered on that id, three
    nodes at most. *)
Theorem chat_engine_tools (callback_handler : string)
    (conversation : ConversationSchema) (w w1 : World)
    (m : list (string * VectorStoreIndex)) :
  build (get_tool_service_context [callback_handler])
    (documents conversation) (Some S3_ENDPOINT_URL) w = (Ok m, w1) ->
  (forall f, In (Field f) CLINICAL_SYSTEM_MESSAGE ->
             f = "doc_titles" \/ f = "curr_date") ->
  exists agent tool,
    chat_engine callback_handler conversation w = (Ok agent, w1)
    /\ tools agent = [tool]
    /\ map (fun t => name (tool_metadata t))
         (query_engine_tools (router tool)) = map fst m
    /\ List.Forall (tool_of (documents conversation))
         (query_engine_tools (router tool)).
Proof.
  intros Hbuild Hfields.
  destruct (tools_loop (documents conversation) m [] w1)
    as (ts & Hts & Hnames & Hall).
  { intros k Hk. apply (build_keys _ _ _ _ _ _ Hbuild).
    now apply dict_get_In_fst. }
  set (doc_titles :=
         match documents conversation with
         | _ :: _ =>
             join newline
               (map (fun doc => "- " +:+ build_title_for_document doc)
                  (documents conversation))
         | [] => "No clinical guidelines selected."
         end).
  destruct (format_succeeds CLINICAL_SYSTEM_MESSAGE
              [("doc_titles", doc_titles); ("curr_date", utcnow w1)])
    as [prompt Hfmt].
  { intros f Hf. destruct (Hfields f Hf) as [->| ->];
      eexists; reflexivity. }
  eexists _, _. split.
  { unfold get_chat_engine, get_s3_fs.
    rewrite (bind_Ok _ _ _ _ _ Hbuild), (bind_Ok _ _ _ _ _ Hts).
    unfold bind, gets, lift, ret. fold doc_titles. rewrite Hfmt.
    reflexivity. }
  split; [reflexivity|]. split; [exact Hnames | exact Hall].
Qed.

(** X14. The system prompt lists every document of the conversation: for
    a template that has the field for the document titles, the prompt of
    the agent that [get_chat_engine] returns contains, for every document
    of the conversation, the line made of a dash and its title. *)
Theorem chat_engine_prompt_lists_titles (callback_handler : string)
    (conversation : ConversationSchema) (w w1 : World)
    (agent : OpenAIAgent) :
  chat_engine callback_handler conversation w = (Ok agent, w1) ->
  In (Field "doc_titles") CLINICAL_SYSTEM_MESSAGE ->
  forall doc, In doc (documents conversation) ->
    exists pre post : string,
      system_prompt agent
      = pre +:+ ("- " +:+ build_title_for_document doc) +:+ post.
Proof.
  intros Hengine Hfield doc Hdoc. unfold get_chat_engine in Hengine.
  apply bind_Ok_inv in Hengine as (m & w2 & _ & Hengine).
  apply bind_Ok_inv in Hengine as (ts & w3 & _ & Hengine).
  apply bind_Ok_inv in Hengine as (date & w4 & _ & Hengine).
  apply bind_Ok_inv in Hengine as (prompt & w5 & Hfmt & Hengine).
  unfold ret in Hengine. injection Hengine as <- _. cbn [system_prompt].
  unfold lift in Hfmt.
  assert (Hfmt' : format CLINICAL_SYSTEM_MESSAGE
            [("doc_titles",
              match documents conversation with
              | _ :: _ =>
                  join newline
                    (map (fun doc => "- " +:+ build_title_for_document doc)
                       (documents conversation))
              | [] => "No clinical guidelines selected."
              end); ("curr_date", date)] = Ok prompt) by congruence.
  set (titles := match documents conversation with
                 | _ :: _ =>
                     join newline
                       (map (fun doc =>
                               "- " +:+ build_title_for_document doc)
                          (documents conversation))
                 | [] => "No clinical guidelines selected."
                 end) in *.
  destruct (format_has_field CLINICAL_SYSTEM_MESSAGE
              [("doc_titles", titles); ("curr_date", date)] "doc_titles"
              titles prompt Hfield eq_refl Hfmt')
    as (pre & post & ->).
  subst titles.
  destruct (documents conversation) as [|d ds] eqn:Hdocs; [contradiction|].
  destruct (join_has_part newline ("- " +:+ build_title_for_document doc)
              (map (fun doc => "- " +:+ build_title_for_document doc)
                 (d :: ds)))
    as (a & b & ->).
  { apply in_map_iff. now exists doc. }
  exists (pre +:+ a), (b +:+ post). now rewrite !append_assoc.
Qed.

End Chat_engine_tools.

(** The engine of a conversation about the two guidelines of the demo
    deployment: two tools, named by the ids of the guidelines. *)
Lemma chat_engine_tools_witness :
  exists agent tool w1,
    Demo.chat_engine (mkConversation [Demo.doc_a; Demo.doc_b] []) Demo.w_fresh
    = (Ok agent, w1)
    /\ tools agent = [tool]
    /\ map (fun t => name (tool_metadata t))
         (query_engine_tools (router tool)) = ["doc-a"; "doc-b"].
Proof.
  assert (Hfields : forall f, In (Field f) Demo.template ->
                              f = "doc_titles" \/ f = "curr_date").
  { intros f Hf. simpl in Hf.
    destruct Hf as [H|[H|[H|[H|[H|[]]]]]]; try discriminate;
      injection H as <-; auto. }
  pose (r := build_doc_id_to_index_map Demo.bucket Demo.asset_bucket
               Demo.doc_id_key Demo.clinical_key Demo.one_node
               (get_tool_service_context ["handler"])
               [Demo.doc_a; Demo.doc_b] (Some Demo.endpoint) Demo.w_fresh).
  pose (m := match fst r with Ok m => m | Raise _ => [] end).
  assert (Hbuild :
    build_doc_id_to_index_map Demo.bucket Demo.asset_bucket Demo.doc_id_key
      Demo.clinical_key Demo.one_node (get_tool_service_context ["handler"])
      (documents (mkConversation [Demo.doc_a; Demo.doc_b] []))
      (Some Demo.endpoint) Demo.w_fresh = (Ok m, snd r))
    by (vm_compute; reflexivity).
  destruct (chat_engine_tools Demo.bucket Demo.asset_bucket Demo.endpoint
              Demo.doc_id_key Demo.clinical_key Demo.template Demo.one_node
              Demo.title_of "handler"
              (mkConversation [Demo.doc_a; Demo.doc_b] []) Demo.w_fresh
              (snd r) m Hbuild Hfields)
    as (agent & tool & Hengine & Htools & Hnames & _).
  exists agent, tool, (snd r). split; [exact Hengine|].
  split; [exact Htools|]. rewrite Hnames. vm_compute. reflexivity.
Defined.

(** The prompt of that engine has the line of the second guideline. *)
Lemma chat_engine_prompt_lists_titles_witness :
  exists agent w1 pre post,
    Demo.chat_engine (mkConversation [Demo.doc_a; Demo.doc_b] []) Demo.w_fresh
    = (Ok agent, w1)
    /\ system_prompt agent = pre +:+ "- Cirrhosis" +:+ post.
Proof.
  pose (r := Demo.chat_engine (mkConversation [Demo.doc_a; Demo.doc_b] [])
               Demo.w_fresh).
  pose (agent := match fst r with
                 | Ok a => a
                 | Raise _ => mkAgent [] "" [] "" [] 0
                 end).
  assert (Hengine :
    get_chat_engine Demo.bucket Demo.asset_bucket Demo.endpoint
      Demo.doc_id_key Demo.clinical_key Demo.template Demo.one_node
      Demo.title_of "handler" (mkConversation [Demo.doc_a; Demo.doc_b] [])
      Demo.w_fresh = (Ok agent, snd r)) by (vm_compute; reflexivity).
  destruct (chat_engine_prompt_lists_titles _ _ _ _ _ _ _ _ _ _ _ _ _
              Hengine ltac:(right; left; reflexivity) Demo.doc_b
              ltac:(right; left; reflexivity))
    as (pre & post & Hprompt).
  exists agent, (snd r), pre, post. split; [exact Hengine | exact Hprompt].
Defined.

(* ===================================================================== *)
(** * 19. The settings                                                    *)
(* ===================================================================== *)

Import Config.

(** X15. The derived settings agree with the environment: the
    environment is local exactly off Render, which is exactly when the
    localstack endpoint is used and when one worker is run; and the
    engine is verbose everywhere but in production with a log level
    other than [DEBUG]. *)
Theorem settings_follow_environment (self : Settings) :
  (ENVIRONMENT self = LOCAL <-> RENDER self = false)
  /\ (ENVIRONMENT self = PREVIEW <->
      RENDER self = true /\ IS_PULL_REQUEST self = true)
  /\ (S3_ENDPOINT_URL self = Some (lit "http://localhost:4566") <->
      ENVIRONMENT self = LOCAL)
  /\ (S3_ENDPOINT_URL self = None <-> ENVIRONMENT self <> LOCAL)
  /\ (UVICORN_WORKER_COUNT self = 1 <-> ENVIRONMENT self = LOCAL)
  /\ (UVICORN_WORKER_COUNT self = 3 <-> ENVIRONMENT self <> LOCAL)
  /\ (SENTRY_SAMPLE_RATE self = 7 <-> ENVIRONMENT self = PRODUCTION)
  /\ (VERBOSE self = false <->
      ENVIRONMENT self = PRODUCTION /\ LOG_LEVEL self <> lit "DEBUG").
Proof.
  unfold ENVIRONMENT, S3_ENDPOINT_URL, UVICORN_WORKER_COUNT,
    SENTRY_SAMPLE_RATE, VERBOSE, ENVIRONMENT.
  destruct (RENDER self), (IS_PULL_REQUEST self);
    destruct (decide (LOG_LEVEL self = lit "DEBUG")) as [Hl|Hl];
    rewrite ?(bool_decide_eq_true_2 _ Hl), ?(bool_decide_eq_false_2 _ Hl);
    simpl; repeat split; intros; try discriminate; try congruence;
    try tauto; try (destruct H; congruence).
Qed.

Lemma split_no_sep (sep : N) (s : pystr) :
  ~ In sep s -> split sep s = [s].
Proof.
  induction s as [|c s IH]; intros Hno; simpl; [reflexivity|].
  destruct (N.eqb_spec c sep) as [->|Hne]; [exfalso; apply Hno; now left|].
  rewrite IH by (intros H; apply Hno; now right). reflexivity.
Qed.

Lemma split_app_sep (sep : N) (p rest : pystr) :
  ~ In sep p -> split sep (p ++ sep :: rest) = p :: split sep rest.
Proof.
  induction p as [|c p IH]; intros Hno; simpl.
  - now rewrite N.eqb_refl.
  - destruct (N.eqb_spec c sep) as [->|Hne]; [exfalso; apply Hno; now left|].
    rewrite IH by (intros H; apply Hno; now right). reflexivity.
Qed.

(** Splitting undoes joining, for parts that are free of the separator. *)
Lemma split_join (sep : N) (parts : list pystr) :
  parts <> [] -> List.Forall (fun p => ~ In sep p) parts ->
  split sep (join sep parts) = parts.
Proof.
  induction parts as [|p parts IH]; intros Hne Hall; [congruence|].
  inversion Hall as [|? ? Hp Hparts]; subst.
  destruct parts as [|q parts].
  - now apply split_no_sep.
  - change (join sep (p :: q :: parts)) with (p ++ sep :: join sep (q :: parts)).
    rewrite split_app_sep by exact Hp. f_equal. now apply IH.
Qed.

(** X16. The origins of a comma-separated setting: a [str] that does not
    start with a bracket and is made of parts joined by commas, the parts
    free of commas, is turned into the list of the parts, each stripped
    of the white space around it; nothing is dropped, so that the empty
    string gives one, empty, origin. *)
Theorem assemble_cors_origins_splits (parts : list pystr) :
  parts <> [] ->
  List.Forall (fun p => ~ In comma p) parts ->
  startswith (join comma parts) (lit "[") = false ->
  assemble_cors_origins (CorsStr (join comma parts))
  = Some (CorsList (map strip parts)).
Proof.
  intros Hne Hall Hstart. unfold assemble_cors_origins.
  rewrite Hstart. cbn [negb]. now rewrite split_join.
Qed.

(** Two origins with white space around them, and the empty string. *)
Lemma assemble_cors_origins_splits_witness :
  assemble_cors_origins (CorsStr (lit "http://a.org , http://b.org"))
  = Some (CorsList [lit "http://a.org"; lit "http://b.org"])
  /\ assemble_cors_origins (CorsStr []) = Some (CorsList [[]]).
Proof.
  split.
  - apply (assemble_cors_origins_splits
             [lit "http://a.org "; lit " http://b.org"]).
    + discriminate.
    + repeat constructor; vm_compute; intuition discriminate.
    + reflexivity.
  - apply (assemble_cors_origins_splits [[]]).
    + discriminate.
    + repeat constructor. intros [].
    + reflexivity.
Defined.

Lemma startswith_app (p s : pystr) : startswith (p ++ s) p = true.
Proof.
  induction p as [|c p IH]; simpl; [now destruct s|].
  now rewrite N.eqb_refl.
Qed.

Lemma startswith_inv (s p : pystr) :
  startswith s p = true -> exists b, s = p ++ b.
Proof.
  revert s. induction p as [|c p IH]; intros s; simpl.
  - intros _. now exists s.
  - destruct s as [|d s]; [discriminate|].
    intros H. apply andb_true_iff in H as [Hc Hs].
    apply N.eqb_eq in Hc as ->.
    destruct (IH s Hs) as [b ->]. now exists b.
Qed.

(** A text without occurrence of [old] is left as it is. *)
Lemma replace_none (old new s : pystr) :
  (forall a b, s <> a ++ old ++ b) -> replace old new s = s.
Proof.
  unfold replace. induction s as [|c s IH]; intros Hno; [reflexivity|].
  cbn [replace_from].
  destruct (startswith (c :: s) old) eqn:Hs.
  - exfalso. apply startswith_inv in Hs as [b Hb]. exact (Hno [] b Hb).
  - f_equal. apply IH. intros a b ->. exact (Hno (c :: a) b eq_refl).
Qed.

Lemma replace_from_skip (old new pre s : pystr) :
  replace_from old new (length pre) (pre ++ s) = replace_from old new 0 s.
Proof.
  induction pre as [|c pre IH]; [reflexivity|]. exact IH.
Qed.

(** An occurrence at the front is replaced, and the rest is looked at
    from behind it. *)
Lemma replace_prefix (old new s : pystr) :
  old <> [] -> replace old new (old ++ s) = new ++ replace old new s.
Proof.
  intros Hne. unfold replace.
  destruct old as [|c old]; [congruence|].
  change ((c :: old) ++ s) with (c :: (old ++ s)).
  cbn [replace_from].
  change (c :: (old ++ s)) with ((c :: old) ++ s).
  rewrite startswith_app. f_equal.
  replace (length (c :: old) - 1)%nat with (length old) by (simpl; lia).
  apply replace_from_skip.
Qed.

Lemma lstrip_app_nonempty (x y : pystr) :
  lstrip x <> [] -> lstrip (x ++ y) = lstrip x ++ y.
Proof.
  induction x as [|c x IH]; simpl; [congruence|].
  destruct (is_whitespace c); [exact IH | reflexivity].
Qed.

Lemma rstrip_app_nonempty (a b : pystr) :
  rstrip b <> [] -> rstrip (a ++ b) = a ++ rstrip b.
Proof.
  unfold rstrip. intros Hb.
  rewrite rev_app_distr, lstrip_app_nonempty.
  - now rewrite rev_app_distr, rev_involutive.
  - intros H. apply Hb. now rewrite H.
Qed.

(** A text that starts with a scheme without white space at its ends,
    and does not end in white space, is what [strip] leaves of it. *)
Lemma strip_scheme (scheme rest : pystr) :
  scheme <> [] -> lstrip scheme = scheme -> rstrip scheme = scheme ->
  rstrip rest = rest ->
  strip (scheme ++ rest) = scheme ++ rest.
Proof.
  intros Hne Hl Hr Hrest. unfold strip.
  rewrite lstrip_app_nonempty by (rewrite Hl; exact Hne). rewrite Hl.
  destruct rest as [|c rest].
  - now rewrite app_nil_r.
  - rewrite rstrip_app_nonempty; [now rewrite Hrest|].
    rewrite Hrest. discriminate.
Qed.

(** A text is left as it is when [old] occurs neither in its rest nor
    from a position of its front. *)
Lemma replace_behind (old new front rest : pystr) :
  (forall a b, rest <> a ++ old ++ b) ->
  (forall a b, (length a < length front)%nat ->
               front ++ rest <> a ++ old ++ b) ->
  replace old new (front ++ rest) = front ++ rest.
Proof.
  intros Hrest Hfront. apply replace_none. intros a b Heq.
  destruct (Nat.lt_ge_cases (length a) (length front)) as [Hlt|Hge];
    [exact (Hfront a b Hlt Heq)|].
  apply (Hrest (drop (length front) a) b).
  apply (f_equal (drop (length front))) in Heq.
  rewrite drop_app_length in Heq. rewrite Heq.
  rewrite drop_app_le by exact Hge. reflexivity.
Qed.

(** X17. The database URL is made one of asyncpg: a URL with the scheme
    [postgres] or [postgresql], whose rest holds neither scheme again and
    does not end in white space, gets the scheme [postgresql+asyncpg]
    and keeps its rest; a URL that has that scheme already is left as it
    is; and a URL with white space in front is refused, although white
    space at the end would be removed. *)
Theorem assemble_db_url_asyncpg (rest : pystr) :
  (forall a b, rest <> a ++ lit "postgres://" ++ b) ->
  (forall a b, rest <> a ++ lit "postgresql://" ++ b) ->
  rstrip rest = rest ->
  assemble_db_url (lit "postgres://" ++ rest)
  = Some (lit "postgresql+asyncpg://" ++ rest)
  /\ assemble_db_url (lit "postgresql://" ++ rest)
     = Some (lit "postgresql+asyncpg://" ++ rest)
  /\ assemble_db_url (lit "postgresql+asyncpg://" ++ rest)
     = Some (lit "postgresql+asyncpg://" ++ rest)
  /\ forall c v, is_whitespace c = true -> assemble_db_url (c :: v) = None.
Proof.
  intros H1 H2 Hrest.
  assert (Hstrip : strip (lit "postgresql+asyncpg://" ++ rest)
                   = lit "postgresql+asyncpg://" ++ rest)
    by (apply strip_scheme; [discriminate | reflexivity | reflexivity
                            | exact Hrest]).
  assert (Hq1 : replace (lit "postgres://") (lit "postgresql://")
                  (lit "postgresql://" ++ rest)
                = lit "postgresql://" ++ rest).
  { apply replace_behind; [exact H1|]. intros a b Hlen Heq.
    vm_compute in Hlen.
    do 13 (destruct a as [|? a];
           [vm_compute in Heq; discriminate Heq
           | injection Heq as <- Heq]).
    simpl in Hlen. lia. }
  assert (Hq2 : replace (lit "postgres://") (lit "postgresql://")
                  (lit "postgresql+asyncpg://" ++ rest)
                = lit "postgresql+asyncpg://" ++ rest).
  { apply replace_behind; [exact H1|]. intros a b Hlen Heq.
    vm_compute in Hlen.
    do 21 (destruct a as [|? a];
           [vm_compute in Heq; discriminate Heq
           | injection Heq as <- Heq]).
    simpl in Hlen. lia. }
  assert (Hq3 : replace (lit "postgresql://") (lit "postgresql+asyncpg://")
                  (lit "postgresql+asyncpg://" ++ rest)
                = lit "postgresql+asyncpg://" ++ rest).
  { apply replace_behind; [exact H2|]. intros a b Hlen Heq.
    vm_compute in Hlen.
    do 21 (destruct a as [|? a];
           [vm_compute in Heq; discriminate Heq
           | injection Heq as <- Heq]).
    simpl in Hlen. lia. }
  split; [|split; [|split]].
  - unfold assemble_db_url.
    change (negb (truthy (lit "postgres://" ++ rest))
            || negb (startswith (lit "postgres://" ++ rest) (lit "postgres")))
      with false.
    cbn [orb]. rewrite replace_prefix by discriminate.
    rewrite (replace_none _ _ rest H1).
    rewrite replace_prefix by discriminate.
    rewrite (replace_none _ _ rest H2). now rewrite Hstrip.
  - unfold assemble_db_url.
    change (negb (truthy (lit "postgresql://" ++ rest))
            || negb (startswith (lit "postgresql://" ++ rest)
                       (lit "postgres")))
      with false.
    cbn [orb]. rewrite Hq1.
    rewrite replace_prefix by discriminate.
    rewrite (replace_none _ _ rest H2). now rewrite Hstrip.
  - unfold assemble_db_url.
    change (negb (truthy (lit "postgresql+asyncpg://" ++ rest))
            || negb (startswith (lit "postgresql+asyncpg://" ++ rest)
                       (lit "postgres")))
      with false.
    cbn [orb]. now rewrite Hq2, Hq3, Hstrip.
  - intros c v Hc. unfold assemble_db_url.
    assert (Hs : startswith (c :: v) (lit "postgres") = false).
    { change (startswith (c :: v) (lit "postgres"))
        with ((c =? 112)%N
              && startswith v (lit "ostgres")).
      destruct (N.eqb_spec c 112) as [->|]; [discriminate | reflexivity]. }
    rewrite Hs. now rewrite orb_true_r.
Qed.

(** A Render database URL. *)
Lemma assemble_db_url_asyncpg_witness :
  assemble_db_url (lit "postgres://user:pw@db.internal:5432/app")
  = Some (lit "postgresql+asyncpg://user:pw@db.internal:5432/app").
Proof.
  destruct (assemble_db_url_asyncpg (lit "user:pw@db.internal:5432/app"))
    as (H & _).
  - intros a b Heq. vm_compute in Heq.
    repeat (destruct a as [|? a];
            [discriminate Heq | injection Heq as _ Heq]).
    destruct a; discriminate Heq.
  - intros a b Heq. vm_compute in Heq.
    repeat (destruct a as [|? a];
            [discriminate Heq | injection Heq as _ Heq]).
    destruct a; discriminate Heq.
  - reflexivity.
  - exact H.
Defined.

(* ===================================================================== *)
(** * 20. Where the files of the documents are                            *)
(* ===================================================================== *)

Lemma last_segment_has_no_slash (s : string) :
  ~ In "/"%char (list_ascii_of_string (last_segment s)).
Proof.
  induction s as [|c s IH]; [intros []|].
  cbn [last_segment].
  destruct (decide (c = "/"%char)) as [->|Hc].
  - now rewrite bool_decide_eq_true_2.
  - rewrite bool_decide_eq_false_2 by exact Hc.
    destruct (existsb _ (list_ascii_of_string s)) eqn:Hex; [exact IH|].
    simpl. intros [H|H]; [congruence|].
    assert (Ht : existsb (fun c' => bool_decide (c' = "/"%char))
                   (list_ascii_of_string s) = true); [|congruence].
    apply existsb_exists. exists "/"%char. split; [exact H|].
    now apply bool_decide_eq_true.
Qed.

Lemma append_inj_l (a b c : string) : a +:+ b = a +:+ c -> b = c.
Proof.
  induction a as [|x a IH]; [trivial|].
  intros H. apply IH. now injection H.
Qed.

Lemma put_all_other (s3_bucket : string) (files : list (string * string))
    (objs : gmap string string) (path : string) :
  (forall file, In file files ->
                path <> s3_bucket +:+ "/" +:+ fst file) ->
  Seed.put_all s3_bucket files objs !! path = objs !! path.
Proof.
  unfold Seed.put_all. revert objs.
  induction files as [|f files IH]; intros objs Hne; simpl; [reflexivity|].
  rewrite IH by (intros f' Hf'; apply Hne; now right).
  apply lookup_insert_ne. intros Heq. apply (Hne f); [now left | congruence].
Qed.

Lemma put_all_file (s3_bucket : string) (files : list (string * string))
    (objs : gmap string string) (name bytes : string) :
  NoDup (map fst files) -> In (name, bytes) files ->
  Seed.put_all s3_bucket files objs !! (s3_bucket +:+ "/" +:+ name)
  = Some bytes.
Proof.
  unfold Seed.put_all. revert objs.
  induction files as [|f files IH]; intros objs Hnd Hin; [contradiction|].
  simpl in Hnd. apply NoDup_cons in Hnd as [Hf Hnd]. simpl.
  destruct Hin as [->|Hin]; [|now apply IH].
  fold (Seed.put_all s3_bucket files
          (<[s3_bucket +:+ "/" +:+ fst (name, bytes) := snd (name, bytes)]>
             objs)).
  rewrite put_all_other.
  - apply lookup_insert_eq.
  - intros f' Hf' Heq. apply Hf. simpl.
    apply append_inj_l, append_inj_l in Heq. rewrite Heq.
    apply list_elem_of_In. now apply in_map.
Qed.

Section Asset_facts.

Variable S3_ASSET_BUCKET_NAME : string.
Variable DB_DOC_ID_KEY : string.
Variable CLINICAL_GUIDELINE : string.
Variable process_document :
  string -> list (string * MetaArg) -> Res (list Chunk).

Local Abbreviation fetch :=
  (fetch_and_read_document S3_ASSET_BUCKET_NAME DB_DOC_ID_KEY
     CLINICAL_GUIDELINE process_document).

(** X19. [fetch_and_read_document] reads at the root of the asset bucket
    only: the key it asks for is the last segment of the URL, which has
    no slash, so an object that is stored under a prefix of the bucket is
    never read; when the bucket has no object at its root, the fetch of
    every document raises [FileNotFoundError], whatever its URL, and the
    chunker is not run. *)
Theorem fetch_reads_bucket_root_only (w : World) :
  (forall key, ~ In "/"%char (list_ascii_of_string key) ->
               assets w !! (S3_ASSET_BUCKET_NAME +:+ "/" +:+ key) = None) ->
  forall doc, fetch doc w = (Raise FileNotFoundError, w).
Proof.
  intros Hroot doc.
  rewrite (fetch_cases S3_ASSET_BUCKET_NAME DB_DOC_ID_KEY CLINICAL_GUIDELINE
             process_document doc w).
  now rewrite (Hroot _ (last_segment_has_no_slash (url doc))).
Qed.

(** X20. What [copy_to_s3] puts into the asset bucket is what
    [fetch_and_read_document] finds: off Render, or when the bucket
    exists, the copy succeeds; afterwards the bucket exists, every file
    of the directory is an object of the bucket under its name, and the
    objects at other paths are as before; and with these objects as the
    assets, the fetch of a document whose URL ends in a slash and the
    name of one of the files reads the bytes of that file: it does not
    raise [FileNotFoundError], and the chunker is run on these bytes. *)
Theorem copy_to_s3_then_fetch (RENDER : bool) (pdfs : list (string * string))
    (s3 : Seed.S3) :
  NoDup (map fst pdfs) ->
  RENDER = false \/ S3_ASSET_BUCKET_NAME ∈ Seed.buckets s3 ->
  exists s3' : Seed.S3,
    Seed.copy_to_s3 RENDER pdfs S3_ASSET_BUCKET_NAME s3 = Some s3'
    /\ S3_ASSET_BUCKET_NAME ∈ Seed.buckets s3'
    /\ (forall name bytes, In (name, bytes) pdfs ->
          Seed.objects s3' !! (S3_ASSET_BUCKET_NAME +:+ "/" +:+ name)
          = Some bytes)
    /\ (forall path,
          (forall file, In file pdfs ->
                        path <> S3_ASSET_BUCKET_NAME +:+ "/" +:+ fst file) ->
          Seed.objects s3' !! path = Seed.objects s3 !! path)
    /\ forall (w : World) (doc : DocumentSchema) (base name bytes : string),
         assets w = Seed.objects s3' ->
         In (name, bytes) pdfs ->
         ~ In "/"%char (list_ascii_of_string name) ->
         url doc = base +:+ "/" +:+ name ->
         fetch doc w
         = match metadata_map doc with
           | None => (Raise (KeyError CLINICAL_GUIDELINE), w)
           | Some clinical =>
               (match process_document bytes
                        [(DB_DOC_ID_KEY, MetaStr (id_ doc));
                         (CLINICAL_GUIDELINE, MetaClinical clinical)]
                with
                | Ok chunks =>
                    Ok (map (fun c => mkLlamaDoc (chunk_text c) (id_ doc)
                                        (chunk_metadata c)) chunks)
                | Raise e => Raise e
                end, add_chunk_call w)
           end.
Proof.
  intros Hnd Hcan.
  assert (Hcopy : exists bs,
    Seed.copy_to_s3 RENDER pdfs S3_ASSET_BUCKET_NAME s3
    = Some (Seed.mkS3 bs
              (Seed.put_all S3_ASSET_BUCKET_NAME pdfs (Seed.objects s3)))
    /\ S3_ASSET_BUCKET_NAME ∈ bs).
  { unfold Seed.copy_to_s3.
    destruct (decide (S3_ASSET_BUCKET_NAME ∈ Seed.buckets s3)) as [Hin|Hout].
    - rewrite (bool_decide_eq_true_2 _ Hin), orb_true_r. cbn [negb].
      now eexists.
    - rewrite (bool_decide_eq_false_2 _ Hout).
      destruct Hcan as [->|Hin]; [|contradiction]. cbn [orb negb].
      eexists. split; [reflexivity|]. set_solver. }
  destruct Hcopy as (bs & Hcopy & Hbs).
  eexists. split; [exact Hcopy|]. cbn [Seed.buckets Seed.objects].
  split; [exact Hbs|].
  split; [intros name bytes Hin; now apply put_all_file|].
  split; [intros path Hpath; now apply put_all_other|].
  intros w doc base name bytes Hassets Hin Hname Hurl.
  rewrite (fetch_cases S3_ASSET_BUCKET_NAME DB_DOC_ID_KEY CLINICAL_GUIDELINE
             process_document doc w).
  rewrite Hurl, (last_segment_app base name Hname), Hassets.
  rewrite (put_all_file _ _ _ _ _ Hnd Hin).
  destruct (metadata_map doc) as [clinical|]; [|reflexivity].
  destruct (process_document bytes _); reflexivity.
Qed.

End Asset_facts.

(** The guideline is stored under the prefix [clinical-guidelines/], and
    the URL of the document names it there: the fetch does not find it. *)
Lemma fetch_reads_bucket_root_only_witness :
  fetch_and_read_document Demo.asset_bucket Demo.doc_id_key Demo.clinical_key
    Demo.one_node
    (mkDocument "doc-a"
       "https://guidelines-assets.s3.amazonaws.com/clinical-guidelines/a.pdf"
       (Some (mkClinical "Stroke" "ESO" None)))
    (mkWorld 0 ∅
       (<["guidelines-assets/clinical-guidelines/a.pdf" := "stroke text"]> ∅)
       [] "pg" [] 0 0 "2024-05-01")
  = (Raise FileNotFoundError,
     mkWorld 0 ∅
       (<["guidelines-assets/clinical-guidelines/a.pdf" := "stroke text"]> ∅)
       [] "pg" [] 0 0 "2024-05-01").
Proof.
  apply fetch_reads_bucket_root_only.
  intros key Hkey. cbn [assets].
  rewrite lookup_insert_ne; [apply lookup_empty|].
  intros Heq.
  change "guidelines-assets/clinical-guidelines/a.pdf"
    with (Demo.asset_bucket +:+ "/" +:+ "clinical-guidelines/a.pdf") in Heq.
  apply append_inj_l, append_inj_l in Heq. subst key.
  apply Hkey. vm_compute. tauto.
Defined.

(** The two files of the example directory are copied into a new local
    bucket; the first guideline of the demo deployment is then found. *)
Lemma copy_to_s3_then_fetch_witness :
  exists s3',
    Seed.copy_to_s3 false
      [("a.pdf", "stroke text"); ("b.pdf", "cirrhosis text")]
      Demo.asset_bucket (Seed.mkS3 ∅ ∅) = Some s3'
    /\ forall w, assets w = Seed.objects s3' ->
         fst (fetch_and_read_document Demo.asset_bucket Demo.doc_id_key
                Demo.clinical_key Demo.one_node Demo.doc_a w)
         = Ok [mkLlamaDoc "stroke text" "doc-a"
                 (<[Demo.doc_id_key := "doc-a"]> ∅)].
Proof.
  destruct (copy_to_s3_then_fetch Demo.asset_bucket Demo.doc_id_key
              Demo.clinical_key Demo.one_node false
              [("a.pdf", "stroke text"); ("b.pdf", "cirrhosis text")]
              (Seed.mkS3 ∅ ∅))
    as (s3' & Hcopy & _ & _ & _ & Hfetch).
  - apply NoDup_cons. split; [|apply NoDup_singleton].
    intros H. apply list_elem_of_singleton in H. discriminate.
  - now left.
  - exists s3'. split; [exact Hcopy|]. intros w Hassets.
    rewrite (Hfetch w Demo.doc_a "http://localstack:4566/guidelines-assets"
               "a.pdf" "stroke text" Hassets).
    + reflexivity.
    + now left.
    + simpl. intros [H1|[H1|[H1|[H1|[H1|[]]]]]]; discriminate.
    + reflexivity.
Defined.
